(** * The wager engine of the channel points miner: [classes/entities/Bet.py]

    A shallow embedding of [Strategy], [Condition], [OutcomeKeys],
    [FilterCondition], [BetSettings] and [Bet], and the properties of the
    decision logic that follow from the code.

    Python dictionaries are finite maps from strings to Python values, an
    exception is an explicit error result, and a Python [float] is the
    rational number it denotes: every floating-point operation is the exact
    operation followed by rounding to the nearest binary64 number. *)

From Stdlib Require Import ZArith QArith Qabs Qround Qpower Lqa Lia String List.
From Stdlib Require Import Floats.SpecFloat.
From stdpp Require Import gmap strings list fin_maps.

Local Open Scope string_scope.
Local Open Scope Z_scope.

(** ** Python values and exceptions *)

Inductive exn : Type :=
| KeyError
| IndexError
| TypeError
| AttributeError
| ZeroDivisionError
| OverflowError.

Inductive res (A : Type) : Type :=
| Ok (a : A)
| Raise (e : exn).
Arguments Ok {A} a.
Arguments Raise {A} e.

#[global] Instance res_ret : MRet res := fun A a => Ok a.
#[global] Instance res_bind : MBind res := fun A B f m =>
  match m with
  | Ok a => f a
  | Raise e => Raise e
  end.

(** The values stored in the dictionaries of this module: [None], integers
    (unbounded, as in Python), floats (the rational they denote) and
    strings. *)
Inductive pyval : Type :=
| VNone
| VInt (z : Z)
| VFloat (q : Q)
| VStr (s : string).

Abbreviation dict := (gmap string pyval).

(** [d[k]]: a missing key raises [KeyError]. *)
Definition getitem (d : dict) (k : string) : res pyval :=
  match d !! k with
  | Some v => Ok v
  | None => Raise KeyError
  end.

(** [l[i]] on a list: an index past the end raises [IndexError]. *)
Definition list_getitem {A : Type} (l : list A) (i : nat) : res A :=
  match l !! i with
  | Some v => Ok v
  | None => Raise IndexError
  end.

(** ** Binary64 arithmetic

    [rne_div a b] is the integer nearest to [a / b] (for [0 < b]), ties going
    to the even one.  [ilog2 n d] is the integer [e] with
    [2^e <= n / d < 2^(e+1)] (for [0 < n], [0 < d]). *)

Definition rne_div (a b : Z) : Z :=
  let q := a / b in
  match 2 * (a mod b) ?= b with
  | Lt => q
  | Gt => q + 1
  | Eq => if Z.even q then q else q + 1
  end.

Definition ilog2 (n d : Z) : Z :=
  let e := Z.log2 n - Z.log2 d in
  if n * 2 ^ Z.max 0 (- e) <? d * 2 ^ Z.max 0 e then e - 1 else e.

(** The exponent of the unit in the last place of the binary64 number
    nearest to [q]: 53 significant bits, subnormal below [2^-1022]. *)
Definition b64_exp (q : Q) : Z :=
  Z.max (ilog2 (Z.abs (Qnum q)) (Zpos (Qden q)) - 52) (-1074).

Definition b64_mant (q : Q) : Z :=
  let k := b64_exp q in
  rne_div (Qnum q * 2 ^ Z.max 0 (- k)) (Zpos (Qden q) * 2 ^ Z.max 0 k).

(** [scale2 m k] is the rational [m * 2^k]. *)
Definition scale2 (m k : Z) : Q :=
  Qmake (m * 2 ^ Z.max 0 k) (Z.to_pos (2 ^ Z.max 0 (- k))).

(** Rounding to the nearest binary64 number, ties to even. *)
Definition b64 (q : Q) : Q :=
  if Qnum q =? 0 then 0%Q else Qred (scale2 (b64_mant q) (b64_exp q)).

(** The relative error bound of one rounding, [2^-53]. *)
Definition unit_roundoff : Q := 1 # 9007199254740992.

(** A result of magnitude [2^1024] or more is outside the finite range. *)
Definition b64_overflows (q : Q) : bool :=
  Qle_bool (inject_Z (2 ^ 1024)) (Qabs (b64 q)).

(** The rational denoted by a number of the Standard Library's
    specification of IEEE 754 ([SpecFloat]); used to compare [b64] with that
    specification on the operations of this module. *)
Definition SF2Q (f : spec_float) : option Q :=
  match f with
  | S754_zero _ => Some 0%Q
  | S754_finite s m e =>
      Some (Qred (scale2 (if s then Z.neg m else Z.pos m) e))
  | _ => None
  end.

Definition Z2SF (z : Z) : spec_float := binary_normalize 53 1024 z 0 false.

(** ** Arithmetic and comparison of Python numbers

    [float(x)], [x + y], [x - y], [x * y], [x / y], [abs(x)], [int(x)],
    [min(x, y)] and the order comparisons, on the values above.  Two integers
    are combined exactly; as soon as a float takes part the integer operand
    is converted and the exact result is rounded by [b64].  Only finite
    floats are values here: a result outside the finite binary64 range is
    reported as [OverflowError], which is what Python raises for [float(n)],
    for [n / m] on integers and for [int(x)].  The float operations of Python
    would go on with an infinity instead: the stake turns it into this error
    at [int(...)], no quotient of [update_outcomes] can be one, and the
    difference of [SMART] is one only between percentages beyond [10^307],
    a case in which the model reports the error and says nothing else. *)

Definition b64_res (q : Q) : res Q :=
  if b64_overflows q then Raise OverflowError else Ok (b64 q).

Definition py_float (v : pyval) : res Q :=
  match v with
  | VInt z => b64_res (inject_Z z)
  | VFloat q => Ok q
  | _ => Raise TypeError
  end.

Definition float_op (op : Q -> Q -> Q) (x y : pyval) : res pyval :=
  a ← py_float x; b ← py_float y; c ← b64_res (op a b); Ok (VFloat c).

Definition py_add (x y : pyval) : res pyval :=
  match x, y with
  | VInt a, VInt b => Ok (VInt (a + b))
  | VStr s, VStr t => Ok (VStr (s ++ t))
  | _, _ => float_op Qplus x y
  end.

Definition py_sub (x y : pyval) : res pyval :=
  match x, y with
  | VInt a, VInt b => Ok (VInt (a - b))
  | _, _ => float_op Qminus x y
  end.

(** [x * y] for numbers.  (A string times an integer is a repeated string in
    Python; the products of this module are divided next, which a string
    does not support, so that case is an error here as well.) *)
Definition py_mul (x y : pyval) : res pyval :=
  match x, y with
  | VInt a, VInt b => Ok (VInt (a * b))
  | _, _ => float_op Qmult x y
  end.

(** True division: the quotient of two integers is the correctly rounded
    rational quotient, whatever their size. *)
Definition py_truediv (x y : pyval) : res pyval :=
  match x, y with
  | VInt a, VInt b =>
      if b =? 0 then Raise ZeroDivisionError
      else c ← b64_res (inject_Z a / inject_Z b); Ok (VFloat c)
  | _, _ =>
      a ← py_float x; b ← py_float y;
      if Qeq_bool b 0 then Raise ZeroDivisionError
      else c ← b64_res (a / b); Ok (VFloat c)
  end.

Definition py_abs (x : pyval) : res pyval :=
  match x with
  | VInt a => Ok (VInt (Z.abs a))
  | VFloat q => Ok (VFloat (Qabs q))
  | _ => Raise TypeError
  end.

(** [int(x)] truncates a float towards zero. *)
Definition py_int (x : pyval) : res Z :=
  match x with
  | VInt a => Ok a
  | VFloat q => Ok (Z.quot (Qnum q) (Zpos (Qden q)))
  | _ => Raise TypeError
  end.

Definition num_val (v : pyval) : option Q :=
  match v with
  | VInt z => Some (inject_Z z)
  | VFloat q => Some q
  | _ => None
  end.

(** Numbers compare by value, an integer with a float too; strings compare
    lexicographically; anything else is a [TypeError]. *)
Definition py_cmp (x y : pyval) : res comparison :=
  match num_val x, num_val y with
  | Some a, Some b => Ok (a ?= b)%Q
  | _, _ =>
      match x, y with
      | VStr s, VStr t => Ok (String.compare s t)
      | _, _ => Raise TypeError
      end
  end.

Definition py_gt (x y : pyval) : res bool :=
  c ← py_cmp x y; Ok (match c with Gt => true | _ => false end).
Definition py_lt (x y : pyval) : res bool :=
  c ← py_cmp x y; Ok (match c with Lt => true | _ => false end).
Definition py_ge (x y : pyval) : res bool :=
  c ← py_cmp x y; Ok (match c with Lt => false | _ => true end).
Definition py_le (x y : pyval) : res bool :=
  c ← py_cmp x y; Ok (match c with Gt => false | _ => true end).

(** [x == y]. *)
Definition py_eq (x y : pyval) : bool :=
  match num_val x, num_val y with
  | Some a, Some b => Qeq_bool a b
  | _, _ =>
      match x, y with
      | VStr s, VStr t => String.eqb s t
      | VNone, VNone => true
      | _, _ => false
      end
  end.

(** [min(x, y)] is [y] when [y < x] and [x] otherwise. *)
Definition py_min (x y : pyval) : res pyval :=
  smaller ← py_lt y x; Ok (if smaller : bool then y else x).

(** [s.replace(old, new)] for a non-empty [old]: [skip] counts the
    characters of an occurrence of [old] that are still to be dropped. *)
Fixpoint replace_from (old new : string) (skip : nat) (s : string) : string :=
  match s with
  | EmptyString => EmptyString
  | String c s' =>
      match skip with
      | S n => replace_from old new n s'
      | O =>
          if String.prefix old s
          then new ++ replace_from old new (Nat.pred (String.length old)) s'
          else String c (replace_from old new O s')
      end
  end.

Definition str_replace (s old new : string) : string :=
  replace_from old new O s.

(** ** [Strategy], [Condition] and [OutcomeKeys] *)

Inductive Strategy : Type := MOST_VOTED | HIGH_ODDS | PERCENTAGE | SMART.

Inductive Condition : Type := GT | LT | GTE | LTE.

(** [where.name] *)
Definition Condition_name (c : Condition) : string :=
  match c with
  | GT => "GT"
  | LT => "LT"
  | GTE => "GTE"
  | LTE => "LTE"
  end.

(** [Condition[name]]: an unknown name raises [KeyError]. *)
Definition Condition_getitem (name : pyval) : res Condition :=
  match name with
  | VStr "GT" => Ok GT
  | VStr "LT" => Ok LT
  | VStr "GTE" => Ok GTE
  | VStr "LTE" => Ok LTE
  | _ => Raise KeyError
  end.

Module OutcomeKeys.
Definition PERCENTAGE_USERS := "percentage_users".
Definition ODDS_PERCENTAGE := "odds_percentage".
Definition ODDS := "odds".
Definition TOP_POINTS := "top_points".
Definition TOTAL_USERS := "total_users".
Definition TOTAL_POINTS := "total_points".
Definition DECISION_USERS := "decision_users".
Definition DECISION_POINTS := "decision_points".

(** The upper-case attributes of the class with their values, in the
    order of [dir(cls)] (sorted by name). *)
Definition attrs : list (string * string) :=
  [ ("DECISION_POINTS", DECISION_POINTS);
    ("DECISION_USERS", DECISION_USERS);
    ("ODDS", ODDS);
    ("ODDS_PERCENTAGE", ODDS_PERCENTAGE);
    ("PERCENTAGE_USERS", PERCENTAGE_USERS);
    ("TOP_POINTS", TOP_POINTS);
    ("TOTAL_POINTS", TOTAL_POINTS);
    ("TOTAL_USERS", TOTAL_USERS) ].

(** [search]: the first attribute whose value equals [value]; the loop
    falls through to an implicit [None]. *)
Definition search (value : pyval) : pyval :=
  match List.find (fun a => py_eq (VStr (snd a)) value) attrs with
  | Some a => VStr (fst a)
  | None => VNone
  end.

(** [getattr(OutcomeKeys, name)] on the constants of the class; any other
    name is reported as [AttributeError], a name that is not a string as
    [TypeError]. *)
Definition getattr (name : pyval) : res pyval :=
  match name with
  | VStr n =>
      match List.find (fun a => String.eqb (fst a) n) attrs with
      | Some a => Ok (VStr (snd a))
      | None => Raise AttributeError
      end
  | _ => Raise TypeError
  end.
End OutcomeKeys.
Import OutcomeKeys.

(** ** [FilterCondition]

    The fields [by] and [where] are written [by_] and [where_]; a field that
    was not given holds [None]. *)

Record FilterCondition : Type := mkFilterCondition {
  by_ : pyval;
  where_ : option Condition;
  value : pyval
}.

Module FilterCondition_.
(** [self.where.name] fails on [None]. *)
Definition to_dict (self : FilterCondition) : res dict :=
  let by_name := OutcomeKeys.search (by_ self) in
  match where_ self with
  | None => Raise AttributeError
  | Some w =>
      Ok (<["by" := by_name]>
          (<["where" := VStr (Condition_name w)]>
           (<["value" := value self]> ∅)))
  end.

Definition from_dict (data : dict) : res FilterCondition :=
  b ← getitem data "by";
  b ← OutcomeKeys.getattr b;
  w ← getitem data "where";
  w ← Condition_getitem w;
  v ← getitem data "value";
  Ok (mkFilterCondition b (Some w) v).
End FilterCondition_.

(** ** [BetSettings]

    Every field defaults to [None] in the constructor. *)

Record BetSettings : Type := mkBetSettings {
  strategy : option Strategy;
  percentage : pyval;
  percentage_gap : pyval;
  max_points : pyval;
  stealth_mode : option bool;
  filter_condition : option FilterCondition
}.

(** [BetSettings()] *)
Definition BetSettings_new : BetSettings :=
  mkBetSettings None VNone VNone VNone None None.

(** The truth value of the constant [None], and the condition [not None]
    that every line of [default] tests. *)
Definition truth_of_None : bool := false.
Definition not_None : bool := negb truth_of_None.

(** [default]: each line is [self.x = self.x if not None else d]. *)
Definition default (self : BetSettings) : BetSettings :=
  {| strategy := if not_None then strategy self else Some SMART;
     percentage := if not_None then percentage self else VInt 5;
     percentage_gap := if not_None then percentage_gap self else VInt 20;
     max_points := if not_None then max_points self else VInt 50000;
     stealth_mode := if not_None then stealth_mode self else Some false;
     filter_condition := filter_condition self |}.

(** ** [Bet] *)

(** A snapshot of one outcome as [update_outcomes] receives it: the two raw
    totals, which [int(...)] leaves as they are, and the points of the top
    predictors. *)
Record Predictor : Type := mkPredictor { points : Z }.

Record Snapshot : Type := mkSnapshot {
  snap_total_users : Z;
  snap_total_points : Z;
  top_predictors : list Predictor
}.

(** [sorted(l, key=lambda x: x["points"], reverse=True)]: a stable sort into
    descending order of points. *)
Fixpoint insert_desc (p : Predictor) (l : list Predictor) : list Predictor :=
  match l with
  | [] => [p]
  | x :: l' =>
      if points x <=? points p then p :: l else x :: insert_desc p l'
  end.

Definition sorted_desc (l : list Predictor) : list Predictor :=
  foldr insert_desc [] l.

Record Bet : Type := mkBet {
  outcomes : list dict;
  decision : dict;
  total_users : pyval;
  total_points : pyval;
  settings : BetSettings
}.

(** The keys [__clear_outcomes] keeps, and the ones it fills with [0]. *)
Definition kept_keys : list string :=
  [ TOTAL_USERS; TOTAL_POINTS; TOP_POINTS; PERCENTAGE_USERS; ODDS;
    ODDS_PERCENTAGE; "title"; "color"; "id" ].

Definition zeroed_keys : list string :=
  [ PERCENTAGE_USERS; ODDS; ODDS_PERCENTAGE; TOP_POINTS ].

Definition fill_zero (o : dict) (key : string) : dict :=
  match o !! key with
  | Some _ => o
  | None => <[key := VInt 0]> o
  end.

Definition clear_outcome (o : dict) : dict :=
  foldl fill_zero (filter (fun kv => kv.1 ∈ kept_keys) o) zeroed_keys.

(** [__clear_outcomes] *)
Definition clear_outcomes (outs : list dict) : list dict :=
  clear_outcome <$> outs.

(** [Bet(outcomes, settings)] *)
Definition Bet_new (outs : list dict) (st : BetSettings) : Bet :=
  mkBet (clear_outcomes outs) ∅ (VInt 0) (VInt 0) st.

(** The first loop of [update_outcomes], for one index: the raw totals are
    overwritten, and the largest stake is recorded when the snapshot lists
    any predictor. *)
Definition ingest (snap : Snapshot) (o : dict) : dict :=
  let o := <[TOTAL_USERS := VInt (snap_total_users snap)]> o in
  let o := <[TOTAL_POINTS := VInt (snap_total_points snap)]> o in
  match sorted_desc (top_predictors snap) with
  | [] => o
  | p :: _ => <[TOP_POINTS := VInt (points p)]> o
  end.

Fixpoint ingest_loop (indices : list nat) (snaps : list Snapshot)
    (outs : list dict) : res (list dict) :=
  match indices with
  | [] => Ok outs
  | index :: rest =>
      snap ← list_getitem snaps index;
      o ← list_getitem outs index;
      ingest_loop rest snaps (<[index := ingest snap o]> outs)
  end.

(** A key given as a Python value: the dictionaries here have string keys
    only, so any other key is missing. *)
Definition getitem_val (d : dict) (k : pyval) : res pyval :=
  match k with
  | VStr s => getitem d s
  | _ => Raise KeyError
  end.

Section Engine.

(** The two helpers imported from [TwitchChannelPointsMiner.utils], whose
    source is not part of this module.  [float_round] is the function the
    helper computes on the float it is given; [char_decision_as_index]
    turns the letter of a choice into the index of the outcome. *)
Variable float_round : Q -> Q.
Variable char_decision_as_index : pyval -> res nat.

Definition call_float_round (x : pyval) : res pyval :=
  q ← py_float x; Ok (VFloat (float_round q)).

(** The second loop of [update_outcomes], for one outcome. *)
Definition derive (total_users total_points : pyval) (o : dict) : res dict :=
  users ← getitem o TOTAL_USERS;
  x ← py_mul (VInt 100) users;
  x ← py_truediv x total_users;
  x ← call_float_round x;
  let o := <[PERCENTAGE_USERS := x]> o in
  pts ← getitem o TOTAL_POINTS;
  x ← py_truediv total_points pts;
  x ← call_float_round x;
  let o := <[ODDS := x]> o in
  odds ← getitem o ODDS;
  x ← py_truediv (VInt 100) odds;
  x ← call_float_round x;
  Ok (<[ODDS_PERCENTAGE := x]> o).

Fixpoint derive_loop (indices : list nat) (total_users total_points : pyval)
    (outs : list dict) : res (list dict) :=
  match indices with
  | [] => Ok outs
  | index :: rest =>
      o ← list_getitem outs index;
      o ← derive total_users total_points o;
      derive_loop rest total_users total_points (<[index := o]> outs)
  end.

(** The guard of the second loop; [and] evaluates from left to right and
    stops at the first false operand. *)
Definition guard (total_users : pyval) (outs : list dict) : res bool :=
  g ← py_gt total_users (VInt 0);
  if g : bool then
    o0 ← list_getitem outs 0%nat;
    p0 ← getitem o0 TOTAL_POINTS;
    g ← py_gt p0 (VInt 0);
    if g : bool then
      o1 ← list_getitem outs 1%nat;
      p1 ← getitem o1 TOTAL_POINTS;
      py_gt p1 (VInt 0)
    else Ok false
  else Ok false.

Definition update_outcomes (self : Bet) (snaps : list Snapshot) : res Bet :=
  let indices := seq 0 (length (outcomes self)) in
  outs ← ingest_loop indices snaps (outcomes self);
  o0 ← list_getitem outs 0%nat;
  u0 ← getitem o0 TOTAL_USERS;
  o1 ← list_getitem outs 1%nat;
  u1 ← getitem o1 TOTAL_USERS;
  users ← py_add u0 u1;
  p0 ← getitem o0 TOTAL_POINTS;
  p1 ← getitem o1 TOTAL_POINTS;
  pts ← py_add p0 p1;
  g ← guard users outs;
  outs ← (if g : bool then derive_loop indices users pts outs else Ok outs);
  Ok (mkBet (clear_outcomes outs) (decision self) users pts (settings self)).

(** [__return_choice] *)
Definition return_choice (self : Bet) (key : string) : res pyval :=
  o0 ← list_getitem (outcomes self) 0%nat;
  a ← getitem o0 key;
  o1 ← list_getitem (outcomes self) 1%nat;
  b ← getitem o1 key;
  g ← py_gt a b;
  Ok (VStr (if g : bool then "A" else "B")).

(** The key [skip] reads: a decision metric stands for the total of the
    same name. *)
Definition fixed_key (key : pyval) : pyval :=
  if py_eq key (VStr DECISION_USERS) || py_eq key (VStr DECISION_POINTS)
  then match key with
       | VStr k => VStr (str_replace k "decision" "total")
       | _ => key
       end
  else key.

Definition is_total_key (key : pyval) : bool :=
  py_eq key (VStr TOTAL_USERS) || py_eq key (VStr TOTAL_POINTS).

(** The comparison a condition stands for. *)
Definition satisfies (condition : option Condition) (x y : pyval) : res bool :=
  match condition with
  | Some GT => py_gt x y
  | Some LT => py_lt x y
  | Some GTE => py_ge x y
  | Some LTE => py_le x y
  | None => Ok false
  end.

(** [skip]: the pair of the verdict and of the compared value. *)
Definition skip (self : Bet) : res (bool * pyval) :=
  match filter_condition (settings self) with
  | Some fc =>
      let key := by_ fc in
      let condition := where_ fc in
      let value := value fc in
      let fixed := fixed_key key in
      compared_value ←
        (if is_total_key key then
           o0 ← list_getitem (outcomes self) 0%nat;
           a ← getitem_val o0 fixed;
           o1 ← list_getitem (outcomes self) 1%nat;
           b ← getitem_val o1 fixed;
           py_add a b
         else
           choice ← getitem (decision self) "choice";
           outcome_index ← char_decision_as_index choice;
           o ← list_getitem (outcomes self) outcome_index;
           getitem_val o fixed);
      holds ← satisfies condition compared_value value;
      Ok (negb holds, compared_value)
  | None => Ok (false, VInt 0)
  end.

(** The strategy step of [calculate]: no branch is taken when the strategy
    is [None], and the choice stays [None]. *)
Definition choose (self : Bet) : res pyval :=
  match strategy (settings self) with
  | Some MOST_VOTED => return_choice self TOTAL_USERS
  | Some HIGH_ODDS => return_choice self ODDS
  | Some PERCENTAGE => return_choice self ODDS_PERCENTAGE
  | Some SMART =>
      o0 ← list_getitem (outcomes self) 0%nat;
      a ← getitem o0 PERCENTAGE_USERS;
      o1 ← list_getitem (outcomes self) 1%nat;
      b ← getitem o1 PERCENTAGE_USERS;
      d ← py_sub a b;
      difference ← py_abs d;
      small ← py_lt difference (percentage_gap (settings self));
      if small : bool
      then return_choice self ODDS
      else return_choice self TOTAL_USERS
  | None => Ok VNone
  end.

(** The stake before the stealth adjustment:
    [min(int(balance * (percentage / 100)), max_points)]. *)
Definition stake (self : Bet) (balance : Z) : res pyval :=
  ratio ← py_truediv (percentage (settings self)) (VInt 100);
  x ← py_mul (VInt balance) ratio;
  n ← py_int x;
  py_min (VInt n) (max_points (settings self)).

(** The stealth adjustment; [reduce_amount] is the value drawn by
    [uniform(1, 5)]. *)
Definition stealth (self : Bet) (o : dict) (amount : pyval)
    (reduce_amount : Q) : res pyval :=
  match stealth_mode (settings self) with
  | Some true =>
      top ← getitem o TOP_POINTS;
      fire ← py_ge amount top;
      if fire : bool then
        top ← getitem o TOP_POINTS;
        py_sub top (VFloat reduce_amount)
      else Ok amount
  | _ => Ok amount
  end.

(** [calculate]: the state with the new decision. *)
Definition calculate (self : Bet) (balance : Z) (reduce_amount : Q) : res Bet :=
  choice ← choose self;
  dec ←
    match choice with
    | VNone =>
        Ok (<["choice" := VNone]> (<["amount" := VInt 0]> (<["id" := VNone]> ∅)))
    | _ =>
        index ← char_decision_as_index choice;
        o ← list_getitem (outcomes self) index;
        id ← getitem o "id";
        amount ← stake self balance;
        o ← list_getitem (outcomes self) index;
        amount ← stealth self o amount reduce_amount;
        amount ← py_int amount;
        Ok (<["choice" := choice]> (<["amount" := VInt amount]> (<["id" := id]> ∅)))
    end;
  Ok (mkBet (outcomes self) dec (total_users self) (total_points self)
        (settings self)).

End Engine.

(** ** Instances and inputs for the examples *)

(** The helpers as the examples below use them: the letter ["A"] is index 0
    and any other letter index 1; a float is rounded to two decimal places,
    ties to even. *)
Definition index_of_choice (c : pyval) : res nat :=
  Ok (if py_eq c (VStr "A") then 0%nat else 1%nat).

Definition round_2dp (q : Q) : Q :=
  Qmake (rne_div (Qnum q * 100) (Zpos (Qden q))) 100.

(** The dictionary of one outcome as the constructor receives it. *)
Definition raw_outcome (id title color : string) (users pts : Z) : dict :=
  <["id" := VStr id]>
    (<["title" := VStr title]>
      (<["color" := VStr color]>
        (<[TOTAL_USERS := VInt users]>
          (<[TOTAL_POINTS := VInt pts]> ∅)))).

(** Settings with every field given and no filter. *)
Definition plain_settings (s : Strategy) (pct gap cap : Z) (stealthy : bool)
    : BetSettings :=
  mkBetSettings (Some s) (VInt pct) (VInt gap) (VInt cap) (Some stealthy) None.

(** Two outcomes with the same number of users. *)
Definition tie_bet : Bet :=
  Bet_new [raw_outcome "o0" "yes" "BLUE" 10 1000;
           raw_outcome "o1" "no" "PINK" 10 9000]
    (plain_settings MOST_VOTED 5 20 50000 false).

(** A bet on which [update_outcomes] has not run yet. *)
Definition fresh_bet (s : Strategy) (pct : Z) (stealthy : bool) : Bet :=
  Bet_new [raw_outcome "o0" "yes" "BLUE" 0 0;
           raw_outcome "o1" "no" "PINK" 0 0]
    (plain_settings s pct 20 50000 stealthy).

(** The same bet with a filter on the odds of the chosen outcome. *)
Definition filtered_bet : Bet :=
  Bet_new [raw_outcome "o0" "yes" "BLUE" 0 0;
           raw_outcome "o1" "no" "PINK" 0 0]
    (mkBetSettings (Some MOST_VOTED) (VInt 5) (VInt 20) (VInt 50000)
       (Some false)
       (Some (mkFilterCondition (VStr ODDS) (Some GT) (VFloat (3 # 2))))).

(** Snapshots with 10 users and 1000 points on one side, 90 users and 9000
    points on the other, and some predictors on both. *)
Definition example_snapshots : list Snapshot :=
  [ mkSnapshot 10 1000 [mkPredictor 300; mkPredictor 4000; mkPredictor 5];
    mkSnapshot 90 9000 [mkPredictor 100; mkPredictor 2500] ].

(** The states reached from [filtered_bet] by [update_outcomes] on these
    snapshots and then by [calculate] with balance 100000. *)
Definition updated_bet : Bet :=
  Eval vm_compute in
    match update_outcomes round_2dp filtered_bet example_snapshots with
    | Ok b => b
    | Raise _ => filtered_bet
    end.

Definition decided_bet : Bet :=
  Eval vm_compute in
    match calculate index_of_choice updated_bet 100000 1 with
    | Ok b => b
    | Raise _ => updated_bet
    end.

(** The updated outcomes under settings with stealth mode on, and the
    state reached by [calculate] with balance 100000 and a draw of 1.5. *)
Definition stealth_bet : Bet :=
  mkBet (outcomes updated_bet) ∅ (VInt 100) (VInt 10000)
    (plain_settings HIGH_ODDS 5 20 50000 true).

Definition decided_stealth_bet : Bet :=
  Eval vm_compute in
    match calculate index_of_choice stealth_bet 100000 (3 # 2) with
    | Ok b => b
    | Raise _ => stealth_bet
    end.

(** The state reached from [tie_bet] by [calculate]. *)
Definition decided_tie_bet : Bet :=
  Eval vm_compute in
    match calculate index_of_choice tie_bet 100000 1 with
    | Ok b => b
    | Raise _ => tie_bet
    end.

(** The guard of [update_outcomes] in terms of the two snapshots. *)
Definition guard_holds (s0 s1 : Snapshot) : bool :=
  (0 <? snap_total_users s0 + snap_total_users s1)
  && (0 <? snap_total_points s0) && (0 <? snap_total_points s1).

(** The value of a field, [0] when the outcome does not have it. *)
Definition field_or_zero (o : dict) (k : string) : pyval :=
  match o !! k with
  | Some v => v
  | None => VInt 0
  end.

(** An outcome as the constructor and [update_outcomes] leave it: an
    integer number of users, an integer [top_points], numeric derived
    fields, all of a magnitude far inside the binary64 range, and an
    identifier. *)
Definition well_formed_outcome (o : dict) : Prop :=
  (exists u, o !! TOTAL_USERS = Some (VInt u)) /\
  (exists t, o !! TOP_POINTS = Some (VInt t) /\ Z.abs t <= 2 ^ 500) /\
  (forall k, k ∈ [PERCENTAGE_USERS; ODDS; ODDS_PERCENTAGE] ->
     exists v q, o !! k = Some v /\ num_val v = Some q /\
                 (Qabs q <= 2 ^ 500)%Q) /\
  is_Some (o !! "id").

(** What a condition requires of the compared value [x] against the
    threshold [v]. *)
Definition holds (c : Condition) (x v : Q) : Prop :=
  match c with
  | GT => (v < x)%Q
  | LT => (x < v)%Q
  | GTE => (v <= x)%Q
  | LTE => (x <= v)%Q
  end.

(** The value of a numeric field of an outcome. *)
Definition metric (o : dict) (key : string) : option Q :=
  o !! key ≫= num_val.

(** The decision fields of a result of [calculate]. *)
Definition choice_of (r : res Bet) : res pyval :=
  b ← r; getitem (decision b) "choice".

Definition amount_of (r : res Bet) : res pyval :=
  b ← r; getitem (decision b) "amount".

(** The integer [int(balance * (percentage / 100))] for integers [balance]
    and [percentage], when no operation overflows. *)
Definition b64_stake (balance pct : Z) : Z :=
  let x := b64 (b64 (inject_Z balance) * b64 (inject_Z pct / 100)) in
  Z.quot (Qnum x) (Zpos (Qden x)).

(** A run of [update_outcomes] over a sequence of snapshots. *)
Fixpoint after_updates (float_round : Q -> Q) (self : Bet)
    (history : list (list Snapshot)) : res Bet :=
  match history with
  | [] => Ok self
  | snaps :: rest =>
      self ← update_outcomes float_round self snaps;
      after_updates float_round self rest
  end.

(** The field of an outcome that a metric of a filter is read from: a
    decision metric is read from the total of the same name. *)
Definition resolved_key (key : string) : string :=
  if String.eqb key DECISION_USERS then TOTAL_USERS
  else if String.eqb key DECISION_POINTS then TOTAL_POINTS
  else key.

(** ** The structural form of [BetSettings]

    [to_dict] and [from_dict] of [BetSettings].  The dictionary holds the
    values above, a boolean (the stealth mode) and a dictionary (the
    structural form of the filter condition). *)

Inductive setting : Type :=
| Plain (v : pyval)
| Flag (b : bool)
| Nested (d : dict).

(** [strategy.name] *)
Definition Strategy_name (s : Strategy) : string :=
  match s with
  | MOST_VOTED => "MOST_VOTED"
  | HIGH_ODDS => "HIGH_ODDS"
  | PERCENTAGE => "PERCENTAGE"
  | SMART => "SMART"
  end.

(** [Strategy[name]]: the lookup of a name in the members of the class; an
    unknown name raises [KeyError], a dictionary cannot be looked up at
    all ([TypeError]). *)
Definition Strategy_getitem (name : setting) : res Strategy :=
  match name with
  | Plain (VStr "MOST_VOTED") => Ok MOST_VOTED
  | Plain (VStr "HIGH_ODDS") => Ok HIGH_ODDS
  | Plain (VStr "PERCENTAGE") => Ok PERCENTAGE
  | Plain (VStr "SMART") => Ok SMART
  | Nested _ => Raise TypeError
  | _ => Raise KeyError
  end.

(** [data[k]] on the dictionary of the settings. *)
Definition setting_getitem (data : gmap string setting) (k : string)
    : res setting :=
  match data !! k with
  | Some v => Ok v
  | None => Raise KeyError
  end.

(** The fields of the record [BetSettings] of this development hold a
    number, a string or [None] ([percentage], [percentage_gap],
    [max_points]) and a boolean or [None] ([stealth_mode]); [from_dict]
    stores whatever the dictionary holds, and [as_value] and [as_flag] say
    which entries these fields have a place for. *)
Definition as_value (x : setting) : option pyval :=
  match x with
  | Plain v => Some v
  | _ => None
  end.

Definition as_flag (x : setting) : option (option bool) :=
  match x with
  | Flag b => Some (Some b)
  | Plain VNone => Some None
  | _ => None
  end.

Module BetSettings_.
(** [self.strategy.name] fails on [None], and so does the [to_dict] of a
    filter condition without [where]. *)
Definition to_dict (self : BetSettings) : res (gmap string setting) :=
  match strategy self with
  | None => Raise AttributeError
  | Some s =>
      fc ← match filter_condition self with
           | None => Ok (Plain VNone)
           | Some fc => d ← FilterCondition_.to_dict fc; Ok (Nested d)
           end;
      Ok (<["strategy" := Plain (VStr (Strategy_name s))]>
          (<["percentage" := Plain (percentage self)]>
           (<["percentage_gap" := Plain (percentage_gap self)]>
            (<["max_points" := Plain (max_points self)]>
             (<["stealth_mode" :=
                  match stealth_mode self with
                  | Some b => Flag b
                  | None => Plain VNone
                  end]>
              (<["filter_condition" := fc]> ∅))))))
  end.

(** [from_dict]: the arguments of the constructor are evaluated in the
    order they are written.  The result is [Ok None] when the call
    returns settings that the record above has no place for. *)
Definition from_dict (data : gmap string setting)
    : res (option BetSettings) :=
  name ← setting_getitem data "strategy";
  s ← Strategy_getitem name;
  p ← setting_getitem data "percentage";
  g ← setting_getitem data "percentage_gap";
  m ← setting_getitem data "max_points";
  sm ← setting_getitem data "stealth_mode";
  f ← setting_getitem data "filter_condition";
  fc ← match f with
       | Plain VNone => Ok None
       | Nested d => c ← FilterCondition_.from_dict d; Ok (Some c)
       | _ => Raise TypeError
       end;
  Ok (p ← as_value p; g ← as_value g; m ← as_value m; sm ← as_flag sm;
      Some (mkBetSettings (Some s) p g m sm fc)).
End BetSettings_.

(** The keys of the fields that the second loop of [update_outcomes]
    recomputes. *)
Definition derived_keys : list string :=
  [ PERCENTAGE_USERS; ODDS; ODDS_PERCENTAGE ].

(** A bet with another decision. *)
Definition with_decision (self : Bet) (d : dict) : Bet :=
  mkBet (outcomes self) d (total_users self) (total_points self)
    (settings self).

(** The entry of a key [k] after [__clear_outcomes] and after the first
    loop of [update_outcomes], from the entry [x] before. *)
Definition cleared (k : string) (x : option pyval) : option pyval :=
  if decide (k ∈ kept_keys) then
    match x with
    | Some v => Some v
    | None => if decide (k ∈ zeroed_keys) then Some (VInt 0) else None
    end
  else None.

Definition ingested (snap : Snapshot) (k : string) (x : option pyval)
    : option pyval :=
  if decide (k = TOTAL_USERS) then Some (VInt (snap_total_users snap))
  else if decide (k = TOTAL_POINTS) then Some (VInt (snap_total_points snap))
  else if decide (k = TOP_POINTS) then
    match sorted_desc (top_predictors snap) with
    | [] => x
    | p :: _ => Some (VInt (points p))
    end
  else x.

(** Earlier snapshots for [filtered_bet], and the state they lead to. *)
Definition early_snapshots : list Snapshot :=
  [ mkSnapshot 3 700 [mkPredictor 9000]; mkSnapshot 1 50 [] ].

Definition early_bet : Bet :=
  Eval vm_compute in
    match update_outcomes round_2dp filtered_bet early_snapshots with
    | Ok b => b
    | Raise _ => filtered_bet
    end.

(** A bet with three outcomes. *)
Definition three_way_bet : Bet :=
  Bet_new [raw_outcome "o0" "one" "BLUE" 0 0;
           raw_outcome "o1" "two" "PINK" 0 0;
           raw_outcome "o2" "three" "GREEN" 0 0]
    (plain_settings MOST_VOTED 5 20 50000 false).

(** * Properties *)

(** ** Rounding to binary64 *)

Lemma rne_div_near a b : 0 < b -> 2 * Z.abs (rne_div a b * b - a) <= b.
Proof.
  intros Hb. unfold rne_div.
  pose proof (Z.div_mod a b ltac:(lia)) as Hdm.
  pose proof (Z.mod_pos_bound a b Hb) as Hm.
  destruct (Z.compare_spec (2 * (a mod b)) b) as [He|Hl|Hg];
    [destruct (Z.even (a / b))|..]; nia.
Qed.

Lemma rne_div_lower a b c : 0 < b -> c * b <= a -> c <= rne_div a b.
Proof.
  intros Hb Hc. unfold rne_div.
  pose proof (Z.div_mod a b ltac:(lia)) as Hdm.
  pose proof (Z.mod_pos_bound a b Hb) as Hm.
  assert (c <= a / b) by (apply Z.div_le_lower_bound; lia).
  destruct (2 * (a mod b) ?= b); [destruct (Z.even (a / b))|..]; lia.
Qed.

Lemma pow2_add x y : 0 <= x -> 0 <= y -> 2 ^ (x + y) = 2 ^ x * 2 ^ y.
Proof. intros. apply Z.pow_add_r; lia. Qed.

Lemma pow2_gt0 x : 0 <= x -> 0 < 2 ^ x.
Proof. intros. apply Z.pow_pos_nonneg; lia. Qed.

Lemma ilog2_spec n d :
  0 < n -> 0 < d ->
  d * 2 ^ Z.max 0 (ilog2 n d) <= n * 2 ^ Z.max 0 (- ilog2 n d) /\
  n * 2 ^ Z.max 0 (- (ilog2 n d + 1)) < d * 2 ^ Z.max 0 (ilog2 n d + 1).
Proof.
  intros Hn Hd. unfold ilog2.
  pose proof (Z.log2_spec n Hn) as [Hn1 Hn2].
  pose proof (Z.log2_spec d Hd) as [Hd1 Hd2].
  pose proof (Z.log2_nonneg n). pose proof (Z.log2_nonneg d).
  set (ln := Z.log2 n) in *. set (ld := Z.log2 d) in *.
  rewrite Z.pow_succ_r in Hn2, Hd2 by lia.
  destruct (Z.ltb_spec (n * 2 ^ Z.max 0 (- (ln - ld))) (d * 2 ^ Z.max 0 (ln - ld))) as [Hlt|Hge].
  - split.
    + destruct (Z.le_gt_cases 1 (ln - ld)) as [Hc|Hc].
      * rewrite (Z.max_r 0 (ln - ld - 1)), (Z.max_l 0 (- (ln - ld - 1))) by lia.
        pose proof (pow2_gt0 (ln - ld - 1) ltac:(lia)).
        assert (2 ^ ln = 2 ^ ld * (2 * 2 ^ (ln - ld - 1))) as E.
        { rewrite <- Z.pow_succ_r, <- pow2_add by lia. f_equal. lia. }
        simpl. nia.
      * rewrite (Z.max_l 0 (ln - ld - 1)), (Z.max_r 0 (- (ln - ld - 1))) by lia.
        pose proof (pow2_gt0 (- (ln - ld - 1)) ltac:(lia)).
        assert (2 * 2 ^ ld = 2 ^ ln * 2 ^ (- (ln - ld - 1))) as E.
        { rewrite <- Z.pow_succ_r, <- pow2_add by lia. f_equal. lia. }
        simpl. nia.
    + replace (ln - ld - 1 + 1) with (ln - ld) by lia. lia.
  - split; [lia|].
    destruct (Z.le_gt_cases 0 (ln - ld + 1)) as [Hc|Hc].
    + rewrite (Z.max_r 0 (ln - ld + 1)), (Z.max_l 0 (- (ln - ld + 1))) by lia.
      pose proof (pow2_gt0 (ln - ld + 1) ltac:(lia)).
      assert (2 * 2 ^ ln = 2 ^ ld * 2 ^ (ln - ld + 1)) as E.
      { rewrite <- Z.pow_succ_r, <- pow2_add by lia. f_equal. lia. }
      simpl. nia.
    + rewrite (Z.max_l 0 (ln - ld + 1)), (Z.max_r 0 (- (ln - ld + 1))) by lia.
      pose proof (pow2_gt0 (- (ln - ld + 1)) ltac:(lia)).
      assert (2 ^ ld = 2 * 2 ^ ln * 2 ^ (- (ln - ld + 1))) as E.
      { rewrite <- Z.pow_succ_r, <- pow2_add by lia. f_equal. lia. }
      simpl. nia.
Qed.

Local Open Scope Q_scope.

Lemma Qpow2_pos k : 0 < 2 ^ k.
Proof. apply Qpower_0_lt. reflexivity. Qed.

Lemma Qpow2_add a b : 2 ^ (a + b) == 2 ^ a * 2 ^ b.
Proof. apply Qpower_plus. discriminate. Qed.

Lemma Qpow2_le a b : (a <= b)%Z -> 2 ^ a <= 2 ^ b.
Proof. intros. apply Qpower_le_compat_l; [lia|]. discriminate. Qed.

Lemma Qpow2_inject k : (0 <= k)%Z -> inject_Z (2 ^ k) == 2 ^ k.
Proof. intros. apply (Zpower_Qpower 2 k). lia. Qed.

Lemma scale2_eq m k : scale2 m k == inject_Z m * 2 ^ k.
Proof.
  unfold scale2. destruct (Z.le_gt_cases 0 k) as [Hk|Hk].
  - rewrite (Z.max_r 0 k), (Z.max_l 0 (- k)) by lia. simpl.
    change (m * 2 ^ k # 1) with (inject_Z (m * 2 ^ k)).
    rewrite inject_Z_mult, Qpow2_inject by lia. reflexivity.
  - rewrite (Z.max_l 0 k), (Z.max_r 0 (- k)) by lia.
    rewrite Z.pow_0_r, Z.mul_1_r.
    pose proof (pow2_gt0 (- k) ltac:(lia)) as Hp.
    rewrite Qmake_Qdiv, Z2Pos.id by lia.
    rewrite Qpow2_inject by lia.
    assert (2 ^ k == / 2 ^ (- k)) as ->.
    { rewrite <- Qpower_opp, Z.opp_involutive. reflexivity. }
    reflexivity.
Qed.

Lemma rne_div_Q a b :
  (0 < b)%Z -> Qabs (inject_Z (rne_div a b) - inject_Z a / inject_Z b) <= 1 # 2.
Proof.
  intros Hb. pose proof (rne_div_near a b Hb) as H.
  set (m := rne_div a b) in *.
  destruct b as [|p|p]; try lia.
  apply Qabs_Qle_condition.
  unfold Qle, Qminus, Qplus, Qopp, Qdiv, Qmult, Qinv, inject_Z; simpl.
  rewrite ?Pos2Z.inj_mul, ?Pos.mul_1_l, ?Pos.mul_1_r, ?Z.mul_1_r. 
  split; lia.
Qed.

Lemma Qnum_0_iff q : Qnum q = 0%Z <-> q == 0.
Proof. unfold Qeq. simpl. lia. Qed.

Lemma Qpow2_split k :
  2 ^ k == inject_Z (2 ^ Z.max 0 k) / inject_Z (2 ^ Z.max 0 (- k)).
Proof.
  rewrite <- (Qmult_1_l (2 ^ k)). change 1 with (inject_Z 1).
  rewrite <- scale2_eq. unfold scale2. rewrite Z.mul_1_l, Qmake_Qdiv.
  rewrite Z2Pos.id by (apply pow2_gt0; lia). reflexivity.
Qed.

Lemma ilog2_Q q :
  ~ q == 0 ->
  2 ^ ilog2 (Z.abs (Qnum q)) (Zpos (Qden q)) <= Qabs q /\
  Qabs q < 2 ^ (ilog2 (Z.abs (Qnum q)) (Zpos (Qden q)) + 1).
Proof.
  intros Hq. destruct q as [n d]. simpl.
  assert (0 < Z.abs n)%Z as Hn by (rewrite <- Qnum_0_iff in Hq; simpl in Hq; lia).
  destruct (ilog2_spec (Z.abs n) (Zpos d) Hn ltac:(lia)) as [H1 H2].
  set (e := ilog2 (Z.abs n) (Z.pos d)) in *.
  split.
  - rewrite <- (Qmult_1_l (2 ^ e)). change 1 with (inject_Z 1).
    rewrite <- scale2_eq. unfold scale2, Qle, Qabs. simpl Qnum. simpl Qden.
    rewrite Z2Pos.id by (apply pow2_gt0; lia). lia.
  - rewrite <- (Qmult_1_l (2 ^ (e + 1))). change 1 with (inject_Z 1).
    rewrite <- scale2_eq. unfold scale2, Qlt, Qabs. simpl Qnum. simpl Qden.
    rewrite Z2Pos.id by (apply pow2_gt0; lia). lia.
Qed.

Lemma b64_zero q : q == 0 -> b64 q = 0.
Proof. intros H. unfold b64. apply Qnum_0_iff in H. rewrite H. reflexivity. Qed.

Lemma b64_eq q : ~ q == 0 -> b64 q == inject_Z (b64_mant q) * 2 ^ b64_exp q.
Proof.
  intros H. unfold b64. rewrite <- Qnum_0_iff in H.
  destruct (Z.eqb_spec (Qnum q) 0); [contradiction|].
  rewrite Qred_correct. apply scale2_eq.
Qed.

Lemma b64_mant_Q q :
  Qabs (inject_Z (b64_mant q) - q / 2 ^ b64_exp q) <= 1 # 2.
Proof.
  unfold b64_mant. set (k := b64_exp q).
  pose proof (pow2_gt0 (Z.max 0 k) ltac:(lia)) as Hp.
  pose proof (pow2_gt0 (Z.max 0 (- k)) ltac:(lia)) as Hn.
  assert (q / 2 ^ k ==
          inject_Z (Qnum q * 2 ^ Z.max 0 (- k)) /
          inject_Z (Z.pos (Qden q) * 2 ^ Z.max 0 k)) as ->.
  { rewrite (Qpow2_split k), !inject_Z_mult.
    destruct q as [n d]; simpl Qnum; simpl Qden.
    rewrite (Qmake_Qdiv n d).
    field. repeat split; intros E;
      match type of E with inject_Z ?x == 0 => apply (inject_Z_injective x 0) in E; lia end. }
  apply rne_div_Q. lia.
Qed.

Lemma b64_err q : Qabs (b64 q - q) <= 2 ^ b64_exp q * (1 # 2).
Proof.
  destruct (Qeq_dec q 0) as [Hz|Hz].
  - rewrite (b64_zero q Hz).
    assert (Qabs (0 - q) == 0) as -> by (rewrite Hz; reflexivity).
    apply Qmult_le_0_compat; [apply Qlt_le_weak, Qpow2_pos|discriminate].
  - rewrite (b64_eq q Hz). set (k := b64_exp q). set (m := b64_mant q).
    assert (inject_Z m * 2 ^ k - q == 2 ^ k * (inject_Z m - q / 2 ^ k)) as ->.
    { field. pose proof (Qpow2_pos k). intros E. rewrite E in H. discriminate. }
    rewrite Qabs_Qmult, (Qabs_pos (2 ^ k)) by apply Qlt_le_weak, Qpow2_pos.
    apply Qmult_le_l; [apply Qpow2_pos|]. apply b64_mant_Q.
Qed.

Lemma Qpow2_lt_inv a b : 2 ^ a < 2 ^ b -> (a < b)%Z.
Proof. intros H. apply (Qpower_lt_compat_l_inv 2); [exact H|reflexivity]. Qed.

Lemma Qpow2_le_inv a b : 2 ^ a <= 2 ^ b -> (a <= b)%Z.
Proof. intros H. apply (Qpower_le_compat_l_inv 2); [exact H|reflexivity]. Qed.

Lemma b64_exp_le q n :
  (0 <= n)%Z -> Qabs q <= 2 ^ n -> (b64_exp q <= n - 52)%Z.
Proof.
  intros Hn Hq. unfold b64_exp.
  destruct (Qeq_dec q 0) as [Hz|Hz].
  - apply Qnum_0_iff in Hz. rewrite Hz. change (Z.abs 0) with 0%Z.
    assert (ilog2 0 (Z.pos (Qden q)) <= 0)%Z; [|lia].
    unfold ilog2. change (Z.log2 0) with 0%Z.
    pose proof (Z.log2_nonneg (Z.pos (Qden q))).
    cbv zeta. destruct (_ <? _)%Z; lia.
  - destruct (ilog2_Q q Hz) as [H1 _].
    assert (ilog2 (Z.abs (Qnum q)) (Z.pos (Qden q)) <= n)%Z; [|lia].
    apply Qpow2_le_inv. eapply Qle_trans; eassumption.
Qed.

Lemma b64_exp_normal q :
  2 ^ (-1022) <= Qabs q -> 2 ^ (b64_exp q + 52) <= Qabs q.
Proof.
  intros Hq.
  assert (~ q == 0) as Hz.
  { intros E. rewrite E in Hq. unfold Qle in Hq. simpl in Hq. lia. }
  destruct (ilog2_Q q Hz) as [H1 H2]. unfold b64_exp.
  set (e := ilog2 (Z.abs (Qnum q)) (Z.pos (Qden q))) in *.
  assert (-1022 < e + 1)%Z.
  { apply Qpow2_lt_inv. eapply Qle_lt_trans; [|exact H2]. exact Hq. }
  rewrite Z.max_l by lia. replace (e - 52 + 52)%Z with e by lia.
  exact H1.
Qed.

(** The error of one rounding: absolute, for a bounded argument, and
    relative, for an argument of magnitude one or more. *)
Lemma b64_err_abs q n :
  (0 <= n)%Z -> Qabs q <= 2 ^ n -> Qabs (b64 q - q) <= 2 ^ (n - 53).
Proof.
  intros Hn Hq. eapply Qle_trans; [apply b64_err|].
  pose proof (b64_exp_le q n Hn Hq) as Hk.
  assert ((1 # 2) == 2 ^ (-1)) as -> by reflexivity.
  rewrite <- Qpow2_add. apply Qpow2_le. lia.
Qed.

Lemma b64_err_rel q :
  2 ^ (-1022) <= Qabs q -> Qabs (b64 q - q) <= Qabs q * 2 ^ (-53).
Proof.
  intros Hq. eapply Qle_trans; [apply b64_err|].
  pose proof (b64_exp_normal q Hq) as Hle.
  assert (2 ^ b64_exp q * (1 # 2) == 2 ^ (b64_exp q + 52) * 2 ^ (-53)) as ->.
  { assert ((1 # 2) == 2 ^ (-1)) as -> by reflexivity.
    rewrite <- !Qpow2_add. replace (b64_exp q + 52 + -53)%Z with (b64_exp q + -1)%Z by lia.
    reflexivity. }
  apply Qmult_le_r; [apply Qpow2_pos|exact Hle].
Qed.

Lemma b64_mant_nonneg q : 0 <= q -> (0 <= b64_mant q)%Z.
Proof.
  intros Hq. unfold b64_mant. apply rne_div_lower.
  - pose proof (pow2_gt0 (Z.max 0 (b64_exp q)) ltac:(lia)). lia.
  - pose proof (pow2_gt0 (Z.max 0 (- b64_exp q)) ltac:(lia)).
    unfold Qle in Hq. simpl in Hq. nia.
Qed.

Lemma b64_nonneg q : 0 <= q -> 0 <= b64 q.
Proof.
  intros Hq. destruct (Qeq_dec q 0) as [Hz|Hz].
  - rewrite (b64_zero q Hz). apply Qle_refl.
  - rewrite (b64_eq q Hz). apply Qmult_le_0_compat.
    + change 0 with (inject_Z 0). rewrite <- Zle_Qle. apply b64_mant_nonneg, Hq.
    + apply Qlt_le_weak, Qpow2_pos.
Qed.

(** Rounding does not cross a small integer: an integer of at most 53 bits
    that is below [q] is below the rounded [q] too. *)
Lemma b64_ge_int c q :
  (0 <= c <= 2 ^ 53)%Z -> inject_Z c <= q -> inject_Z c <= b64 q.
Proof.
  intros Hc Hq.
  destruct (Z.eq_dec c 0%Z) as [->|Hc0].
  { apply b64_nonneg. exact Hq. }
  assert (1 <= q) as Hq1.
  { eapply Qle_trans; [|exact Hq]. change 1 with (inject_Z 1).
    rewrite <- Zle_Qle. lia. }
  assert (0 <= q) as Hq0 by (eapply Qle_trans; [|exact Hq1]; discriminate).
  assert (~ q == 0) as Hz.
  { intros E. rewrite E in Hq1. unfold Qle in Hq1. simpl in Hq1. lia. }
  rewrite (b64_eq q Hz).
  assert (2 ^ (b64_exp q + 52) <= q) as Hle.
  { assert (Qabs q == q) as Ea by (apply Qabs_pos; exact Hq0).
    eapply Qle_trans; [apply b64_exp_normal|rewrite Ea; apply Qle_refl].
    rewrite Ea. eapply Qle_trans; [|exact Hq1]. unfold Qle. simpl. lia. }
  unfold b64_mant. set (k := b64_exp q) in *.
  destruct q as [n d]. simpl Qnum. simpl Qden.
  unfold Qle in Hq. simpl in Hq.
  destruct (Z.le_gt_cases k 0%Z) as [Hk0|Hk0].
  - rewrite (Z.max_r 0 (- k)), (Z.max_l 0 k) by lia.
    pose proof (pow2_gt0 (- k) ltac:(lia)) as Hp.
    assert (c * 2 ^ (- k) <= rne_div (n * 2 ^ (- k)) (Z.pos d * 2 ^ 0))%Z as Hm.
    { apply rne_div_lower; [simpl; lia|]. simpl (2 ^ 0)%Z. nia. }
    apply (Qle_trans _ (inject_Z (c * 2 ^ (- k)) * 2 ^ k)).
    + rewrite inject_Z_mult, Qpow2_inject by lia.
      rewrite <- Qmult_assoc, <- Qpow2_add.
      replace (- k + k)%Z with 0%Z by lia. rewrite Qmult_1_r. apply Qle_refl.
    + apply Qmult_le_r; [apply Qpow2_pos|]. rewrite <- Zle_Qle. exact Hm.
  - rewrite (Z.max_l 0 (- k)), (Z.max_r 0 k) by lia.
    pose proof (pow2_gt0 k ltac:(lia)) as Hp.
    rewrite <- Qpow2_inject in Hle by lia.
    unfold Qle in Hle. simpl in Hle.
    rewrite (pow2_add k 52) in Hle by lia.
    assert (2 ^ 52 <= rne_div (n * 2 ^ 0) (Z.pos d * 2 ^ k))%Z as Hm.
    { apply rne_div_lower; [lia|]. simpl (2 ^ 0)%Z. lia. }
    apply (Qle_trans _ (inject_Z (2 ^ 52) * 2 ^ k)).
    + rewrite <- Qpow2_inject by lia. rewrite <- inject_Z_mult, <- Zle_Qle.
      assert (2 <= 2 ^ k)%Z by (change 2%Z with (2 ^ 1)%Z at 1; apply Z.pow_le_mono_r; lia).
      change (2 ^ 53)%Z with (2 ^ 52 * 2)%Z in Hc. nia.
    + apply Qmult_le_r; [apply Qpow2_pos|]. rewrite <- Zle_Qle. exact Hm.
Qed.

Lemma b64_finite q : Qabs q <= 2 ^ 1023 -> b64_overflows q = false.
Proof.
  intros Hq. unfold b64_overflows.
  destruct (Qle_bool _ _) eqn:E; [|reflexivity].
  apply Qle_bool_iff in E.
  pose proof (b64_err_abs q 1023 ltac:(lia) Hq) as He.
  assert (Qabs (b64 q) <= Qabs q + Qabs (b64 q - q)) as Ht.
  { assert (b64 q == q + (b64 q - q)) as Eq by ring.
    rewrite Eq at 1. apply Qabs_triangle. }
  assert (2 ^ 1023 + 2 ^ (1023 - 53) < inject_Z (2 ^ 1024)) as Hlt by reflexivity.
  exfalso. apply (Qlt_irrefl (inject_Z (2 ^ 1024))).
  eapply Qle_lt_trans; [exact E|]. eapply Qle_lt_trans; [exact Ht|].
  eapply Qle_lt_trans; [|exact Hlt]. apply Qplus_le_compat; assumption.
Qed.

Lemma b64_abs_bound q n :
  (0 <= n)%Z -> Qabs q <= 2 ^ n -> Qabs (b64 q) <= 2 ^ (n + 1).
Proof.
  intros Hn Hq.
  pose proof (b64_err_abs q n Hn Hq) as He.
  assert (Qabs (b64 q) <= Qabs q + Qabs (b64 q - q)) as Ht.
  { assert (b64 q == q + (b64 q - q)) as Eq by ring.
    rewrite Eq at 1. apply Qabs_triangle. }
  eapply Qle_trans; [exact Ht|].
  apply (Qle_trans _ (2 ^ n + 2 ^ n)).
  - apply Qplus_le_compat; [exact Hq|].
    eapply Qle_trans; [exact He|]. apply Qpow2_le. lia.
  - rewrite Qpow2_add. assert (2 ^ 1 == 2) as -> by reflexivity.
    assert (2 ^ n + 2 ^ n == 2 ^ n * 2) as -> by ring. apply Qle_refl.
Qed.

Lemma inject_abs_le_pow2 z n :
  (0 <= n)%Z -> (Z.abs z <= 2 ^ n)%Z -> Qabs (inject_Z z) <= 2 ^ n.
Proof.
  intros Hn Hz. rewrite <- Qpow2_inject by lia.
  change (Qabs (inject_Z z)) with (inject_Z (Z.abs z)).
  rewrite <- Zle_Qle. exact Hz.
Qed.

Lemma Qmult_le_nonneg_l a x y : 0 <= a -> x <= y -> a * x <= a * y.
Proof. intros. nra. Qed.

(** The relative error of one rounding, as a two-sided bound. *)
Lemma b64_rel_bounds q :
  0 <= q -> q == 0 \/ 2 ^ (-1022) <= q ->
  q * (1 - unit_roundoff) <= b64 q /\ b64 q <= q * (1 + unit_roundoff).
Proof.
  intros Hq [Hz|Hn].
  - rewrite (b64_zero q Hz).
    assert (q * (1 - unit_roundoff) == 0) as -> by (rewrite Hz; reflexivity).
    assert (q * (1 + unit_roundoff) == 0) as -> by (rewrite Hz; reflexivity).
    split; apply Qle_refl.
  - assert (Qabs q == q) as Ea by (apply Qabs_pos; exact Hq).
    assert (2 ^ (-1022) <= Qabs q) as Hn' by (rewrite Ea; exact Hn).
    pose proof (b64_err_rel q Hn') as He.
    assert (2 ^ (-53) == unit_roundoff) as Eu by reflexivity.
    rewrite Ea, Eu in He. apply Qabs_Qle_condition in He.
    destruct He as [He1 He2]. split; lra.
Qed.

(** The three roundings of [balance * (percentage / 100)] together. *)
Lemma b64_product_error (b rho : Q) :
  b == 0 \/ 1 <= b -> rho == 0 \/ (1 # 100) <= rho ->
  let x := b64 (b64 b * b64 rho) in
  0 <= x /\
  b * rho * (1 - 4 * unit_roundoff) <= x /\ x <= b * rho * (1 + 4 * unit_roundoff).
Proof.
  intros Hb Hr x.
  assert (0 <= b) as Hb0 by (destruct Hb as [->|Hb]; lra).
  assert (0 <= rho) as Hr0 by (destruct Hr as [->|Hr]; lra).
  assert (0 < unit_roundoff /\ unit_roundoff < 1 # 1000) as [Hu0 Hu1] by (split; reflexivity).
  destruct (b64_rel_bounds b Hb0) as [HB1 HB2].
  { destruct Hb as [Hb|Hb]; [left; exact Hb|right].
    eapply Qle_trans; [|exact Hb]. unfold Qle. simpl. lia. }
  destruct (b64_rel_bounds rho Hr0) as [HR1 HR2].
  { destruct Hr as [Hr|Hr]; [left; exact Hr|right].
    eapply Qle_trans; [|exact Hr]. unfold Qle. simpl. lia. }
  pose proof (b64_nonneg b Hb0) as HB0. pose proof (b64_nonneg rho Hr0) as HR0.
  set (B := b64 b) in *. set (R := b64 rho) in *.
  assert (0 <= B * R) as HBR0 by (apply Qmult_le_0_compat; assumption).
  destruct (b64_rel_bounds (B * R) HBR0) as [HX1 HX2].
  { destruct Hb as [Hb|Hb].
    { left. unfold B. rewrite (b64_zero b Hb). ring. }
    destruct Hr as [Hr|Hr].
    { left. unfold R. rewrite (b64_zero rho Hr). ring. }
    right.
    assert (1 <= B) as HB.
    { apply (b64_ge_int 1 b); [lia|exact Hb]. }
    assert ((1 # 200) <= R) as HR by nra.
    apply (Qle_trans _ (1 # 200)); [unfold Qle; simpl; lia|]. nra. }
  fold x in HX1, HX2. pose proof (b64_nonneg (B * R) HBR0) as Hx0. fold x in Hx0.
  split; [exact Hx0|].
  assert (b * rho * ((1 - unit_roundoff) * (1 - unit_roundoff)) <= B * R) as L2.
  { assert (b * rho * ((1 - unit_roundoff) * (1 - unit_roundoff)) ==
            b * (1 - unit_roundoff) * (rho * (1 - unit_roundoff))) as -> by ring.
    apply Qmult_le_compat_nonneg; split; try assumption; nra. }
  assert (B * R <= b * rho * ((1 + unit_roundoff) * (1 + unit_roundoff))) as U2.
  { assert (b * rho * ((1 + unit_roundoff) * (1 + unit_roundoff)) ==
            b * (1 + unit_roundoff) * (rho * (1 + unit_roundoff))) as -> by ring.
    apply Qmult_le_compat_nonneg; split; assumption. }
  assert (0 <= b * rho) as Hbr by (apply Qmult_le_0_compat; assumption).
  assert ((1 + unit_roundoff) * (1 + unit_roundoff) * (1 + unit_roundoff) <= 1 + 4 * unit_roundoff) as C1 by (vm_compute; discriminate).
  assert (1 - 4 * unit_roundoff <= (1 - unit_roundoff) * (1 - unit_roundoff) * (1 - unit_roundoff)) as C2 by (vm_compute; discriminate).
  split.
  - apply (Qle_trans _ (b * rho * ((1 - unit_roundoff) * (1 - unit_roundoff) * (1 - unit_roundoff)))).
    + apply Qmult_le_nonneg_l; assumption.
    + apply (Qle_trans _ (B * R * (1 - unit_roundoff))); [|exact HX1].
      assert (b * rho * ((1 - unit_roundoff) * (1 - unit_roundoff) * (1 - unit_roundoff)) ==
              b * rho * ((1 - unit_roundoff) * (1 - unit_roundoff)) * (1 - unit_roundoff)) as -> by ring.
      apply Qmult_le_compat_r; [exact L2|lra].
  - apply (Qle_trans _ (b * rho * ((1 + unit_roundoff) * (1 + unit_roundoff) * (1 + unit_roundoff)))).
    + apply (Qle_trans _ (B * R * (1 + unit_roundoff))); [exact HX2|].
      assert (b * rho * ((1 + unit_roundoff) * (1 + unit_roundoff) * (1 + unit_roundoff)) ==
              b * rho * ((1 + unit_roundoff) * (1 + unit_roundoff)) * (1 + unit_roundoff)) as -> by ring.
      apply Qmult_le_compat_r; [exact U2|lra].
    + apply Qmult_le_nonneg_l; assumption.
Qed.

(** The integer the stake is truncated to is the exact [floor] of
    [balance * percentage / 100] or one less. *)
Lemma b64_stake_floor balance p :
  (0 <= balance)%Z -> (0 <= p)%Z -> (balance * p <= 100 * 2 ^ 44)%Z ->
  (balance * p / 100 - 1 <= b64_stake balance p <= balance * p / 100)%Z.
Proof.
  intros Hb Hp Hbound. unfold b64_stake.
  destruct (b64_product_error (inject_Z balance) (inject_Z p / 100))
    as (Hx0 & Hlo & Hhi).
  { destruct (Z.eq_dec balance 0%Z) as [->|Hne]; [left; reflexivity|right].
    change 1 with (inject_Z 1). rewrite <- Zle_Qle. lia. }
  { destruct (Z.eq_dec p 0%Z) as [->|Hne]; [left; reflexivity|right].
    assert (1 <= inject_Z p) by (change 1 with (inject_Z 1); rewrite <- Zle_Qle; lia).
    apply Qle_shift_div_l; [reflexivity|]. lra. }
  set (x := b64 (b64 (inject_Z balance) * b64 (inject_Z p / 100))) in *.
  assert (Z.quot (Qnum x) (Z.pos (Qden x)) = Qfloor x) as ->.
  { destruct x as [n d]. simpl. apply Z.quot_div_nonneg; [|lia].
    unfold Qle in Hx0. simpl in Hx0. lia. }
  set (j := (balance * p)%Z) in *.
  assert (inject_Z balance * (inject_Z p / 100) == inject_Z j * (1 # 100)) as Ej.
  { unfold j. rewrite inject_Z_mult. field. }
  rewrite Ej in Hlo, Hhi.
  pose proof (Z.div_mod j 100 ltac:(lia)) as Hdm.
  pose proof (Z.mod_pos_bound j 100 ltac:(lia)) as Hmod.
  set (F := (j / 100)%Z) in *. set (rm := (j mod 100)%Z) in *.
  assert (inject_Z j == 100 * inject_Z F + inject_Z rm) as Ejq.
  { rewrite Hdm, inject_Z_plus, inject_Z_mult. reflexivity. }
  assert (0 <= inject_Z rm <= 99) as [Hr0 Hr1].
  { split; [change 0 with (inject_Z 0)|change 99 with (inject_Z 99)];
      rewrite <- Zle_Qle; lia. }
  assert (0 <= inject_Z j <= 1759218604441600) as [Hj0 Hj1].
  { split; [change 0 with (inject_Z 0)|change 1759218604441600 with (inject_Z (100 * 2 ^ 44))];
      rewrite <- Zle_Qle; unfold j; nia. }
  unfold unit_roundoff in Hlo, Hhi.
  split.
  - rewrite <- (Qfloor_Z (F - 1)). apply Qfloor_resp_le.
    unfold Z.sub. rewrite inject_Z_plus, inject_Z_opp. change (inject_Z 1) with 1.
    clearbody x. lra.
  - assert (Qfloor x < F + 1)%Z; [|lia].
    rewrite Zlt_Qlt. eapply Qle_lt_trans; [apply Qfloor_le|].
    rewrite inject_Z_plus. change (inject_Z 1) with 1. clearbody x. lra.
Qed.

(** [b64] against the Standard Library's specification of binary64
    ([SFdiv], [SFmul], [SFsub] at precision 53 and exponent bound 1024) on
    the operations of this module: quotients by 100, products with a
    balance, an odds quotient, a stealth subtraction, and quotients in the
    subnormal range. *)
Lemma b64_agrees_with_SpecFloat :
  SF2Q (SFdiv 53 1024 (Z2SF 29) (Z2SF 100)) = Some (b64 (29 # 100)) /\
  SF2Q (SFmul 53 1024 (Z2SF 100) (SFdiv 53 1024 (Z2SF 29) (Z2SF 100)))
    = Some (b64 (b64 100 * b64 (29 # 100))) /\
  SF2Q (SFmul 53 1024 (Z2SF 100000) (SFdiv 53 1024 (Z2SF 5) (Z2SF 100)))
    = Some (b64 (b64 100000 * b64 (5 # 100))) /\
  SF2Q (SFdiv 53 1024 (Z2SF 10000) (Z2SF 9000)) = Some (b64 (10000 # 9000)) /\
  SF2Q (SFdiv 53 1024 (Z2SF (-7)) (Z2SF 3)) = Some (b64 (-7 # 3)) /\
  SF2Q (SFsub 53 1024 (Z2SF 4000) (SFdiv 53 1024 (Z2SF 3) (Z2SF 2)))
    = Some (b64 (b64 4000 - (3 # 2))) /\
  SF2Q (Z2SF (2 ^ 53 + 1)) = Some (b64 (inject_Z (2 ^ 53 + 1))) /\
  SF2Q (Z2SF (2 ^ 53 + 3)) = Some (b64 (inject_Z (2 ^ 53 + 3))) /\
  SF2Q (SFdiv 53 1024 (SFdiv 53 1024 (Z2SF 1) (Z2SF (3 * 2 ^ 500)))
          (Z2SF (2 ^ 550)))
    = Some (b64 (b64 (1 / inject_Z (3 * 2 ^ 500)) / inject_Z (2 ^ 550))) /\
  SF2Q (SFdiv 53 1024 (SFdiv 53 1024 (Z2SF 1) (Z2SF (3 * 2 ^ 500)))
          (Z2SF (2 ^ 574)))
    = Some (b64 (b64 (1 / inject_Z (3 * 2 ^ 500)) / inject_Z (2 ^ 574))) /\
  Z2SF (2 ^ 1024 - 2 ^ 970) = S754_infinity false /\
  b64_overflows (inject_Z (2 ^ 1024 - 2 ^ 970)) = true /\
  b64_overflows (inject_Z (2 ^ 1024 - 2 ^ 970 - 1)) = false.
Proof. vm_compute. repeat split. Qed.

Local Close Scope Q_scope.

(** ** Python operations on numbers *)

Lemma Qcompare_inject a b : (inject_Z a ?= inject_Z b)%Q = (a ?= b).
Proof. unfold Qcompare. simpl. rewrite !Z.mul_1_r. reflexivity. Qed.

Lemma py_cmp_num x y a b :
  num_val x = Some a -> num_val y = Some b -> py_cmp x y = Ok (a ?= b)%Q.
Proof. intros Hx Hy. unfold py_cmp. rewrite Hx, Hy. reflexivity. Qed.

Lemma py_gt_num x y a b g :
  num_val x = Some a -> num_val y = Some b -> py_gt x y = Ok g ->
  (g = true <-> (b < a)%Q).
Proof.
  intros Hx Hy. unfold py_gt. rewrite (py_cmp_num x y a b Hx Hy). simpl.
  intros [= <-]. rewrite (Qgt_alt a b).
  destruct (a ?= b)%Q; split; congruence.
Qed.

Lemma py_gt_int a b : py_gt (VInt a) (VInt b) = Ok (b <? a).
Proof.
  unfold py_gt, py_cmp. simpl. rewrite Qcompare_inject.
  rewrite (Z.ltb_compare b a), (Z.compare_antisym b a).
  destruct (b ?= a); reflexivity.
Qed.

Lemma py_ge_int a b : py_ge (VInt a) (VInt b) = Ok (b <=? a).
Proof.
  unfold py_ge, py_cmp. simpl. rewrite Qcompare_inject.
  rewrite (Z.leb_compare b a), (Z.compare_antisym b a).
  destruct (b ?= a); reflexivity.
Qed.

Lemma b64_res_finite q : (Qabs q <= 2 ^ 1023)%Q -> b64_res q = Ok (b64 q).
Proof. intros H. unfold b64_res. rewrite (b64_finite q H). reflexivity. Qed.

Lemma py_float_int z :
  (Qabs (inject_Z z) <= 2 ^ 1023)%Q -> py_float (VInt z) = Ok (b64 (inject_Z z)).
Proof. apply b64_res_finite. Qed.

Lemma py_truediv_int a b :
  b <> 0 -> (Qabs (inject_Z a / inject_Z b) <= 2 ^ 1023)%Q ->
  py_truediv (VInt a) (VInt b) = Ok (VFloat (b64 (inject_Z a / inject_Z b))).
Proof.
  intros Hb H. unfold py_truediv.
  destruct (Z.eqb_spec b 0) as [|_]; [contradiction|].
  rewrite (b64_res_finite _ H). reflexivity.
Qed.

Lemma py_mul_int_float z q :
  (Qabs (inject_Z z) <= 2 ^ 1023)%Q ->
  (Qabs (b64 (inject_Z z) * q) <= 2 ^ 1023)%Q ->
  py_mul (VInt z) (VFloat q) = Ok (VFloat (b64 (b64 (inject_Z z) * q))).
Proof.
  intros Hz H. unfold py_mul, float_op.
  rewrite (py_float_int z Hz). cbn [mbind res_bind py_float].
  rewrite (b64_res_finite _ H). reflexivity.
Qed.

(** ** C3: [default] *)

(** C3. [default] returns the settings it is given: a field that was never
    configured stays [None], no default value is filled in.  On
    [BetSettings()] every field is still [None] afterwards. *)
Theorem default_fills_nothing :
  (forall s, default s = s) /\
  strategy (default BetSettings_new) = None /\
  percentage (default BetSettings_new) = VNone /\
  percentage_gap (default BetSettings_new) = VNone /\
  max_points (default BetSettings_new) = VNone /\
  stealth_mode (default BetSettings_new) = None.
Proof.
  split; [|repeat split].
  intros [st pc gap cap sm fc]. reflexivity.
Qed.

(** ** C9: the structural form of a filter condition *)

(** C9. For every field value [b] defined in [OutcomeKeys], every condition
    [w] and every threshold [v], [from_dict (to_dict c)] gives back the
    condition [c] with the fields [b], [w] and [v]. *)
Theorem FilterCondition_roundtrip (b : string) (w : Condition) (v : pyval) :
  In b (map snd OutcomeKeys.attrs) ->
  FilterCondition_.to_dict (mkFilterCondition (VStr b) (Some w) v)
    ≫= FilterCondition_.from_dict
  = Ok (mkFilterCondition (VStr b) (Some w) v).
Proof.
  simpl. intros H.
  repeat (destruct H as [<-|H]; [destruct w; vm_compute; reflexivity|]).
  destruct H.
Qed.

Lemma FilterCondition_roundtrip_witness :
  FilterCondition_.to_dict (mkFilterCondition (VStr "odds") (Some GTE) (VFloat (3 # 2)))
    ≫= FilterCondition_.from_dict
  = Ok (mkFilterCondition (VStr "odds") (Some GTE) (VFloat (3 # 2))).
Proof.
  apply (FilterCondition_roundtrip "odds" GTE (VFloat (3 # 2))).
  simpl. tauto.
Defined.

Lemma py_lt_num x y a b g :
  num_val x = Some a -> num_val y = Some b -> py_lt x y = Ok g ->
  (g = true <-> (a < b)%Q).
Proof.
  intros Hx Hy. unfold py_lt. rewrite (py_cmp_num x y a b Hx Hy). simpl.
  intros [= <-]. rewrite (Qlt_alt a b).
  destruct (a ?= b)%Q; split; congruence.
Qed.

Lemma py_ge_num x y a b g :
  num_val x = Some a -> num_val y = Some b -> py_ge x y = Ok g ->
  (g = true <-> (b <= a)%Q).
Proof.
  intros Hx Hy. unfold py_ge. rewrite (py_cmp_num x y a b Hx Hy). simpl.
  intros [= <-]. rewrite (Qge_alt a b).
  destruct (a ?= b)%Q; split; congruence.
Qed.

Lemma py_le_num x y a b g :
  num_val x = Some a -> num_val y = Some b -> py_le x y = Ok g ->
  (g = true <-> (a <= b)%Q).
Proof.
  intros Hx Hy. unfold py_le. rewrite (py_cmp_num x y a b Hx Hy). simpl.
  intros [= <-]. rewrite (Qle_alt a b).
  destruct (a ?= b)%Q; split; congruence.
Qed.

Lemma satisfies_num c x y a b :
  num_val x = Some a -> num_val y = Some b ->
  exists g, satisfies (Some c) x y = Ok g /\ (g = true <-> holds c a b).
Proof.
  intros Hx Hy. unfold satisfies, holds.
  destruct c; eexists; (split; [unfold py_gt, py_lt, py_ge, py_le;
    rewrite (py_cmp_num x y a b Hx Hy); reflexivity|]).
  - apply (py_gt_num x y a b); auto. unfold py_gt. rewrite (py_cmp_num x y a b Hx Hy). reflexivity.
  - apply (py_lt_num x y a b); auto. unfold py_lt. rewrite (py_cmp_num x y a b Hx Hy). reflexivity.
  - apply (py_ge_num x y a b); auto. unfold py_ge. rewrite (py_cmp_num x y a b Hx Hy). reflexivity.
  - apply (py_le_num x y a b); auto. unfold py_le. rewrite (py_cmp_num x y a b Hx Hy). reflexivity.
Qed.

Lemma fixed_key_resolved key : fixed_key (VStr key) = VStr (resolved_key key).
Proof.
  unfold fixed_key, resolved_key, py_eq. simpl.
  destruct (String.eqb_spec key DECISION_USERS) as [->|_]; [reflexivity|].
  destruct (String.eqb_spec key DECISION_POINTS) as [->|_]; reflexivity.
Qed.

Lemma is_total_key_str key :
  is_total_key (VStr key) = true <-> key = TOTAL_USERS \/ key = TOTAL_POINTS.
Proof.
  unfold is_total_key, py_eq. simpl.
  destruct (String.eqb_spec key TOTAL_USERS), (String.eqb_spec key TOTAL_POINTS);
    simpl; intuition congruence.
Qed.

(** ** Results and binds *)

Lemma bind_Ok_inv {A B} (m : res A) (f : A -> res B) (b : B) :
  m ≫= f = Ok b -> exists a, m = Ok a /\ f a = Ok b.
Proof. destruct m as [a|e]; [eauto|discriminate]. Qed.

(** Splits a successful chain of binds into its successful steps. *)
Ltac inv_binds :=
  repeat match goal with
    | H : _ ≫= _ = Ok _ |- _ =>
        let a := fresh "a" in
        let Ha := fresh "Ha" in
        apply bind_Ok_inv in H; destruct H as (a & Ha & H)
    | H : Ok _ = Ok _ |- _ => injection H as H
    | H : Raise _ = Ok _ |- _ => discriminate H
    end.

Lemma getitem_Ok d k v : getitem d k = Ok v <-> d !! k = Some v.
Proof. unfold getitem. destruct (d !! k); split; congruence. Qed.

Lemma list_getitem_Ok {A} (l : list A) i v :
  list_getitem l i = Ok v <-> l !! i = Some v.
Proof. unfold list_getitem. destruct (l !! i); split; congruence. Qed.

(** ** The state that [update_outcomes] leaves alone *)

Lemma update_outcomes_frame fr self snaps self' :
  update_outcomes fr self snaps = Ok self' ->
  decision self' = decision self /\ settings self' = settings self.
Proof.
  unfold update_outcomes. intros H. inv_binds. subst self'. split; reflexivity.
Qed.

Lemma after_updates_frame fr history : forall self self',
  after_updates fr self history = Ok self' ->
  decision self' = decision self /\ settings self' = settings self.
Proof.
  induction history as [|snaps rest IH]; simpl; intros self self' H.
  - injection H as <-. split; reflexivity.
  - inv_binds. destruct (update_outcomes_frame _ _ _ _ Ha) as [Hd Hs].
    destruct (IH _ _ H) as [Hd' Hs']. split; congruence.
Qed.

(** ** Operations on bounded numbers *)

Lemma py_float_bounded v q :
  num_val v = Some q -> (Qabs q <= 2 ^ 500)%Q ->
  exists f, py_float v = Ok f /\ (Qabs f <= 2 ^ 501)%Q.
Proof.
  intros Hv Hq.
  destruct v as [|z|f|]; try discriminate; injection Hv as <-.
  - exists (b64 (inject_Z z)). split.
    + apply py_float_int. eapply Qle_trans; [exact Hq|]. apply Qpow2_le. lia.
    + apply (b64_abs_bound _ 500); [lia|exact Hq].
  - exists f. split; [reflexivity|].
    eapply Qle_trans; [exact Hq|]. apply Qpow2_le. lia.
Qed.

Lemma float_op_minus_bounded x y a b :
  num_val x = Some a -> num_val y = Some b ->
  (Qabs a <= 2 ^ 500)%Q -> (Qabs b <= 2 ^ 500)%Q ->
  exists c, float_op Qminus x y = Ok (VFloat c).
Proof.
  intros Hx Hy Ha Hb. unfold float_op.
  destruct (py_float_bounded x a Hx Ha) as (fa & -> & Hfa).
  destruct (py_float_bounded y b Hy Hb) as (fb & -> & Hfb).
  cbn [mbind res_bind]. rewrite b64_res_finite; [eauto|].
  apply (Qle_trans _ (2 ^ 501 + 2 ^ 501)%Q); [|vm_compute; discriminate].
  assert (fa - fb == fa + - fb)%Q as -> by ring.
  eapply Qle_trans; [apply Qabs_triangle|].
  rewrite Qabs_opp. apply Qplus_le_compat; assumption.
Qed.

Lemma py_sub_bounded x y a b :
  num_val x = Some a -> num_val y = Some b ->
  (Qabs a <= 2 ^ 500)%Q -> (Qabs b <= 2 ^ 500)%Q ->
  exists v c, py_sub x y = Ok v /\ num_val v = Some c.
Proof.
  intros Hx Hy Ha Hb.
  destruct (float_op_minus_bounded x y a b Hx Hy Ha Hb) as (c & Hc).
  destruct x as [|z|f|]; try discriminate; destruct y as [|z'|f'|]; try discriminate;
    unfold py_sub; try (rewrite Hc; eexists _, _; split; reflexivity).
  eexists _, _. split; reflexivity.
Qed.

Section Decision.

Variable char_decision_as_index : pyval -> res nat.
Hypothesis index_A : char_decision_as_index (VStr "A") = Ok 0%nat.
Hypothesis index_B : char_decision_as_index (VStr "B") = Ok 1%nat.

(** *** C10: [skip] before any [calculate] *)

(** C10. With a filter whose metric is not [total_users] or
    [total_points], [skip] raises [KeyError] in every state reached from
    the constructor by calls of [update_outcomes] only: the decision is
    still the empty dictionary and has no ["choice"] entry. *)
Theorem skip_before_calculate_raises
    (fr : Q -> Q) (outs : list dict) (st : BetSettings)
    (fc : FilterCondition) (history : list (list Snapshot)) (self : Bet) :
  filter_condition st = Some fc ->
  is_total_key (by_ fc) = false ->
  after_updates fr (Bet_new outs st) history = Ok self ->
  skip char_decision_as_index self = Raise KeyError.
Proof.
  intros Hfc Hkey Hrun.
  destruct (after_updates_frame _ _ _ _ Hrun) as [Hd Hs]. simpl in Hd, Hs.
  unfold skip. rewrite Hs, Hfc, Hkey, Hd. reflexivity.
Qed.

(** *** C1: the tie-break of the strategies *)

Lemma return_choice_inv self key c :
  return_choice self key = Ok c ->
  exists o0 o1 x0 x1 g,
    outcomes self !! 0%nat = Some o0 /\ outcomes self !! 1%nat = Some o1 /\
    o0 !! key = Some x0 /\ o1 !! key = Some x1 /\
    py_gt x0 x1 = Ok g /\ c = VStr (if g : bool then "A" else "B").
Proof.
  unfold return_choice. intros H. inv_binds.
  rewrite list_getitem_Ok in Ha, Ha1. rewrite getitem_Ok in Ha0, Ha2.
  eauto 12.
Qed.

Lemma choose_inv self s c :
  strategy (settings self) = Some s -> choose self = Ok c ->
  exists key,
    In key [TOTAL_USERS; ODDS; ODDS_PERCENTAGE] /\
    (s = MOST_VOTED -> key = TOTAL_USERS) /\
    (s = HIGH_ODDS -> key = ODDS) /\
    (s = PERCENTAGE -> key = ODDS_PERCENTAGE) /\
    (s = SMART -> key = ODDS \/ key = TOTAL_USERS) /\
    return_choice self key = Ok c.
Proof.
  unfold choose. intros -> H. destruct s.
  - exists TOTAL_USERS. simpl. intuition congruence.
  - exists ODDS. simpl. intuition congruence.
  - exists ODDS_PERCENTAGE. simpl. intuition congruence.
  - inv_binds.
    match goal with H : (if ?b then _ else _) = Ok _ |- _ => destruct b end.
    + exists ODDS. simpl. intuition congruence.
    + exists TOTAL_USERS. simpl. intuition congruence.
Qed.

Lemma calculate_choice self balance r self' :
  calculate char_decision_as_index self balance r = Ok self' ->
  exists c, choose self = Ok c /\ decision self' !! "choice" = Some c.
Proof.
  unfold calculate. intros H. inv_binds. subst self'. simpl.
  exists a. split; [assumption|].
  destruct a; inv_binds; subst a0; reflexivity.
Qed.

(** C1 (as the code has it). Whatever the strategy, the choice of
    [calculate] is the result of one comparison between the two outcomes
    on [total_users], [odds] or [odds_percentage] ([odds] or [total_users]
    for [SMART]): it is ["A"] when the
    value of outcome 0 is strictly greater than that of outcome 1 and
    ["B"] otherwise, so ["B"] on equality. *)
Theorem choice_A_only_when_strictly_greater
    (self : Bet) (s : Strategy) (balance : Z) (r : Q) (self' : Bet) :
  strategy (settings self) = Some s ->
  calculate char_decision_as_index self balance r = Ok self' ->
  exists key o0 o1 x0 x1 g,
    In key [TOTAL_USERS; ODDS; ODDS_PERCENTAGE] /\
    (s = MOST_VOTED -> key = TOTAL_USERS) /\
    (s = HIGH_ODDS -> key = ODDS) /\
    (s = PERCENTAGE -> key = ODDS_PERCENTAGE) /\
    (s = SMART -> key = ODDS \/ key = TOTAL_USERS) /\
    outcomes self !! 0%nat = Some o0 /\ outcomes self !! 1%nat = Some o1 /\
    o0 !! key = Some x0 /\ o1 !! key = Some x1 /\
    py_gt x0 x1 = Ok g /\
    decision self' !! "choice" = Some (VStr (if g : bool then "A" else "B")) /\
    (forall q0 q1, num_val x0 = Some q0 -> num_val x1 = Some q1 ->
       (g = true <-> (q1 < q0)%Q) /\ ((q0 == q1)%Q -> g = false)).
Proof.
  intros Hs Hc.
  destruct (calculate_choice _ _ _ _ Hc) as (c & Hch & Hdec).
  destruct (choose_inv _ _ _ Hs Hch) as (key & Hin & H1 & H2 & H3 & H4 & Hrc).
  destruct (return_choice_inv _ _ _ Hrc)
    as (o0 & o1 & x0 & x1 & g & Ho0 & Ho1 & Hx0 & Hx1 & Hg & ->).
  exists key, o0, o1, x0, x1, g. repeat (split; [assumption|]).
  intros q0 q1 Hq0 Hq1.
  pose proof (py_gt_num _ _ _ _ _ Hq0 Hq1 Hg) as Hiff.
  split; [exact Hiff|]. intros Heq.
  destruct g; [|reflexivity].
  destruct Hiff as [Hlt _]. specialize (Hlt eq_refl).
  rewrite Heq in Hlt. exfalso. exact (Qlt_irrefl _ Hlt).
Qed.

(** *** C6: the verdict of [skip] *)

(** C6 (as the code has it). With no filter, [skip] returns [(False, 0)].
    With a filter on [total_users] or [total_points], the compared value
    is the sum of that field over both outcomes; with a filter on any
    other metric and a decision whose choice is ["A"] or ["B"], it is the
    field of the chosen outcome, a decision metric being read from the
    total of the same name.  In both cases the verdict is [False] exactly
    when the condition holds between the compared value and the
    threshold, and the second component is the compared value. *)
Theorem skip_verdict (self : Bet) :
  (filter_condition (settings self) = None ->
   skip char_decision_as_index self = Ok (false, VInt 0)) /\
  (forall fc c key o0 o1 a b v,
     filter_condition (settings self) = Some fc ->
     by_ fc = VStr key -> where_ fc = Some c -> num_val (value fc) = Some v ->
     key = TOTAL_USERS \/ key = TOTAL_POINTS ->
     outcomes self !! 0%nat = Some o0 -> outcomes self !! 1%nat = Some o1 ->
     o0 !! key = Some (VInt a) -> o1 !! key = Some (VInt b) ->
     exists verdict,
       skip char_decision_as_index self = Ok (verdict, VInt (a + b)) /\
       (verdict = false <-> holds c (inject_Z (a + b)) v)) /\
  (forall fc c key ch i o x qx v,
     filter_condition (settings self) = Some fc ->
     by_ fc = VStr key -> where_ fc = Some c -> num_val (value fc) = Some v ->
     key <> TOTAL_USERS -> key <> TOTAL_POINTS ->
     decision self !! "choice" = Some (VStr ch) ->
     (ch = "A" /\ i = 0%nat) \/ (ch = "B" /\ i = 1%nat) ->
     outcomes self !! i = Some o ->
     o !! resolved_key key = Some x -> num_val x = Some qx ->
     exists verdict,
       skip char_decision_as_index self = Ok (verdict, x) /\
       (verdict = false <-> holds c qx v)).
Proof.
  split; [|split].
  - intros Hnone. unfold skip. rewrite Hnone. reflexivity.
  - intros fc c key o0 o1 a b v Hfc Hby Hw Hv Hkey Ho0 Ho1 Ha Hb.
    unfold skip. rewrite Hfc, Hby, Hw.
    rewrite (proj2 (is_total_key_str key) Hkey), fixed_key_resolved.
    assert (resolved_key key = key) as -> by (destruct Hkey; subst; reflexivity).
    rewrite (proj2 (list_getitem_Ok _ _ _) Ho0), (proj2 (list_getitem_Ok _ _ _) Ho1).
    cbn [mbind res_bind py_add getitem_val]. rewrite (proj2 (getitem_Ok _ _ _) Ha), (proj2 (getitem_Ok _ _ _) Hb).
    cbn [mbind res_bind py_add getitem_val].
    destruct (satisfies_num c (VInt (a + b)) (value fc) _ v eq_refl Hv)
      as (g & Hg & Hiff).
    rewrite Hg. cbn [mbind res_bind]. exists (negb g). split; [reflexivity|].
    rewrite <- Hiff. destruct g; simpl; split; congruence.
  - intros fc c key ch i o x qx v Hfc Hby Hw Hv Hk1 Hk2 Hch Hi Ho Hx Hqx.
    unfold skip. rewrite Hfc, Hby, Hw.
    assert (is_total_key (VStr key) = false) as ->.
    { destruct (is_total_key (VStr key)) eqn:E; [|reflexivity].
      apply is_total_key_str in E. tauto. }
    rewrite fixed_key_resolved, (proj2 (getitem_Ok _ _ _) Hch). cbn [mbind res_bind].
    assert (char_decision_as_index (VStr ch) = Ok i) as ->.
    { destruct Hi as [[-> ->]|[-> ->]]; assumption. }
    cbn [mbind res_bind py_add getitem_val]. rewrite (proj2 (list_getitem_Ok _ _ _) Ho). cbn [mbind res_bind getitem_val].
    rewrite (proj2 (getitem_Ok _ _ _) Hx). simpl.
    destruct (satisfies_num c x (value fc) qx v Hqx Hv) as (g & Hg & Hiff).
    unfold satisfies in Hg. rewrite Hg. cbn [mbind res_bind]. exists (negb g). split; [reflexivity|].
    rewrite <- Hiff. destruct g; simpl; split; congruence.
Qed.

(** *** The stake *)

Lemma py_min_int n m : py_min (VInt n) (VInt m) = Ok (VInt (Z.min n m)).
Proof.
  unfold py_min, py_lt, py_cmp. simpl. rewrite Qcompare_inject.
  unfold Z.min. rewrite (Z.compare_antisym m n).
  destruct (m ?= n); reflexivity.
Qed.

Lemma stake_int self balance p m :
  percentage (settings self) = VInt p ->
  max_points (settings self) = VInt m ->
  Z.abs balance <= 2 ^ 500 -> Z.abs p <= 2 ^ 500 ->
  stake self balance = Ok (VInt (Z.min (b64_stake balance p) m)).
Proof.
  intros Hp Hm Hb Hpb. unfold stake. rewrite Hp, Hm.
  assert (Qabs (inject_Z p / inject_Z 100) <= 2 ^ 500)%Q as Hr.
  { apply inject_abs_le_pow2 in Hpb; [|lia].
    eapply Qle_trans; [|exact Hpb].
    unfold Qdiv. rewrite Qabs_Qmult.
    rewrite <- (Qmult_1_r (Qabs (inject_Z p))) at 2.
    apply Qmult_le_compat_nonneg.
    - split; [apply Qabs_nonneg|apply Qle_refl].
    - split; [apply Qabs_nonneg|]. vm_compute. discriminate. }
  apply inject_abs_le_pow2 in Hb; [|lia].
  rewrite py_truediv_int; [|lia|eapply Qle_trans; [exact Hr|]; apply Qpow2_le; lia].
  cbn [mbind res_bind].
  rewrite py_mul_int_float.
  - cbn [mbind res_bind py_int]. apply py_min_int.
  - eapply Qle_trans; [exact Hb|]. apply Qpow2_le. lia.
  - rewrite Qabs_Qmult.
    apply (Qle_trans _ (2 ^ 501 * 2 ^ 501)%Q).
    + apply Qmult_le_compat_nonneg.
      * split; [apply Qabs_nonneg|]. apply (b64_abs_bound _ 500); [lia|exact Hb].
      * split; [apply Qabs_nonneg|]. apply (b64_abs_bound _ 500); [lia|exact Hr].
    + rewrite <- Qpow2_add. apply Qpow2_le. lia.
Qed.

(** *** C4: [calculate] before any [update_outcomes] *)

Lemma fresh_outcome_lookup id title color :
  let o := clear_outcome (raw_outcome id title color 0 0) in
  o !! TOTAL_USERS = Some (VInt 0) /\
  o !! ODDS = Some (VInt 0) /\
  o !! ODDS_PERCENTAGE = Some (VInt 0) /\
  o !! PERCENTAGE_USERS = Some (VInt 0) /\
  o !! TOP_POINTS = Some (VInt 0) /\
  o !! "id" = Some (VStr id).
Proof. vm_compute. repeat split. Qed.

Lemma return_choice_tie self key o0 o1 :
  outcomes self = [o0; o1] ->
  o0 !! key = Some (VInt 0) -> o1 !! key = Some (VInt 0) ->
  return_choice self key = Ok (VStr "B").
Proof.
  intros Ho H0 H1. unfold return_choice. rewrite Ho. simpl.
  rewrite (proj2 (getitem_Ok _ _ _) H0), (proj2 (getitem_Ok _ _ _) H1).
  reflexivity.
Qed.

(** C4 (as the code has it). Before any [update_outcomes] the raw totals
    and the derived fields are all zero, every comparison is between equal
    values, and each of the four strategies chooses ["B"].  The amount is
    then the ordinary stake on outcome 1 (stealth mode off):
    [min(int(balance * (percentage / 100)), max_points)], which is not 0
    in general. *)
Theorem calculate_before_update
    (s : Strategy) (st : BetSettings) (id0 t0 c0 id1 t1 c1 : string)
    (balance p m : Z) (r : Q) :
  strategy st = Some s ->
  percentage st = VInt p ->
  max_points st = VInt m ->
  (s = SMART -> exists g, num_val (percentage_gap st) = Some g) ->
  stealth_mode st <> Some true ->
  Z.abs balance <= 2 ^ 500 -> Z.abs p <= 2 ^ 500 ->
  exists self',
    calculate char_decision_as_index
      (Bet_new [raw_outcome id0 t0 c0 0 0; raw_outcome id1 t1 c1 0 0] st)
      balance r = Ok self' /\
    decision self' !! "choice" = Some (VStr "B") /\
    decision self' !! "amount" = Some (VInt (Z.min (b64_stake balance p) m)) /\
    decision self' !! "id" = Some (VStr id1).
Proof.
  intros Hs Hp Hm Hgap Hst Hb Hpb.
  set (self := Bet_new _ st).
  pose proof (fresh_outcome_lookup id0 t0 c0) as (U0 & O0 & P0 & PU0 & T0 & I0).
  pose proof (fresh_outcome_lookup id1 t1 c1) as (U1 & O1 & P1 & PU1 & T1 & I1).
  assert (outcomes self =
          [clear_outcome (raw_outcome id0 t0 c0 0 0);
           clear_outcome (raw_outcome id1 t1 c1 0 0)]) as Hout by reflexivity.
  assert (choose self = Ok (VStr "B")) as Hch.
  { unfold choose. change (settings self) with st. rewrite Hs.
    destruct s.
    - eapply return_choice_tie; eauto.
    - eapply return_choice_tie; eauto.
    - eapply return_choice_tie; eauto.
    - destruct (Hgap eq_refl) as (g & Hg).
      rewrite Hout. cbn [list_getitem lookup list_lookup mbind res_bind].
      rewrite (proj2 (getitem_Ok _ _ _) PU0), (proj2 (getitem_Ok _ _ _) PU1).
      cbn [mbind res_bind py_sub py_abs]. change (Z.abs (0 - 0)) with 0.
      unfold py_lt. rewrite (py_cmp_num (VInt 0) (percentage_gap st) _ g eq_refl Hg).
      cbn [mbind res_bind].
      destruct (inject_Z 0 ?= g)%Q; eapply return_choice_tie; eauto. }
  unfold calculate. rewrite Hch. cbn [mbind res_bind]. rewrite index_B.
  cbn [mbind res_bind]. rewrite Hout.
  cbn [list_getitem lookup list_lookup mbind res_bind].
  rewrite (proj2 (getitem_Ok _ _ _) I1). cbn [mbind res_bind].
  rewrite (stake_int self balance p m Hp Hm Hb Hpb). cbn [mbind res_bind].
  assert (forall o a, stealth self o a r = Ok a) as Hstealth.
  { intros o a. unfold stealth. change (settings self) with st.
    destruct (stealth_mode st) as [[]|]; [contradiction|reflexivity..]. }
  rewrite Hstealth. cbn [mbind res_bind py_int].
  eexists. split; [reflexivity|]. simpl. repeat split.
Qed.

(** *** C5: the stake before the stealth adjustment *)

(** C5 (as the code has it). For an integer percentage and an integer
    cap the stake is [min(n, max_points)], where [n] is
    [int(balance * (percentage / 100))] with the quotient and the product
    rounded to binary64.  For a balance and a percentage that are not
    negative (and [balance * percentage <= 100 * 2^44]) [n] is
    [floor(balance * percentage / 100)] or one less; for balance 100000
    and percentage 5 it is 5000.  With stealth mode off this stake is the
    amount of the decision whenever a choice is made. *)
Theorem stake_is_binary64 (self : Bet) (balance p m : Z) :
  percentage (settings self) = VInt p ->
  max_points (settings self) = VInt m ->
  Z.abs balance <= 2 ^ 500 -> Z.abs p <= 2 ^ 500 ->
  stake self balance = Ok (VInt (Z.min (b64_stake balance p) m)) /\
  (0 <= balance -> 0 <= p -> balance * p <= 100 * 2 ^ 44 ->
   balance * p / 100 - 1 <= b64_stake balance p <= balance * p / 100) /\
  b64_stake 100000 5 = 5000 /\
  (forall r self',
     stealth_mode (settings self) <> Some true ->
     calculate char_decision_as_index self balance r = Ok self' ->
     decision self' !! "choice" <> Some VNone ->
     decision self' !! "amount" = Some (VInt (Z.min (b64_stake balance p) m))).
Proof.
  intros Hp Hm Hb Hpb.
  pose proof (stake_int self balance p m Hp Hm Hb Hpb) as Hstake.
  split; [exact Hstake|]. split; [apply b64_stake_floor|].
  split; [vm_compute; reflexivity|].
  intros r self' Hst Hc Hch. unfold calculate in Hc. inv_binds. subst self'.
  simpl in *.
  assert (forall o a, stealth self o a r = Ok a) as Hstealth.
  { intros o a'. unfold stealth.
    destruct (stealth_mode (settings self)) as [[]|]; [contradiction|reflexivity..]. }
  destruct a; inv_binds; subst a0;
    try (rewrite lookup_insert_eq in Hch; congruence);
    rewrite Hstake in *; rewrite Hstealth in *; inv_binds; subst;
    simpl in *; inv_binds; subst; reflexivity.
Qed.

(** *** C2: the sign of the amount *)

Lemma b64_res_Ok q c : b64_res q = Ok c -> c = b64 q.
Proof. unfold b64_res. destruct (b64_overflows q); congruence. Qed.

Lemma trunc_nonneg q : (0 <= q)%Q -> 0 <= Z.quot (Qnum q) (Z.pos (Qden q)).
Proof.
  intros H. apply Z.quot_pos; [|lia]. unfold Qle in H. simpl in H. lia.
Qed.

Lemma stake_nonneg self balance p m v :
  percentage (settings self) = VInt p ->
  max_points (settings self) = VInt m ->
  0 <= balance -> 0 <= p -> 0 <= m ->
  stake self balance = Ok v ->
  exists n, v = VInt n /\ 0 <= n.
Proof.
  intros Hp Hm Hb Hp0 Hm0. unfold stake. rewrite Hp, Hm.
  unfold py_truediv. simpl (100 =? 0). intros H. inv_binds.
  repeat match goal with E : b64_res _ = Ok _ |- _ => apply b64_res_Ok in E end.
  subst.
  match goal with
  | E : py_mul _ _ = Ok _ |- _ => unfold py_mul, float_op in E; cbn [py_float] in E
  end.
  inv_binds.
  repeat match goal with E : b64_res _ = Ok _ |- _ => apply b64_res_Ok in E end.
  subst.
  match goal with E : py_int _ = Ok _ |- _ => cbn [py_int] in E; injection E as <- end.
  rewrite py_min_int in H. injection H as <-.
  eexists. split; [reflexivity|].
  apply Z.min_glb; [|exact Hm0].
  apply trunc_nonneg, b64_nonneg, Qmult_le_0_compat; apply b64_nonneg.
  - change 0%Q with (inject_Z 0). rewrite <- Zle_Qle. exact Hb.
  - apply Qle_shift_div_l; [reflexivity|]. rewrite Qmult_0_l.
    change 0%Q with (inject_Z 0). rewrite <- Zle_Qle. exact Hp0.
Qed.

Lemma stealth_nonneg self o n0 r v n :
  0 <= n0 ->
  stealth_mode (settings self) <> Some true \/
    ((r <= 5)%Q /\ exists t, o !! TOP_POINTS = Some (VInt t) /\ 5 <= t) ->
  stealth self o (VInt n0) r = Ok v ->
  py_int v = Ok n ->
  0 <= n.
Proof.
  intros Hn0 Hcase. unfold stealth.
  destruct (stealth_mode (settings self)) as [[]|];
    try (intros [= <-] [= <-]; exact Hn0).
  destruct Hcase as [Hne|(Hr & t & Ht & Ht5)]; [congruence|].
  rewrite (proj2 (getitem_Ok _ _ _) Ht). cbn [mbind res_bind].
  rewrite py_ge_int. cbn [mbind res_bind].
  destruct (t <=? n0); [|intros [= <-] [= <-]; exact Hn0].
  unfold py_sub, float_op. cbn [py_float]. intros H. inv_binds.
  repeat match goal with E : b64_res _ = Ok _ |- _ => apply b64_res_Ok in E end.
  subst. cbn [py_int]. intros [= <-].
  apply trunc_nonneg, b64_nonneg.
  assert (5 <= b64 (inject_Z t))%Q.
  { apply (b64_ge_int 5); [lia|]. rewrite <- Zle_Qle. exact Ht5. }
  lra.
Qed.

(** C2 (as the code has it). For a balance, an integer percentage and an
    integer cap that are not negative, the amount of the decision is an
    integer that is not negative, provided that stealth mode is off or
    that every outcome's [top_points] is an integer of at least 5 (the
    draw [r] being at most 5).  Nothing guards the stealth reduction for a
    smaller [top_points]. *)
Theorem amount_nonneg_unless_small_top_points
    (self : Bet) (balance p m : Z) (r : Q) (self' : Bet) :
  0 <= balance ->
  percentage (settings self) = VInt p -> 0 <= p ->
  max_points (settings self) = VInt m -> 0 <= m ->
  stealth_mode (settings self) <> Some true \/
    ((r <= 5)%Q /\
     forall o, In o (outcomes self) ->
       exists t, o !! TOP_POINTS = Some (VInt t) /\ 5 <= t) ->
  calculate char_decision_as_index self balance r = Ok self' ->
  exists n, decision self' !! "amount" = Some (VInt n) /\ 0 <= n.
Proof.
  intros Hb Hp Hp0 Hm Hm0 Hcase Hc.
  unfold calculate in Hc. inv_binds. subst self'. simpl.
  assert (forall v, stake self balance = Ok v -> exists n, v = VInt n /\ 0 <= n)
    as Hstake by (intros v; apply (stake_nonneg self balance p m); assumption).
  assert (forall i o n0 v n,
            list_getitem (outcomes self) i = Ok o -> 0 <= n0 ->
            stealth self o (VInt n0) r = Ok v -> py_int v = Ok n -> 0 <= n)
    as Hstealth.
  { intros i o n0 v n Ho Hn0. apply stealth_nonneg; [exact Hn0|].
    destruct Hcase as [Hne|[Hr Hall]]; [left; exact Hne|right].
    split; [exact Hr|]. apply Hall.
    apply list_getitem_Ok in Ho. apply list_elem_of_In.
    eapply list_elem_of_lookup_2. exact Ho. }
  destruct a; inv_binds; subst;
    try (exists 0; split; [reflexivity|lia]);
    match goal with
    | E : stake _ _ = Ok _ |- _ => destruct (Hstake _ E) as (n0 & -> & Hn0)
    end;
    (eexists; split; [reflexivity|]; eapply Hstealth; eassumption).
Qed.

(** *** [calculate] returns a decision *)

Lemma return_choice_defined self key o0 o1 x0 x1 q0 q1 :
  outcomes self = [o0; o1] ->
  o0 !! key = Some x0 -> o1 !! key = Some x1 ->
  num_val x0 = Some q0 -> num_val x1 = Some q1 ->
  return_choice self key = Ok (VStr "A") \/ return_choice self key = Ok (VStr "B").
Proof.
  intros Ho H0 H1 Hq0 Hq1. unfold return_choice. rewrite Ho.
  cbn [list_getitem lookup list_lookup mbind res_bind].
  rewrite (proj2 (getitem_Ok _ _ _) H0), (proj2 (getitem_Ok _ _ _) H1).
  cbn [mbind res_bind]. unfold py_gt. rewrite (py_cmp_num x0 x1 q0 q1 Hq0 Hq1).
  cbn [mbind res_bind]. destruct (q0 ?= q1)%Q; auto.
Qed.

Lemma choose_defined self s o0 o1 g :
  strategy (settings self) = Some s ->
  num_val (percentage_gap (settings self)) = Some g ->
  outcomes self = [o0; o1] ->
  well_formed_outcome o0 -> well_formed_outcome o1 ->
  choose self = Ok (VStr "A") \/ choose self = Ok (VStr "B").
Proof.
  intros Hs Hg Ho (U0 & _ & D0 & _) (U1 & _ & D1 & _).
  destruct U0 as (u0 & U0). destruct U1 as (u1 & U1).
  assert (forall k, k ∈ [PERCENTAGE_USERS; ODDS; ODDS_PERCENTAGE] ->
            return_choice self k = Ok (VStr "A") \/
            return_choice self k = Ok (VStr "B")) as Hd.
  { intros k Hk. destruct (D0 k Hk) as (x0 & q0 & H0 & Hq0 & _).
    destruct (D1 k Hk) as (x1 & q1 & H1 & Hq1 & _).
    eapply return_choice_defined; eassumption. }
  assert (return_choice self TOTAL_USERS = Ok (VStr "A") \/
          return_choice self TOTAL_USERS = Ok (VStr "B")) as Husers.
  { eapply (return_choice_defined self TOTAL_USERS o0 o1); try eassumption; reflexivity. }
  unfold choose. rewrite Hs. destruct s.
  - exact Husers.
  - apply Hd. apply list_elem_of_In. simpl. tauto.
  - apply Hd. apply list_elem_of_In. simpl. tauto.
  - destruct (D0 PERCENTAGE_USERS ltac:(apply list_elem_of_In; simpl; tauto)) as (x0 & q0 & H0 & Hq0 & B0).
    destruct (D1 PERCENTAGE_USERS ltac:(apply list_elem_of_In; simpl; tauto)) as (x1 & q1 & H1 & Hq1 & B1).
    rewrite Ho. cbn [list_getitem lookup list_lookup mbind res_bind].
    rewrite (proj2 (getitem_Ok _ _ _) H0), (proj2 (getitem_Ok _ _ _) H1).
    cbn [mbind res_bind].
    destruct (py_sub_bounded x0 x1 q0 q1 Hq0 Hq1 B0 B1) as (d & c & -> & Hc).
    cbn [mbind res_bind].
    assert (exists a qa, py_abs d = Ok a /\ num_val a = Some qa) as (a & qa & -> & Hqa).
    { destruct d; try discriminate; eexists _, _; split; reflexivity. }
    cbn [mbind res_bind]. unfold py_lt.
    rewrite (py_cmp_num a _ qa g Hqa Hg). cbn [mbind res_bind].
    destruct (qa ?= g)%Q; first [exact Husers | apply Hd; apply list_elem_of_In; simpl; tauto].
Qed.

(** For settings with integer fields and two well-formed outcomes (the
    balance, the percentage and the draw far inside the binary64 range),
    [calculate] returns a decision with a choice. *)
Lemma calculate_returns self s o0 o1 p m g balance r :
  strategy (settings self) = Some s ->
  percentage (settings self) = VInt p ->
  max_points (settings self) = VInt m ->
  num_val (percentage_gap (settings self)) = Some g ->
  Z.abs balance <= 2 ^ 500 -> Z.abs p <= 2 ^ 500 -> (Qabs r <= 2 ^ 500)%Q ->
  outcomes self = [o0; o1] ->
  well_formed_outcome o0 -> well_formed_outcome o1 ->
  exists self' c,
    calculate char_decision_as_index self balance r = Ok self' /\
    decision self' !! "choice" = Some (VStr c) /\ (c = "A" \/ c = "B").
Proof.
  intros Hs Hp Hm Hg Hb Hpb Hr Ho W0 W1.
  assert (exists c i o,
            choose self = Ok (VStr c) /\ (c = "A" \/ c = "B") /\
            char_decision_as_index (VStr c) = Ok i /\
            outcomes self !! i = Some o /\ well_formed_outcome o)
    as (c & i & o & Hc & Hcase & Hi & Hoi & W).
  { destruct (choose_defined self s o0 o1 g Hs Hg Ho W0 W1) as [Hc|Hc].
    - exists "A", 0%nat, o0. rewrite Ho. auto 10.
    - exists "B", 1%nat, o1. rewrite Ho. auto 10. }
  destruct W as (_ & (t & Ht & Htb) & _ & (id & Hid)).
  unfold calculate. rewrite Hc. cbn [mbind res_bind]. rewrite Hi.
  cbn [mbind res_bind].
  rewrite (proj2 (list_getitem_Ok _ _ _) Hoi). cbn [mbind res_bind].
  rewrite (proj2 (getitem_Ok _ _ _) Hid). cbn [mbind res_bind].
  rewrite (stake_int self balance p m Hp Hm Hb Hpb). cbn [mbind res_bind].
  assert (exists v, stealth self o (VInt (Z.min (b64_stake balance p) m)) r = Ok v /\
                    exists n, py_int v = Ok n) as (v & -> & n & Hn).
  { unfold stealth. destruct (stealth_mode (settings self)) as [[]|];
      try (eexists; split; [reflexivity|]; eexists; reflexivity).
    rewrite (proj2 (getitem_Ok _ _ _) Ht). cbn [mbind res_bind].
    rewrite py_ge_int. cbn [mbind res_bind].
    destruct (t <=? _); [|eexists; split; [reflexivity|]; eexists; reflexivity].
    unfold py_sub.
    destruct (float_op_minus_bounded (VInt t) (VFloat r) (inject_Z t) r eq_refl eq_refl)
      as (d & ->); [apply inject_abs_le_pow2; [lia|exact Htb]|exact Hr|].
    eexists. split; [reflexivity|]. eexists. reflexivity. }
  cbn [mbind res_bind]. rewrite Hn. cbn [mbind res_bind].
  eexists _, c. split; [reflexivity|]. split; [|exact Hcase].
  cbn [decision]. apply lookup_insert_eq.
Qed.

End Decision.

(** ** The claims at concrete inputs *)

Lemma index_of_choice_A : index_of_choice (VStr "A") = Ok 0%nat.
Proof. reflexivity. Qed.

Lemma index_of_choice_B : index_of_choice (VStr "B") = Ok 1%nat.
Proof. reflexivity. Qed.

(** C1, counterexample: outcome 0 and outcome 1 both count 10 users, the
    strategy is MOST_VOTED, and the choice is ["B"], not ["A"]. *)
Lemma tie_gives_B :
  metric (clear_outcome (raw_outcome "o0" "yes" "BLUE" 10 1000)) TOTAL_USERS =
    metric (clear_outcome (raw_outcome "o1" "no" "PINK" 10 9000)) TOTAL_USERS /\
  choice_of (calculate index_of_choice tie_bet 100000 1) = Ok (VStr "B") /\
  choice_of (calculate index_of_choice tie_bet 100000 1) <> Ok (VStr "A").
Proof. vm_compute. repeat split. discriminate. Qed.

Lemma choice_A_only_when_strictly_greater_witness :
  strategy (settings tie_bet) = Some MOST_VOTED /\
  calculate index_of_choice tie_bet 100000 1 = Ok decided_tie_bet /\
  exists g : bool,
    decision decided_tie_bet !! "choice" = Some (VStr (if g then "A" else "B")).
Proof.
  assert (calculate index_of_choice tie_bet 100000 1 = Ok decided_tie_bet)
    as Hc by (vm_compute; reflexivity).
  split; [reflexivity|]. split; [exact Hc|].
  destruct (choice_A_only_when_strictly_greater index_of_choice
              tie_bet MOST_VOTED 100000 1 decided_tie_bet eq_refl Hc)
    as (key & o0 & o1 & x0 & x1 & g & _ & _ & _ & _ & _ & _ & _ & _ & _ & _ & Hd & _).
  exists g. exact Hd.
Defined.

(** C2, counterexample: stealth mode on, no predictor seen yet
    ([top_points] is 0), balance 100000 and a draw of 1: the stake 5000 is
    replaced by [int(0 - 1.0)], and the amount is -1. *)
Lemma stealth_amount_negative :
  amount_of (calculate index_of_choice (fresh_bet MOST_VOTED 5 true) 100000 1)
  = Ok (VInt (-1)).
Proof. vm_compute. reflexivity. Qed.

Lemma amount_nonneg_unless_small_top_points_witness :
  calculate index_of_choice stealth_bet 100000 (3 # 2)%Q = Ok decided_stealth_bet /\
  stealth_mode (settings stealth_bet) = Some true /\
  exists n, decision decided_stealth_bet !! "amount" = Some (VInt n) /\ 0 <= n.
Proof.
  assert (calculate index_of_choice stealth_bet 100000 (3 # 2)%Q
          = Ok decided_stealth_bet) as Hc by (vm_compute; reflexivity).
  split; [exact Hc|]. split; [reflexivity|].
  apply (amount_nonneg_unless_small_top_points index_of_choice
           stealth_bet 100000 5 50000 (3 # 2)%Q decided_stealth_bet
           ltac:(lia) eq_refl ltac:(lia) eq_refl ltac:(lia)); [|exact Hc].
  right. split; [vm_compute; discriminate|].
  intros o [<-|[<-|[]]]; eexists; (split; [vm_compute; reflexivity|lia]).
Defined.

(** C4, counterexample: before any [update_outcomes], with balance 100000,
    percentage 5 and cap 50000, the amount is 5000, not 0. *)
Lemma amount_before_update_is_stake :
  amount_of (calculate index_of_choice (fresh_bet MOST_VOTED 5 false) 100000 1)
  = Ok (VInt 5000).
Proof. vm_compute. reflexivity. Qed.

Lemma calculate_before_update_witness :
  exists self',
    calculate index_of_choice (fresh_bet SMART 5 false) 100000 1 = Ok self' /\
    decision self' !! "choice" = Some (VStr "B") /\
    decision self' !! "amount" = Some (VInt (Z.min (b64_stake 100000 5) 50000)) /\
    decision self' !! "id" = Some (VStr "o1").
Proof.
  apply (calculate_before_update index_of_choice index_of_choice_B SMART
           (plain_settings SMART 5 20 50000 false)
           "o0" "yes" "BLUE" "o1" "no" "PINK" 100000 5 50000 1).
  - reflexivity.
  - reflexivity.
  - reflexivity.
  - intros _. exists (inject_Z 20). reflexivity.
  - discriminate.
  - vm_compute. discriminate.
  - vm_compute. discriminate.
Defined.

(** C5, counterexample: balance 100, percentage 29: the stake is 28, while
    [min(floor(100 * 29 / 100), 50000)] is 29. *)
Lemma stake_100_29 :
  stake (fresh_bet MOST_VOTED 29 false) 100 = Ok (VInt 28) /\
  Z.min (100 * 29 / 100) 50000 = 29.
Proof. vm_compute. split; reflexivity. Qed.

Lemma stake_is_binary64_witness :
  stake (fresh_bet MOST_VOTED 29 false) 100 =
    Ok (VInt (Z.min (b64_stake 100 29) 50000)) /\
  100 * 29 / 100 - 1 <= b64_stake 100 29 <= 100 * 29 / 100.
Proof.
  destruct (stake_is_binary64 index_of_choice (fresh_bet MOST_VOTED 29 false)
              100 29 50000 eq_refl eq_refl) as (H1 & H2 & _).
  - vm_compute. discriminate.
  - vm_compute. discriminate.
  - split; [exact H1|]. apply H2; vm_compute; discriminate.
Defined.

(** C6, counterexample: a filter on [odds] and the decision of a new bet:
    [skip] raises [KeyError] and returns no pair. *)
Lemma skip_raises_on_new_bet :
  skip index_of_choice filtered_bet = Raise KeyError.
Proof. vm_compute. reflexivity. Qed.

Lemma skip_verdict_witness :
  decision decided_bet !! "choice" = Some (VStr "B") /\
  skip index_of_choice decided_bet = Ok (true, VFloat (111 # 100)%Q).
Proof.
  split; [vm_compute; reflexivity|].
  destruct (skip_verdict index_of_choice index_of_choice_A index_of_choice_B
              decided_bet) as (_ & _ & H).
  assert (exists verdict,
            skip index_of_choice decided_bet = Ok (verdict, VFloat (111 # 100)%Q) /\
            (verdict = false <-> holds GT (111 # 100)%Q (3 # 2)%Q))
    as (verdict & Hskip & Hiff).
  { apply (H (mkFilterCondition (VStr ODDS) (Some GT) (VFloat (3 # 2)%Q))
             GT ODDS "B" 1%nat
             (match outcomes decided_bet !! 1%nat with
              | Some o => o
              | None => ∅
              end));
      try (vm_compute; reflexivity); try discriminate.
    right. split; reflexivity. }
  rewrite Hskip. destruct verdict; [reflexivity|].
  destruct Hiff as [Hf _]. specialize (Hf eq_refl). vm_compute in Hf. discriminate.
Defined.

Lemma skip_before_calculate_raises_witness :
  filter_condition (settings filtered_bet) =
    Some (mkFilterCondition (VStr ODDS) (Some GT) (VFloat (3 # 2)%Q)) /\
  is_total_key (VStr ODDS) = false /\
  exists self,
    after_updates round_2dp filtered_bet [example_snapshots; example_snapshots]
      = Ok self /\
    skip index_of_choice self = Raise KeyError.
Proof.
  split; [reflexivity|]. split; [reflexivity|].
  eexists. split; [vm_compute; reflexivity|].
  apply (skip_before_calculate_raises index_of_choice round_2dp
           [raw_outcome "o0" "yes" "BLUE" 0 0; raw_outcome "o1" "no" "PINK" 0 0]
           (settings filtered_bet)
           (mkFilterCondition (VStr ODDS) (Some GT) (VFloat (3 # 2)%Q))
           [example_snapshots; example_snapshots]).
  - reflexivity.
  - reflexivity.
  - vm_compute. reflexivity.
Defined.

(** ** Lookups after [ingest] and [__clear_outcomes] *)

Lemma fill_zero_lookup (o : dict) key k :
  fill_zero o key !! k =
  match o !! k with
  | Some v => Some v
  | None => if decide (k = key) then Some (VInt 0) else None
  end.
Proof.
  unfold fill_zero. destruct (o !! key) eqn:Hkey.
  - destruct (o !! k) eqn:Hk; [reflexivity|].
    destruct (decide (k = key)) as [->|]; [congruence|reflexivity].
  - destruct (decide (k = key)) as [->|Hne].
    + rewrite lookup_insert_eq, Hkey. reflexivity.
    + rewrite lookup_insert_ne by congruence. destruct (o !! k); reflexivity.
Qed.

Lemma clear_outcome_kept (o : dict) k v :
  k ∈ kept_keys -> o !! k = Some v -> clear_outcome o !! k = Some v.
Proof.
  intros Hk Hv. unfold clear_outcome. simpl.
  rewrite !fill_zero_lookup.
  rewrite (map_lookup_filter_Some_2 _ o k v Hv Hk). reflexivity.
Qed.

Lemma clear_outcome_zeroed (o : dict) k :
  k ∈ zeroed_keys -> o !! k = None -> clear_outcome o !! k = Some (VInt 0).
Proof.
  intros Hk Hv. unfold clear_outcome. simpl.
  rewrite !fill_zero_lookup.
  assert (filter (fun kv : string * pyval => kv.1 ∈ kept_keys) o !! k = None) as ->.
  { apply map_lookup_filter_None. left. exact Hv. }
  unfold zeroed_keys in Hk.
  repeat (apply elem_of_cons in Hk; destruct Hk as [->|Hk]; [reflexivity|]).
  apply elem_of_nil in Hk. destruct Hk.
Qed.

(** A derived field after [__clear_outcomes]: its value, or [0] if the
    outcome did not have it. *)
Lemma clear_outcome_derived (o : dict) k :
  k ∈ [PERCENTAGE_USERS; ODDS; ODDS_PERCENTAGE] ->
  clear_outcome o !! k =
  Some (match o !! k with Some v => v | None => VInt 0 end).
Proof.
  intros Hk. destruct (o !! k) as [v|] eqn:Hv.
  - apply clear_outcome_kept; [|exact Hv].
    repeat (apply elem_of_cons in Hk; destruct Hk as [->|Hk];
            [unfold kept_keys; set_solver|]).
    apply elem_of_nil in Hk. destruct Hk.
  - apply clear_outcome_zeroed; [|exact Hv].
    repeat (apply elem_of_cons in Hk; destruct Hk as [->|Hk];
            [unfold zeroed_keys; set_solver|]).
    apply elem_of_nil in Hk. destruct Hk.
Qed.

Lemma ingest_users snap o :
  ingest snap o !! TOTAL_USERS = Some (VInt (snap_total_users snap)).
Proof.
  unfold ingest. destruct (sorted_desc (top_predictors snap));
    repeat (rewrite lookup_insert_ne by discriminate);
    apply lookup_insert_eq.
Qed.

Lemma ingest_points snap o :
  ingest snap o !! TOTAL_POINTS = Some (VInt (snap_total_points snap)).
Proof.
  unfold ingest. destruct (sorted_desc (top_predictors snap));
    repeat (rewrite lookup_insert_ne by discriminate);
    apply lookup_insert_eq.
Qed.

Lemma ingest_derived snap o k :
  k ∈ [PERCENTAGE_USERS; ODDS; ODDS_PERCENTAGE] -> ingest snap o !! k = o !! k.
Proof.
  intros Hk. unfold ingest.
  repeat (apply elem_of_cons in Hk; destruct Hk as [->|Hk];
          [destruct (sorted_desc (top_predictors snap));
           repeat (rewrite lookup_insert_ne by discriminate); reflexivity|]).
  apply elem_of_nil in Hk. destruct Hk.
Qed.

(** ** [update_outcomes] on two outcomes *)

Lemma py_truediv_int_nz a b :
  b <> 0 ->
  py_truediv (VInt a) (VInt b) =
  c ← b64_res (inject_Z a / inject_Z b); Ok (VFloat c).
Proof.
  intros Hb. unfold py_truediv.
  destruct (Z.eqb_spec b 0) as [|_]; [contradiction|reflexivity].
Qed.

Lemma py_truediv_100_float q :
  ~ (q == 0)%Q ->
  py_truediv (VInt 100) (VFloat q) = c ← b64_res (100 / q); Ok (VFloat c).
Proof.
  intros Hq. unfold py_truediv.
  change (py_float (VInt 100)) with (b64_res (inject_Z 100)).
  assert (b64_res (inject_Z 100) = Ok 100%Q) as -> by (vm_compute; reflexivity).
  cbn [mbind res_bind py_float].
  destruct (Qeq_bool q 0) eqn:E; [|reflexivity].
  apply Qeq_bool_eq in E. contradiction.
Qed.

Lemma no_zdiv_bind {A B} (m : res A) (f : A -> res B) :
  m <> Raise ZeroDivisionError ->
  (forall a, m = Ok a -> f a <> Raise ZeroDivisionError) ->
  m ≫= f <> Raise ZeroDivisionError.
Proof. destruct m as [a|e]; simpl; [auto|congruence]. Qed.

Lemma py_truediv_int_no_zdiv a b :
  b <> 0 -> py_truediv (VInt a) (VInt b) <> Raise ZeroDivisionError.
Proof.
  intros Hb. rewrite (py_truediv_int_nz a b Hb). unfold b64_res.
  destruct (b64_overflows _); discriminate.
Qed.

Lemma py_truediv_int_Ok a b v :
  b <> 0 -> py_truediv (VInt a) (VInt b) = Ok v ->
  v = VFloat (b64 (inject_Z a / inject_Z b)).
Proof.
  intros Hb. rewrite (py_truediv_int_nz a b Hb). unfold b64_res.
  destruct (b64_overflows _); simpl; congruence.
Qed.

Lemma guard_two U o0 o1 s0 s1 :
  guard (VInt U) [ingest s0 o0; ingest s1 o1] =
  Ok ((0 <? U) && (0 <? snap_total_points s0) && (0 <? snap_total_points s1)).
Proof.
  unfold guard. rewrite py_gt_int. cbn [mbind res_bind].
  destruct (0 <? U); [|reflexivity].
  cbn [list_getitem lookup list_lookup mbind res_bind].
  rewrite (proj2 (getitem_Ok _ _ _) (ingest_points s0 o0)).
  cbn [mbind res_bind]. rewrite py_gt_int. cbn [mbind res_bind].
  destruct (0 <? snap_total_points s0); [|reflexivity].
  cbn [list_getitem lookup list_lookup mbind res_bind].
  rewrite (proj2 (getitem_Ok _ _ _) (ingest_points s1 o1)).
  cbn [mbind res_bind]. rewrite py_gt_int. reflexivity.
Qed.

Section Ingest.

Variable float_round : Q -> Q.

Lemma update_outcomes_two self o0 o1 s0 s1 rest :
  outcomes self = [o0; o1] ->
  update_outcomes float_round self (s0 :: s1 :: rest) =
  let users := VInt (snap_total_users s0 + snap_total_users s1) in
  let pts := VInt (snap_total_points s0 + snap_total_points s1) in
  outs ← (if guard_holds s0 s1
          then derive_loop float_round [0; 1]%nat users pts
                 [ingest s0 o0; ingest s1 o1]
          else Ok [ingest s0 o0; ingest s1 o1]);
  Ok (mkBet (clear_outcomes outs) (decision self) users pts (settings self)).
Proof.
  intros Ho. unfold update_outcomes. rewrite Ho.
  cbn [length seq ingest_loop list_getitem lookup list_lookup mbind res_bind
       list_insert insert].
  rewrite (proj2 (getitem_Ok _ _ _) (ingest_users s0 o0)),
          (proj2 (getitem_Ok _ _ _) (ingest_users s1 o1)).
  cbn [mbind res_bind py_add].
  rewrite (proj2 (getitem_Ok _ _ _) (ingest_points s0 o0)),
          (proj2 (getitem_Ok _ _ _) (ingest_points s1 o1)).
  cbn [mbind res_bind py_add].
  rewrite guard_two. reflexivity.
Qed.

Lemma update_outcomes_short self o0 o1 snaps :
  outcomes self = [o0; o1] -> (length snaps < 2)%nat ->
  update_outcomes float_round self snaps = Raise IndexError.
Proof.
  intros Ho Hlen. unfold update_outcomes. rewrite Ho.
  destruct snaps as [|s0 [|s1 rest]]; [reflexivity|reflexivity|simpl in Hlen; lia].
Qed.

Lemma derive_ingest snap o U T :
  derive float_round (VInt U) (VInt T) (ingest snap o) =
  x ← py_truediv (VInt (100 * snap_total_users snap)) (VInt U);
  x ← call_float_round float_round x;
  y ← py_truediv (VInt T) (VInt (snap_total_points snap));
  y ← call_float_round float_round y;
  z ← py_truediv (VInt 100) y;
  z ← call_float_round float_round z;
  Ok (<[ODDS_PERCENTAGE := z]>
        (<[ODDS := y]> (<[PERCENTAGE_USERS := x]> (ingest snap o)))).
Proof.
  unfold derive.
  rewrite (proj2 (getitem_Ok _ _ _) (ingest_users snap o)).
  cbn [mbind res_bind py_mul].
  destruct (py_truediv _ (VInt U)) as [x|e]; [|reflexivity]. cbn [mbind res_bind].
  destruct (call_float_round float_round x) as [x'|e]; [|reflexivity].
  cbn [mbind res_bind].
  assert (getitem (<[PERCENTAGE_USERS := x']> (ingest snap o)) TOTAL_POINTS
          = Ok (VInt (snap_total_points snap))) as ->.
  { apply getitem_Ok. rewrite lookup_insert_ne by discriminate. apply ingest_points. }
  cbn [mbind res_bind].
  destruct (py_truediv (VInt T) _) as [y|e]; [|reflexivity]. cbn [mbind res_bind].
  destruct (call_float_round float_round y) as [y'|e]; [|reflexivity].
  cbn [mbind res_bind].
  assert (getitem (<[ODDS := y']> (<[PERCENTAGE_USERS := x']> (ingest snap o))) ODDS
          = Ok y') as ->.
  { apply getitem_Ok. apply lookup_insert_eq. }
  reflexivity.
Qed.

Lemma derive_loop_two U T d0 d1 :
  derive_loop float_round [0; 1]%nat (VInt U) (VInt T) [d0; d1] =
  x0 ← derive float_round (VInt U) (VInt T) d0;
  x1 ← derive float_round (VInt U) (VInt T) d1;
  Ok [x0; x1].
Proof.
  cbn [derive_loop list_getitem lookup list_lookup mbind res_bind].
  destruct (derive float_round (VInt U) (VInt T) d0) as [x0|e]; [|reflexivity].
  cbn [mbind res_bind list_insert insert list_getitem lookup list_lookup].
  destruct (derive float_round (VInt U) (VInt T) d1) as [x1|e]; reflexivity.
Qed.

Variable tol : Q.
Hypothesis float_round_tol :
  forall x : Q, (Qabs (float_round (b64 x) - b64 x) <= tol)%Q.
Hypothesis tol_small : (tol <= 1 # 2)%Q.

Lemma float_round_bounds x :
  (b64 x - tol <= float_round (b64 x) /\ float_round (b64 x) <= b64 x + tol)%Q.
Proof.
  pose proof (float_round_tol x) as H. apply Qabs_Qle_condition in H.
  destruct H. split; lra.
Qed.

(** The rounded odds of a side are at least one half: the quotient is at
    least one and stays so when rounded to binary64. *)
Lemma odds_lower sp T :
  0 < sp -> sp <= T ->
  (1 # 2 <= float_round (b64 (inject_Z T / inject_Z sp)))%Q.
Proof.
  intros Hsp HT.
  assert (1 <= b64 (inject_Z T / inject_Z sp))%Q as H1.
  { apply (b64_ge_int 1); [lia|].
    apply Qle_shift_div_l.
    - change 0%Q with (inject_Z 0). rewrite <- Zlt_Qlt. exact Hsp.
    - rewrite Qmult_1_l, <- Zle_Qle. exact HT. }
  destruct (float_round_bounds (inject_Z T / inject_Z sp)). lra.
Qed.

Lemma call_float_round_no_zdiv v :
  call_float_round float_round v <> Raise ZeroDivisionError.
Proof.
  unfold call_float_round, py_float, b64_res.
  destruct v; try discriminate. destruct (b64_overflows _); discriminate.
Qed.

Lemma derive_no_division_by_zero snap o U T :
  U <> 0 -> 0 < snap_total_points snap -> snap_total_points snap <= T ->
  derive float_round (VInt U) (VInt T) (ingest snap o) <> Raise ZeroDivisionError.
Proof.
  intros HU Hsp HT. rewrite derive_ingest.
  apply no_zdiv_bind; [apply py_truediv_int_no_zdiv, HU|intros x _].
  apply no_zdiv_bind; [apply call_float_round_no_zdiv|intros x' _].
  apply no_zdiv_bind; [apply py_truediv_int_no_zdiv; lia|intros y Hy].
  apply py_truediv_int_Ok in Hy; [|lia]. subst y.
  cbn [call_float_round py_float mbind res_bind].
  apply no_zdiv_bind; [|intros z _].
  - rewrite py_truediv_100_float; [unfold b64_res; destruct (b64_overflows _); discriminate|].
    pose proof (odds_lower _ T Hsp HT) as Hodds. intros E. rewrite E in Hodds.
    unfold Qle in Hodds. simpl in Hodds. lia.
  - apply no_zdiv_bind; [apply call_float_round_no_zdiv|discriminate].
Qed.

(** *** C7: the guard of the derived fields *)

(** C7. On two outcomes [update_outcomes] never raises
    [ZeroDivisionError] (the rounding helper being within [tol <= 1/2] of
    its argument): the three divisions run only when the sum of the users
    and both point totals are positive, and the odds that [100] is divided
    by are then at least one half.  When the guard fails the call succeeds
    and [percentage_users], [odds] and [odds_percentage] keep the value
    they had, [0] if they had none. *)
Theorem update_outcomes_never_divides_by_zero
    (self : Bet) (o0 o1 : dict) (snaps : list Snapshot) :
  outcomes self = [o0; o1] ->
  update_outcomes float_round self snaps <> Raise ZeroDivisionError /\
  (forall s0 s1 rest,
     snaps = s0 :: s1 :: rest -> guard_holds s0 s1 = false ->
     update_outcomes float_round self snaps =
       Ok (mkBet [clear_outcome (ingest s0 o0); clear_outcome (ingest s1 o1)]
             (decision self)
             (VInt (snap_total_users s0 + snap_total_users s1))
             (VInt (snap_total_points s0 + snap_total_points s1))
             (settings self)) /\
     forall k, k ∈ [PERCENTAGE_USERS; ODDS; ODDS_PERCENTAGE] ->
       clear_outcome (ingest s0 o0) !! k = Some (field_or_zero o0 k) /\
       clear_outcome (ingest s1 o1) !! k = Some (field_or_zero o1 k)).
Proof.
  intros Ho. split.
  - destruct snaps as [|s0 [|s1 rest]];
      try (rewrite (update_outcomes_short self o0 o1) by (simpl; auto with arith);
           discriminate).
    rewrite (update_outcomes_two self o0 o1 s0 s1 rest Ho). cbv zeta.
    destruct (guard_holds s0 s1) eqn:Hg; [|discriminate].
    unfold guard_holds in Hg.
    apply andb_prop in Hg as [Hg Hp1]. apply andb_prop in Hg as [HU Hp0].
    apply Z.ltb_lt in HU, Hp0, Hp1.
    apply no_zdiv_bind; [|discriminate].
    rewrite derive_loop_two.
    apply no_zdiv_bind; [apply derive_no_division_by_zero; lia|intros x0 _].
    apply no_zdiv_bind; [apply derive_no_division_by_zero; lia|discriminate].
  - intros s0 s1 rest -> Hg.
    rewrite (update_outcomes_two self o0 o1 s0 s1 rest Ho). cbv zeta.
    rewrite Hg. split; [reflexivity|].
    intros k Hk. unfold field_or_zero.
    rewrite !clear_outcome_derived, !ingest_derived by exact Hk.
    split; reflexivity.
Qed.

(** *** C8: the derived fields after a recomputation *)

(** The three recomputed fields of one side, as rationals. *)
Lemma derive_Ok snap o U T :
  0 < U -> 0 <= snap_total_users snap <= U ->
  0 < snap_total_points snap <= T -> T <= 2 ^ 1000 ->
  let pu := float_round (b64 (inject_Z (100 * snap_total_users snap) / inject_Z U)) in
  let od := float_round (b64 (inject_Z T / inject_Z (snap_total_points snap))) in
  let op := float_round (b64 (100 / od)) in
  derive float_round (VInt U) (VInt T) (ingest snap o) =
  Ok (<[ODDS_PERCENTAGE := VFloat op]>
        (<[ODDS := VFloat od]> (<[PERCENTAGE_USERS := VFloat pu]> (ingest snap o)))).
Proof.
  intros HU Hsu Hsp HT pu od op.
  set (su := snap_total_users snap) in *. set (sp := snap_total_points snap) in *.
  assert (0 < inject_Z U)%Q as HUq
    by (change 0%Q with (inject_Z 0); rewrite <- Zlt_Qlt; exact HU).
  assert (0 < inject_Z sp)%Q as Hspq
    by (change 0%Q with (inject_Z 0); rewrite <- Zlt_Qlt; lia).
  rewrite derive_ingest. fold su sp.
  rewrite (py_truediv_int (100 * su) U); [|lia|].
  2:{ apply (Qle_trans _ 100); [|vm_compute; discriminate].
      rewrite Qabs_pos.
      - apply Qle_shift_div_r; [exact HUq|].
        change 100%Q with (inject_Z 100). rewrite <- inject_Z_mult, <- Zle_Qle. lia.
      - apply Qle_shift_div_l; [exact HUq|]. rewrite Qmult_0_l.
        change 0%Q with (inject_Z 0). rewrite <- Zle_Qle. lia. }
  cbn [mbind res_bind call_float_round py_float].
  rewrite (py_truediv_int T sp); [|lia|].
  2:{ apply (Qle_trans _ (2 ^ 1000)%Q); [|apply Qpow2_le; lia].
      rewrite <- Qpow2_inject by lia.
      rewrite Qabs_pos.
      - apply Qle_shift_div_r; [exact Hspq|].
        rewrite <- inject_Z_mult, <- Zle_Qle.
        pose proof (pow2_gt0 1000 ltac:(lia)). nia.
      - apply Qle_shift_div_l; [exact Hspq|]. rewrite Qmult_0_l.
        change 0%Q with (inject_Z 0). rewrite <- Zle_Qle. lia. }
  cbn [mbind res_bind call_float_round py_float]. fold od.
  pose proof (odds_lower sp T ltac:(lia) ltac:(lia)) as Hod. fold od in Hod.
  rewrite py_truediv_100_float.
  2:{ intros E. rewrite E in Hod. unfold Qle in Hod. simpl in Hod. lia. }
  rewrite b64_res_finite.
  - reflexivity.
  - apply (Qle_trans _ 200); [|vm_compute; discriminate].
    assert (0 < od)%Q as Hod0 by lra.
    rewrite Qabs_pos.
    + apply Qle_shift_div_r; [exact Hod0|]. lra.
    + apply Qle_shift_div_l; [exact Hod0|]. lra.
Qed.

Lemma round_error_abs x n :
  0 <= n -> (Qabs x <= 2 ^ n)%Q ->
  (Qabs (float_round (b64 x) - x) <= tol + 2 ^ (n - 53))%Q.
Proof.
  intros Hn Hx.
  assert (float_round (b64 x) - x == (float_round (b64 x) - b64 x) + (b64 x - x))%Q
    as -> by ring.
  eapply Qle_trans; [apply Qabs_triangle|].
  apply Qplus_le_compat; [apply float_round_tol|apply b64_err_abs; assumption].
Qed.

Lemma round_error_rel x :
  (1 <= x)%Q -> (Qabs (float_round (b64 x) - x) <= tol + x * 2 ^ (-53))%Q.
Proof.
  intros Hx.
  assert (float_round (b64 x) - x == (float_round (b64 x) - b64 x) + (b64 x - x))%Q
    as -> by ring.
  eapply Qle_trans; [apply Qabs_triangle|].
  apply Qplus_le_compat; [apply float_round_tol|].
  assert (Qabs x == x)%Q as Ea by (apply Qabs_pos; lra).
  eapply Qle_trans; [apply b64_err_rel|rewrite Ea; apply Qle_refl].
  rewrite Ea. eapply Qle_trans; [|exact Hx]. vm_compute. discriminate.
Qed.

Lemma odds_times_points sp total :
  0 < sp -> sp <= total ->
  (Qabs (float_round (b64 (inject_Z total / inject_Z sp)) * inject_Z sp
         - inject_Z total)
   <= inject_Z sp * tol + inject_Z total * 2 ^ (-53))%Q.
Proof.
  intros Hsp Htot.
  assert (0 < inject_Z sp)%Q as Hq
    by (change 0%Q with (inject_Z 0); rewrite <- Zlt_Qlt; exact Hsp).
  assert (~ inject_Z sp == 0)%Q as Hne by (intros E; rewrite E in Hq; exact (Qlt_irrefl _ Hq)).
  set (y := (inject_Z total / inject_Z sp)%Q).
  assert (1 <= y)%Q as Hy.
  { apply Qle_shift_div_l; [exact Hq|]. rewrite Qmult_1_l, <- Zle_Qle. exact Htot. }
  pose proof (round_error_rel y Hy) as B.
  set (od := float_round (b64 y)) in *.
  assert (od * inject_Z sp - inject_Z total == (od - y) * inject_Z sp)%Q as ->
    by (unfold y; field; exact Hne).
  rewrite Qabs_Qmult, (Qabs_pos (inject_Z sp)) by (apply Qlt_le_weak; exact Hq).
  assert (inject_Z sp * tol + inject_Z total * 2 ^ (-53)
          == (tol + y * 2 ^ (-53)) * inject_Z sp)%Q as ->
    by (unfold y; field; exact Hne).
  apply Qmult_le_compat_r; [exact B|apply Qlt_le_weak; exact Hq].
Qed.

(** C8. After an [update_outcomes] whose guard holds (user counts not
    negative, point totals below [2^1000]), with a rounding helper within
    [tol] of its argument: the two [percentage_users] add up to 100 within
    [2 tol + 2^-45]; [odds * total_points] of a side is the total of the
    event within [total_points * tol + total * 2^-53]; and
    [odds_percentage] is [100 / odds] within [tol + 2^-45]. *)
Theorem derived_fields_within_tolerance
    (self : Bet) (o0 o1 : dict) (s0 s1 : Snapshot) :
  outcomes self = [o0; o1] ->
  guard_holds s0 s1 = true ->
  0 <= snap_total_users s0 -> 0 <= snap_total_users s1 ->
  snap_total_points s0 + snap_total_points s1 <= 2 ^ 1000 ->
  let total := snap_total_points s0 + snap_total_points s1 in
  exists o0' o1' pu0 pu1 od0 od1 op0 op1,
    update_outcomes float_round self [s0; s1] =
      Ok (mkBet [o0'; o1'] (decision self)
            (VInt (snap_total_users s0 + snap_total_users s1))
            (VInt total) (settings self)) /\
    (o0' !! PERCENTAGE_USERS = Some (VFloat pu0) /\
     o0' !! ODDS = Some (VFloat od0) /\
     o0' !! ODDS_PERCENTAGE = Some (VFloat op0) /\
     o0' !! TOTAL_POINTS = Some (VInt (snap_total_points s0))) /\
    (o1' !! PERCENTAGE_USERS = Some (VFloat pu1) /\
     o1' !! ODDS = Some (VFloat od1) /\
     o1' !! ODDS_PERCENTAGE = Some (VFloat op1) /\
     o1' !! TOTAL_POINTS = Some (VInt (snap_total_points s1))) /\
    (Qabs (pu0 + pu1 - 100) <= 2 * tol + 2 ^ (-45))%Q /\
    (Qabs (od0 * inject_Z (snap_total_points s0) - inject_Z total)
       <= inject_Z (snap_total_points s0) * tol + inject_Z total * 2 ^ (-53))%Q /\
    (Qabs (od1 * inject_Z (snap_total_points s1) - inject_Z total)
       <= inject_Z (snap_total_points s1) * tol + inject_Z total * 2 ^ (-53))%Q /\
    (Qabs (op0 - 100 / od0) <= tol + 2 ^ (-45))%Q /\
    (Qabs (op1 - 100 / od1) <= tol + 2 ^ (-45))%Q.
Proof.
  intros Ho Hg Hu0 Hu1 HT total.
  unfold guard_holds in Hg.
  apply andb_prop in Hg as [Hg Hp1]. apply andb_prop in Hg as [HU Hp0].
  apply Z.ltb_lt in HU, Hp0, Hp1.
  set (su0 := snap_total_users s0) in *. set (su1 := snap_total_users s1) in *.
  set (sp0 := snap_total_points s0) in *. set (sp1 := snap_total_points s1) in *.
  set (U := su0 + su1) in *.
  pose proof (derive_Ok s0 o0 U total HU ltac:(fold su0; lia)
                ltac:(fold sp0; unfold total; lia) HT) as D0.
  pose proof (derive_Ok s1 o1 U total HU ltac:(fold su1; lia)
                ltac:(fold sp1; unfold total; lia) HT) as D1.
  cbv zeta in D0, D1. fold su0 sp0 in D0. fold su1 sp1 in D1.
  set (x0 := (inject_Z (100 * su0) / inject_Z U)%Q) in *.
  set (x1 := (inject_Z (100 * su1) / inject_Z U)%Q) in *.
  set (y0 := (inject_Z total / inject_Z sp0)%Q) in *.
  set (y1 := (inject_Z total / inject_Z sp1)%Q) in *.
  set (pu0 := float_round (b64 x0)) in *. set (pu1 := float_round (b64 x1)) in *.
  set (od0 := float_round (b64 y0)) in *. set (od1 := float_round (b64 y1)) in *.
  set (op0 := float_round (b64 (100 / od0))) in *.
  set (op1 := float_round (b64 (100 / od1))) in *.
  eexists _, _, pu0, pu1, od0, od1, op0, op1.
  split.
  { rewrite (update_outcomes_two self o0 o1 s0 s1 [] Ho). cbv zeta.
    unfold guard_holds. fold su0 su1 sp0 sp1 U total.
    rewrite (proj2 (Z.ltb_lt _ _) HU), (proj2 (Z.ltb_lt _ _) Hp0),
            (proj2 (Z.ltb_lt _ _) Hp1).
    cbn [andb]. rewrite derive_loop_two, D0, D1. reflexivity. }
  assert (forall (d : dict) k v, k ∈ kept_keys -> d !! k = Some v ->
                   clear_outcome d !! k = Some v) as Hkept
    by (intros; apply clear_outcome_kept; assumption).
  split; [|split].
  { repeat split; apply Hkept; try (unfold kept_keys; set_solver);
      repeat (rewrite lookup_insert_ne by discriminate);
      first [apply lookup_insert_eq | apply ingest_points]. }
  { repeat split; apply Hkept; try (unfold kept_keys; set_solver);
      repeat (rewrite lookup_insert_ne by discriminate);
      first [apply lookup_insert_eq | apply ingest_points]. }
  assert (0 < inject_Z U)%Q as HUq
    by (change 0%Q with (inject_Z 0); rewrite <- Zlt_Qlt; exact HU).
  assert (0 < inject_Z sp0)%Q as Hsp0q
    by (change 0%Q with (inject_Z 0); rewrite <- Zlt_Qlt; exact Hp0).
  assert (0 < inject_Z sp1)%Q as Hsp1q
    by (change 0%Q with (inject_Z 0); rewrite <- Zlt_Qlt; exact Hp1).
  assert (inject_Z total == inject_Z sp0 + inject_Z sp1)%Q as Etot
    by (unfold total; rewrite inject_Z_plus; reflexivity).
  assert (forall su, 0 <= su <= U ->
            (0 <= inject_Z (100 * su) / inject_Z U <= 100)%Q) as Hx.
  { intros su Hsu. split.
    - apply Qle_shift_div_l; [exact HUq|]. rewrite Qmult_0_l.
      change 0%Q with (inject_Z 0). rewrite <- Zle_Qle. lia.
    - apply Qle_shift_div_r; [exact HUq|].
      change 100%Q with (inject_Z 100). rewrite <- inject_Z_mult, <- Zle_Qle. lia. }
  assert (forall sp, 0 < sp <= total -> (0 < inject_Z sp)%Q ->
            (1 <= inject_Z total / inject_Z sp)%Q) as Hy.
  { intros sp Hsp Hq. apply Qle_shift_div_l; [exact Hq|].
    rewrite Qmult_1_l, <- Zle_Qle. lia. }
  assert (forall od, (1 # 2 <= od)%Q -> (Qabs (100 / od) <= 2 ^ 8)%Q) as Hz.
  { intros od Hod. assert (0 < od)%Q by lra.
    apply (Qle_trans _ 200); [|vm_compute; discriminate].
    rewrite Qabs_pos.
    - apply Qle_shift_div_r; [assumption|]. lra.
    - apply Qle_shift_div_l; [assumption|]. lra. }
  pose proof (odds_lower sp0 total Hp0 ltac:(unfold total; lia)) as Hod0.
  pose proof (odds_lower sp1 total Hp1 ltac:(unfold total; lia)) as Hod1.
  fold y0 od0 in Hod0. fold y1 od1 in Hod1.
  assert (2 ^ (7 - 53) == 1 # 70368744177664)%Q as E46 by reflexivity.
  assert (2 ^ (8 - 53) == 1 # 35184372088832)%Q as E45 by reflexivity.
  assert (2 ^ (-45) == 1 # 35184372088832)%Q as E45' by reflexivity.
  split; [|split; [|split; [|split]]].
  - destruct (Hx su0 ltac:(lia)) as [Hx00 Hx01]. destruct (Hx su1 ltac:(lia)) as [Hx10 Hx11].
    fold x0 in Hx00, Hx01. fold x1 in Hx10, Hx11.
    pose proof (round_error_abs x0 7 ltac:(lia)) as B0.
    pose proof (round_error_abs x1 7 ltac:(lia)) as B1.
    fold pu0 in B0. fold pu1 in B1.
    assert (x0 + x1 == 100)%Q as Esum.
    { unfold x0, x1, U. rewrite !inject_Z_mult, inject_Z_plus.
      change (inject_Z 100) with 100%Q. field.
      rewrite <- inject_Z_plus. intros E. fold U in E. rewrite E in HUq.
      exact (Qlt_irrefl _ HUq). }
    rewrite E46 in B0, B1. rewrite E45'.
    assert (Qabs x0 <= 2 ^ 7)%Q as A0
      by (rewrite Qabs_pos by exact Hx00; eapply Qle_trans; [exact Hx01|vm_compute; discriminate]).
    assert (Qabs x1 <= 2 ^ 7)%Q as A1
      by (rewrite Qabs_pos by exact Hx10; eapply Qle_trans; [exact Hx11|vm_compute; discriminate]).
    specialize (B0 A0). specialize (B1 A1).
    apply Qabs_Qle_condition in B0, B1. apply Qabs_Qle_condition.
    destruct B0, B1. split; lra.
  - apply odds_times_points; [exact Hp0|unfold total; lia].
  - apply odds_times_points; [exact Hp1|unfold total; lia].
  - pose proof (round_error_abs (100 / od0) 8 ltac:(lia) (Hz od0 Hod0)) as B.
    fold op0 in B. rewrite E45 in B. rewrite E45'. exact B.
  - pose proof (round_error_abs (100 / od1) 8 ltac:(lia) (Hz od1 Hod1)) as B.
    fold op1 in B. rewrite E45 in B. rewrite E45'. exact B.
Qed.

End Ingest.

(** ** The ingest claims at a concrete input *)

Lemma round_2dp_tol x : (Qabs (round_2dp x - x) <= 1 # 200)%Q.
Proof.
  destruct x as [n d]. unfold round_2dp. cbn [Qnum Qden].
  pose proof (rne_div_near (n * 100) (Z.pos d) ltac:(lia)) as H.
  set (m := rne_div (n * 100) (Z.pos d)) in *.
  apply Qabs_Qle_condition.
  unfold Qle, Qminus, Qplus, Qopp; simpl.
  rewrite ?Pos2Z.inj_mul. split; lia.
Qed.

Lemma update_outcomes_never_divides_by_zero_witness :
  (forall x, (Qabs (round_2dp (b64 x) - b64 x) <= 1 # 200)%Q) /\
  update_outcomes round_2dp filtered_bet example_snapshots
    <> Raise ZeroDivisionError.
Proof.
  split; [intros x; apply round_2dp_tol|].
  apply (update_outcomes_never_divides_by_zero round_2dp (1 # 200)%Q
           (fun x => round_2dp_tol (b64 x)) ltac:(vm_compute; discriminate)
           filtered_bet
           (clear_outcome (raw_outcome "o0" "yes" "BLUE" 0 0))
           (clear_outcome (raw_outcome "o1" "no" "PINK" 0 0))
           example_snapshots eq_refl).
Defined.

Lemma derived_fields_within_tolerance_witness :
  guard_holds (mkSnapshot 10 1000 [mkPredictor 300; mkPredictor 4000; mkPredictor 5])
              (mkSnapshot 90 9000 [mkPredictor 100; mkPredictor 2500]) = true /\
  exists o0' o1' pu0 pu1,
    update_outcomes round_2dp filtered_bet
      [mkSnapshot 10 1000 [mkPredictor 300; mkPredictor 4000; mkPredictor 5];
       mkSnapshot 90 9000 [mkPredictor 100; mkPredictor 2500]] =
      Ok (mkBet [o0'; o1'] (decision filtered_bet) (VInt (10 + 90))
            (VInt (1000 + 9000)) (settings filtered_bet)) /\
    o0' !! PERCENTAGE_USERS = Some (VFloat pu0) /\
    o1' !! PERCENTAGE_USERS = Some (VFloat pu1) /\
    (Qabs (pu0 + pu1 - 100) <= 2 * (1 # 200) + 2 ^ (-45))%Q.
Proof.
  split; [reflexivity|].
  destruct (derived_fields_within_tolerance round_2dp (1 # 200)%Q
              (fun x => round_2dp_tol (b64 x)) ltac:(vm_compute; discriminate)
              filtered_bet
              (clear_outcome (raw_outcome "o0" "yes" "BLUE" 0 0))
              (clear_outcome (raw_outcome "o1" "no" "PINK" 0 0))
              (mkSnapshot 10 1000 [mkPredictor 300; mkPredictor 4000; mkPredictor 5])
              (mkSnapshot 90 9000 [mkPredictor 100; mkPredictor 2500])
              eq_refl eq_refl ltac:(simpl; lia) ltac:(simpl; lia)
              ltac:(vm_compute; discriminate))
    as (o0' & o1' & pu0 & pu1 & od0 & od1 & op0 & op1 & Hup & H0 & H1 & Hsum & _).
  exists o0', o1', pu0, pu1.
  split; [exact Hup|]. split; [exact (proj1 H0)|]. split; [exact (proj1 H1)|].
  exact Hsum.
Defined.

(** ** Well-formed outcomes *)

Lemma insert_desc_In p l x : In x (insert_desc p l) -> x = p \/ In x l.
Proof.
  induction l as [|y l IH]; simpl.
  - intros [<-|[]]. left. reflexivity.
  - destruct (points y <=? points p); simpl.
    + intros [<-|[<-|H]]; auto.
    + intros [<-|H]; [auto|]. destruct (IH H); auto.
Qed.

Lemma sorted_desc_In l x : In x (sorted_desc l) -> In x l.
Proof.
  induction l as [|p l IH]; simpl; [auto|].
  intros H. apply insert_desc_In in H. destruct H; auto.
Qed.

Lemma ingest_other snap o k :
  k <> TOTAL_USERS -> k <> TOTAL_POINTS -> k <> TOP_POINTS ->
  ingest snap o !! k = o !! k.
Proof.
  intros H1 H2 H3. unfold ingest.
  destruct (sorted_desc (top_predictors snap));
    repeat (rewrite lookup_insert_ne by congruence); reflexivity.
Qed.

Lemma ingest_top snap o t :
  o !! TOP_POINTS = Some (VInt t) ->
  exists t', ingest snap o !! TOP_POINTS = Some (VInt t') /\
             (t' = t \/ exists p, In p (top_predictors snap) /\ t' = points p).
Proof.
  intros Ht. unfold ingest.
  destruct (sorted_desc (top_predictors snap)) as [|p l] eqn:E.
  - exists t. split; [|auto].
    repeat (rewrite lookup_insert_ne by discriminate). exact Ht.
  - exists (points p). split; [apply lookup_insert_eq|].
    right. exists p. split; [|reflexivity].
    apply sorted_desc_In. rewrite E. left. reflexivity.
Qed.

Lemma raw_outcome_well_formed id title color users pts :
  well_formed_outcome (clear_outcome (raw_outcome id title color users pts)).
Proof.
  split; [|split; [|split]].
  - exists users. vm_compute. reflexivity.
  - exists 0. split; [vm_compute; reflexivity|vm_compute; discriminate].
  - intros k Hk. exists (VInt 0), 0%Q.
    repeat (apply elem_of_cons in Hk; destruct Hk as [->|Hk];
            [split; [vm_compute; reflexivity|split; [reflexivity|vm_compute; discriminate]]|]).
    apply elem_of_nil in Hk. destruct Hk.
  - exists (VStr id). vm_compute. reflexivity.
Qed.

(** What [__clear_outcomes] needs of an outcome to leave it well formed. *)
Lemma clear_outcome_well_formed (o : dict) u t :
  o !! TOTAL_USERS = Some (VInt u) ->
  o !! TOP_POINTS = Some (VInt t) -> Z.abs t <= 2 ^ 500 ->
  (forall k, k ∈ [PERCENTAGE_USERS; ODDS; ODDS_PERCENTAGE] ->
     exists v q, o !! k = Some v /\ num_val v = Some q /\ (Qabs q <= 2 ^ 500)%Q) ->
  is_Some (o !! "id") ->
  well_formed_outcome (clear_outcome o).
Proof.
  intros Hu Ht Htb Hd (id & Hid).
  assert (forall k v, k ∈ kept_keys -> o !! k = Some v ->
                      clear_outcome o !! k = Some v) as Hkept
    by (intros; apply clear_outcome_kept; assumption).
  split; [|split; [|split]].
  - exists u. apply Hkept; [apply list_elem_of_In; simpl; tauto|exact Hu].
  - exists t. split; [|exact Htb].
    apply Hkept; [apply list_elem_of_In; simpl; tauto|exact Ht].
  - intros k Hk. destruct (Hd k Hk) as (v & q & Hv & Hq & Hb).
    exists v, q. split; [|split; assumption].
    apply Hkept; [|exact Hv].
    apply list_elem_of_In. apply list_elem_of_In in Hk. simpl in *. tauto.
  - exists id. apply Hkept; [apply list_elem_of_In; simpl; tauto|exact Hid].
Qed.

Lemma ingest_well_formed snap o :
  well_formed_outcome o ->
  (forall p, In p (top_predictors snap) -> Z.abs (points p) <= 2 ^ 500) ->
  well_formed_outcome (ingest snap o).
Proof.
  intros (Hu & (t & Ht & Htb) & Hd & Hid) Hp.
  split; [|split; [|split]].
  - exists (snap_total_users snap). apply ingest_users.
  - destruct (ingest_top snap o t Ht) as (t' & Ht' & [->|(p & Hin & ->)]).
    + exists t. split; assumption.
    + exists (points p). split; [exact Ht'|apply Hp, Hin].
  - intros k Hk. rewrite (ingest_derived snap o k Hk). apply Hd, Hk.
  - rewrite ingest_other by discriminate. exact Hid.
Qed.

Lemma derived_well_formed (d : dict) pu od op :
  well_formed_outcome d ->
  (Qabs pu <= 2 ^ 500)%Q -> (Qabs od <= 2 ^ 500)%Q -> (Qabs op <= 2 ^ 500)%Q ->
  well_formed_outcome
    (<[ODDS_PERCENTAGE := VFloat op]>
       (<[ODDS := VFloat od]> (<[PERCENTAGE_USERS := VFloat pu]> d))).
Proof.
  intros ((u & Hu) & (t & Ht & Htb) & _ & Hid) Hpu Hod Hop.
  split; [|split; [|split]].
  - exists u. repeat (rewrite lookup_insert_ne by discriminate). exact Hu.
  - exists t. split; [|exact Htb].
    repeat (rewrite lookup_insert_ne by discriminate). exact Ht.
  - intros k Hk.
    apply elem_of_cons in Hk. destruct Hk as [->|Hk].
    { exists (VFloat pu), pu. split; [|split; [reflexivity|exact Hpu]].
      repeat (rewrite lookup_insert_ne by discriminate). apply lookup_insert_eq. }
    apply elem_of_cons in Hk. destruct Hk as [->|Hk].
    { exists (VFloat od), od. split; [|split; [reflexivity|exact Hod]].
      repeat (rewrite lookup_insert_ne by discriminate). apply lookup_insert_eq. }
    apply elem_of_cons in Hk. destruct Hk as [->|Hk].
    { exists (VFloat op), op. split; [|split; [reflexivity|exact Hop]].
      apply lookup_insert_eq. }
    apply elem_of_nil in Hk. destruct Hk.
  - repeat (rewrite lookup_insert_ne by discriminate). exact Hid.
Qed.

Lemma clear_outcome_preserves (o : dict) :
  well_formed_outcome o -> well_formed_outcome (clear_outcome o).
Proof.
  intros ((u & Hu) & (t & Ht & Htb) & Hd & Hid).
  exact (clear_outcome_well_formed o u t Hu Ht Htb Hd Hid).
Qed.

Section Invariant.

Variable float_round : Q -> Q.
Variable tol : Q.
Hypothesis float_round_tol :
  forall x, (Qabs (float_round (b64 x) - b64 x) <= tol)%Q.
Hypothesis tol_small : (tol <= 1 # 2)%Q.

Lemma float_round_abs x n :
  0 <= n <= 498 -> (Qabs x <= 2 ^ n)%Q ->
  (Qabs (float_round (b64 x)) <= 2 ^ 500)%Q.
Proof.
  intros Hn Hx.
  pose proof (b64_abs_bound x n (proj1 Hn) Hx) as Hb.
  pose proof (float_round_tol x) as Ht.
  assert (float_round (b64 x) == (float_round (b64 x) - b64 x) + b64 x)%Q
    as -> by ring.
  eapply Qle_trans; [apply Qabs_triangle|].
  assert (2 ^ (n + 1) <= 2 ^ 499)%Q as H1 by (apply Qpow2_le; lia).
  assert (1 <= 2 ^ 499)%Q as H2 by (apply (Qpow2_le 0 499); lia).
  assert (2 ^ 500 == 2 ^ 499 + 2 ^ 499)%Q as ->.
  { change 500 with (499 + 1). rewrite Qpow2_add. change (2 ^ 1)%Q with 2%Q. ring. }
  lra.
Qed.

(** [update_outcomes] on two sides keeps the outcomes well formed: the
    state [calculate] is run on always has the fields it reads. *)
Lemma update_outcomes_well_formed (self : Bet) (o0 o1 : dict) (s0 s1 : Snapshot) :
  outcomes self = [o0; o1] ->
  well_formed_outcome o0 -> well_formed_outcome o1 ->
  0 <= snap_total_users s0 -> 0 <= snap_total_users s1 ->
  snap_total_points s0 + snap_total_points s1 <= 2 ^ 400 ->
  (forall p, In p (top_predictors s0 ++ top_predictors s1) ->
             Z.abs (points p) <= 2 ^ 500) ->
  exists o0' o1',
    update_outcomes float_round self [s0; s1] =
      Ok (mkBet [o0'; o1'] (decision self)
            (VInt (snap_total_users s0 + snap_total_users s1))
            (VInt (snap_total_points s0 + snap_total_points s1))
            (settings self)) /\
    well_formed_outcome o0' /\ well_formed_outcome o1'.
Proof.
  intros Ho W0 W1 Hu0 Hu1 HT Hp.
  assert (well_formed_outcome (ingest s0 o0)) as I0
    by (apply ingest_well_formed; [exact W0|intros; apply Hp, in_or_app; auto]).
  assert (well_formed_outcome (ingest s1 o1)) as I1
    by (apply ingest_well_formed; [exact W1|intros; apply Hp, in_or_app; auto]).
  rewrite (update_outcomes_two float_round self o0 o1 s0 s1 [] Ho).
  cbv zeta.
  destruct (guard_holds s0 s1) eqn:G.
  - unfold guard_holds in G.
    apply andb_prop in G. destruct G as [G G2].
    apply andb_prop in G. destruct G as [G0 G1].
    apply Z.ltb_lt in G0, G1, G2.
    set (U := snap_total_users s0 + snap_total_users s1) in *.
    set (T := snap_total_points s0 + snap_total_points s1) in *.
    assert (T <= 2 ^ 1000) as HT' by (etransitivity; [exact HT|apply Z.pow_le_mono_r; lia]).
    rewrite (derive_loop_two float_round U T).
    rewrite (derive_Ok float_round tol float_round_tol tol_small s0 o0 U T)
      by (unfold U, T; lia).
    cbn [mbind res_bind].
    rewrite (derive_Ok float_round tol float_round_tol tol_small s1 o1 U T)
      by (unfold U, T; lia).
    cbn [mbind res_bind clear_outcomes fmap list_fmap].
    eexists _, _. split; [reflexivity|].
    assert (forall su, 0 <= su <= U ->
              (Qabs (inject_Z (100 * su) / inject_Z U) <= 2 ^ 7)%Q) as Bpu.
    { intros su Hsu.
      assert (0 < inject_Z U)%Q
        by (change 0%Q with (inject_Z 0); rewrite <- Zlt_Qlt; exact G0).
      rewrite Qabs_pos.
      - apply Qle_shift_div_r; [assumption|].
        change (2 ^ 7)%Q with (inject_Z 128). rewrite <- inject_Z_mult, <- Zle_Qle. lia.
      - apply Qle_shift_div_l; [assumption|].
        rewrite Qmult_0_l. change 0%Q with (inject_Z 0). rewrite <- Zle_Qle. lia. }
    assert (forall sp, 0 < sp <= T ->
              (Qabs (inject_Z T / inject_Z sp) <= 2 ^ 400)%Q) as Bod.
    { intros sp Hsp.
      assert (0 < inject_Z sp)%Q
        by (change 0%Q with (inject_Z 0); rewrite <- Zlt_Qlt; lia).
      rewrite Qabs_pos.
      - apply Qle_shift_div_r; [assumption|].
        rewrite <- (Qpow2_inject 400) by lia.
        rewrite <- inject_Z_mult, <- Zle_Qle. nia.
      - apply Qle_shift_div_l; [assumption|].
        rewrite Qmult_0_l. change 0%Q with (inject_Z 0). rewrite <- Zle_Qle. lia. }
    assert (forall sp, 0 < sp <= T ->
              (Qabs (100 / float_round (b64 (inject_Z T / inject_Z sp))) <= 2 ^ 8)%Q)
      as Bop.
    { intros sp Hsp.
      pose proof (odds_lower float_round tol float_round_tol tol_small sp T
                    (proj1 Hsp) (proj2 Hsp)) as Hl.
      set (od := float_round (b64 (inject_Z T / inject_Z sp))) in *.
      assert (0 < od)%Q by lra.
      rewrite Qabs_pos.
      - apply Qle_shift_div_r; [assumption|].
        change (2 ^ 8)%Q with 256%Q. lra.
      - apply Qle_shift_div_l; [assumption|]. lra. }
    split; apply clear_outcome_preserves, derived_well_formed; try assumption.
    all: try (apply (float_round_abs _ 7); [lia|apply Bpu; unfold U; lia]).
    all: try (apply (float_round_abs _ 400); [lia|apply Bod; unfold T; lia]).
    all: apply (float_round_abs _ 8); [lia|apply Bop; unfold T; lia].
  - cbn [mbind res_bind clear_outcomes fmap list_fmap].
    eexists _, _. split; [reflexivity|].
    split; apply clear_outcome_preserves; assumption.
Qed.

End Invariant.

(** A bet built by the constructor from two raw outcomes is well formed,
    and by [update_outcomes_well_formed] it stays so. *)
Lemma Bet_new_well_formed id0 title0 color0 users0 pts0
    id1 title1 color1 users1 pts1 st :
  exists o0 o1,
    outcomes (Bet_new [raw_outcome id0 title0 color0 users0 pts0;
                       raw_outcome id1 title1 color1 users1 pts1] st) = [o0; o1] /\
    well_formed_outcome o0 /\ well_formed_outcome o1.
Proof.
  eexists _, _. split; [reflexivity|].
  split; apply raw_outcome_well_formed.
Qed.

(** * Further properties of the code *)

(** ** The structural forms of [FilterCondition] and [BetSettings] *)

Lemma attrs_name_cases (name b : string) :
  In (name, b) OutcomeKeys.attrs ->
  OutcomeKeys.search (VStr b) = VStr name /\
  OutcomeKeys.getattr (VStr name) = Ok (VStr b).
Proof.
  simpl. intros H.
  repeat (destruct H as [H|H]; [inversion H; subst; split; vm_compute; reflexivity|]).
  destruct H.
Qed.



Lemma Condition_getitem_name (w : Condition) :
  Condition_getitem (VStr (Condition_name w)) = Ok w.
Proof. destruct w; reflexivity. Qed.

Lemma from_dict_of_entries (data : dict) name b w v :
  data !! "by" = Some (VStr name) -> In (name, b) OutcomeKeys.attrs ->
  data !! "where" = Some (VStr (Condition_name w)) ->
  data !! "value" = Some v ->
  FilterCondition_.from_dict data = Ok (mkFilterCondition (VStr b) (Some w) v).
Proof.
  intros Hb Hin Hw Hv. unfold FilterCondition_.from_dict.
  rewrite (proj2 (getitem_Ok _ _ _) Hb). cbn [mbind res_bind].
  rewrite (proj2 (attrs_name_cases name b Hin)). cbn [mbind res_bind].
  rewrite (proj2 (getitem_Ok _ _ _) Hw). cbn [mbind res_bind].
  rewrite Condition_getitem_name. cbn [mbind res_bind].
  rewrite (proj2 (getitem_Ok _ _ _) Hv). reflexivity.
Qed.


(** X2. The stored form is stable: a dictionary with the name of a constant
    of [OutcomeKeys] under ["by"], the name of a condition under ["where"]
    and a value under ["value"] is read by [from_dict] into a condition
    whose [to_dict] is that dictionary again. *)
Theorem FilterCondition_to_dict_from_dict
    (name b : string) (w : Condition) (v : pyval) :
  In (name, b) OutcomeKeys.attrs ->
  let data : dict :=
    <["by" := VStr name]>
      (<["where" := VStr (Condition_name w)]> (<["value" := v]> ∅)) in
  FilterCondition_.from_dict data ≫= FilterCondition_.to_dict = Ok data.
Proof.
  intros Hin data.
  assert (FilterCondition_.from_dict data
          = Ok (mkFilterCondition (VStr b) (Some w) v)) as ->.
  { apply (from_dict_of_entries data name b w v); [|exact Hin| |]; reflexivity. }
  cbn [mbind res_bind]. unfold FilterCondition_.to_dict. cbn [where_ by_ value].
  rewrite (proj1 (attrs_name_cases name b Hin)). reflexivity.
Qed.

Lemma search_undefined (b : string) :
  ~ In b (map snd OutcomeKeys.attrs) -> OutcomeKeys.search (VStr b) = VNone.
Proof.
  intros Hb. unfold OutcomeKeys.search.
  destruct (List.find _ _) as [[name b']|] eqn:E; [|reflexivity].
  apply find_some in E. destruct E as [Hin Heq]. simpl in Heq.
  apply String.eqb_eq in Heq. subst b'.
  exfalso. apply Hb. apply (in_map snd) in Hin. exact Hin.
Qed.

Lemma search_defined (b : string) :
  In b (map snd OutcomeKeys.attrs) ->
  exists name, In (name, b) OutcomeKeys.attrs /\
               OutcomeKeys.search (VStr b) = VStr name.
Proof.
  intros Hb. apply in_map_iff in Hb. destruct Hb as ([name b'] & Hs & Hin).
  simpl in Hs. subst b'. exists name. split; [exact Hin|].
  apply attrs_name_cases, Hin.
Qed.

Lemma FilterCondition_to_dict_then_from_dict b w v :
  In b (map snd OutcomeKeys.attrs) ->
  exists d, FilterCondition_.to_dict (mkFilterCondition (VStr b) (Some w) v) = Ok d /\
            FilterCondition_.from_dict d = Ok (mkFilterCondition (VStr b) (Some w) v).
Proof.
  intros Hb. destruct (search_defined b Hb) as (name & Hin & Hs).
  unfold FilterCondition_.to_dict. cbn [where_ by_ value]. rewrite Hs.
  eexists. split; [reflexivity|].
  apply (from_dict_of_entries _ name b w v); [|exact Hin| |]; reflexivity.
Qed.

(** X3. A condition on a metric that is not the value of a constant of
    [OutcomeKeys] can be stored but not read back: [to_dict] stores [None]
    under ["by"] (the search finds no constant), and [from_dict] raises
    [TypeError] on it. *)
Theorem FilterCondition_undefined_by (b : string) (w : Condition) (v : pyval) :
  ~ In b (map snd OutcomeKeys.attrs) ->
  (exists d, FilterCondition_.to_dict (mkFilterCondition (VStr b) (Some w) v) = Ok d /\
             d !! "by" = Some VNone) /\
  FilterCondition_.to_dict (mkFilterCondition (VStr b) (Some w) v)
    ≫= FilterCondition_.from_dict = Raise TypeError.
Proof.
  intros Hb. unfold FilterCondition_.to_dict. cbn [where_ by_ value].
  rewrite (search_undefined b Hb). split.
  - eexists. split; [reflexivity|]. apply lookup_insert_eq.
  - reflexivity.
Qed.

Lemma FilterCondition_undefined_by_witness :
  ~ In "points" (map snd OutcomeKeys.attrs) /\
  FilterCondition_.to_dict (mkFilterCondition (VStr "points") (Some GT) (VInt 1))
    ≫= FilterCondition_.from_dict = Raise TypeError.
Proof.
  assert (~ In "points" (map snd OutcomeKeys.attrs)) as H.
  { simpl. intros Hin.
    repeat (destruct Hin as [Hin|Hin]; [discriminate Hin|]). exact Hin. }
  split; [exact H|].
  exact (proj2 (FilterCondition_undefined_by "points" GT (VInt 1) H)).
Defined.

Lemma FilterCondition_to_dict_from_dict_witness :
  In ("ODDS", "odds") OutcomeKeys.attrs /\
  FilterCondition_.from_dict
    (<["by" := VStr "ODDS"]>
       (<["where" := VStr "GT"]> (<["value" := VFloat (3 # 2)]> ∅)))
    ≫= FilterCondition_.to_dict
  = Ok (<["by" := VStr "ODDS"]>
          (<["where" := VStr "GT"]> (<["value" := VFloat (3 # 2)]> ∅))).
Proof.
  assert (In ("ODDS", "odds") OutcomeKeys.attrs) as H by (simpl; tauto).
  split; [exact H|].
  exact (FilterCondition_to_dict_from_dict "ODDS" "odds" GT (VFloat (3 # 2)) H).
Defined.

Lemma Strategy_getitem_name (s : Strategy) :
  Strategy_getitem (Plain (VStr (Strategy_name s))) = Ok s.
Proof. destruct s; reflexivity. Qed.

(** X4. [BetSettings.from_dict (to_dict s)] gives back the settings [s],
    for every [s] with a strategy and with no filter condition or one
    that has a condition and a metric defined in [OutcomeKeys]. *)
Theorem BetSettings_roundtrip (s : BetSettings) (st : Strategy) :
  strategy s = Some st ->
  (forall fc, filter_condition s = Some fc ->
     exists b w, by_ fc = VStr b /\ In b (map snd OutcomeKeys.attrs) /\
                 where_ fc = Some w) ->
  BetSettings_.to_dict s ≫= BetSettings_.from_dict = Ok (Some s).
Proof.
  destruct s as [sg p g m sm fc]. cbn [strategy filter_condition].
  intros -> Hfc.
  assert (exists f,
            match fc with
            | None => Ok (Plain VNone)
            | Some fc => d ← FilterCondition_.to_dict fc; Ok (Nested d)
            end = Ok f /\
            match f with
            | Plain VNone => Ok None
            | Nested d => c ← FilterCondition_.from_dict d; Ok (Some c)
            | _ => Raise TypeError
            end = Ok fc) as (f & Hto & Hfrom).
  { destruct fc as [[b w v]|].
    - destruct (Hfc _ eq_refl) as (b' & w' & Hb & Hin & Hw).
      cbn [by_ where_] in Hb, Hw. subst b w.
      destruct (FilterCondition_to_dict_then_from_dict b' w' v Hin) as (d & -> & Hd).
      exists (Nested d). split; [reflexivity|]. rewrite Hd. reflexivity.
    - exists (Plain VNone). split; reflexivity. }
  unfold BetSettings_.to_dict.
  cbn [strategy percentage percentage_gap max_points stealth_mode filter_condition].
  rewrite Hto. cbn [mbind res_bind].
  unfold BetSettings_.from_dict, setting_getitem.
  repeat (rewrite ?lookup_insert_eq; rewrite ?lookup_insert_ne by discriminate;
          cbn [mbind res_bind]).
  rewrite Strategy_getitem_name. cbn [mbind res_bind].
  repeat (rewrite ?lookup_insert_eq; rewrite ?lookup_insert_ne by discriminate;
          cbn [mbind res_bind]).
  rewrite Hfrom. cbn [mbind res_bind as_value option_bind].
  destruct sm as [b|]; reflexivity.
Qed.

Lemma BetSettings_roundtrip_witness :
  BetSettings_.to_dict (settings filtered_bet) ≫= BetSettings_.from_dict
  = Ok (Some (settings filtered_bet)).
Proof.
  apply (BetSettings_roundtrip (settings filtered_bet) MOST_VOTED).
  - reflexivity.
  - intros fc Hfc. inversion Hfc; subst fc; clear Hfc.
    exists ODDS, GT. split; [reflexivity|]. split; [simpl; tauto|reflexivity].
Defined.

(** X5. [BetSettings.to_dict] raises [AttributeError] exactly when the
    strategy is [None] or the filter condition has no condition
    ([where] is [None]), and returns otherwise.  Since [default] fills
    nothing in, the settings [BetSettings()] cannot be stored even after
    [default()]. *)
Theorem BetSettings_to_dict_unset (s : BetSettings) :
  (BetSettings_.to_dict s = Raise AttributeError <->
   strategy s = None \/
   exists fc, filter_condition s = Some fc /\ where_ fc = None) /\
  ((exists d, BetSettings_.to_dict s = Ok d) \/
   BetSettings_.to_dict s = Raise AttributeError) /\
  BetSettings_.to_dict (default BetSettings_new) = Raise AttributeError.
Proof.
  split; [|split; [|reflexivity]].
  - unfold BetSettings_.to_dict. destruct (strategy s) as [st|].
    + destruct (filter_condition s) as [[b [w|] v]|]; cbn.
      * split; [discriminate|]. intros [H|(fc & H & Hw)]; [discriminate|].
        inversion H; subst fc. discriminate Hw.
      * split; [|reflexivity]. intros _. right. eexists. split; reflexivity.
      * split; [discriminate|]. intros [H|(fc & H & _)]; discriminate.
    + split; [|reflexivity]. intros _. left. reflexivity.
  - unfold BetSettings_.to_dict. destruct (strategy s) as [st|]; [|right; reflexivity].
    destruct (filter_condition s) as [[b [w|] v]|]; cbn;
      solve [left; eexists; reflexivity | right; reflexivity].
Qed.

(** ** [__clear_outcomes] *)

Lemma zeroed_keys_kept k : k ∈ zeroed_keys -> k ∈ kept_keys.
Proof.
  intros Hk. apply list_elem_of_In in Hk. apply list_elem_of_In.
  simpl in *. tauto.
Qed.

(** The entry of a key after [__clear_outcomes]. *)
Lemma clear_outcome_lookup (o : dict) k :
  clear_outcome o !! k =
  if decide (k ∈ kept_keys) then
    match o !! k with
    | Some v => Some v
    | None => if decide (k ∈ zeroed_keys) then Some (VInt 0) else None
    end
  else None.
Proof.
  destruct (decide (k ∈ kept_keys)) as [Hk|Hk].
  - destruct (o !! k) as [v|] eqn:Hv.
    + apply clear_outcome_kept; assumption.
    + destruct (decide (k ∈ zeroed_keys)) as [Hz|Hz].
      * apply clear_outcome_zeroed; assumption.
      * unfold clear_outcome. simpl. rewrite !fill_zero_lookup.
        assert (filter (fun kv : string * pyval => kv.1 ∈ kept_keys) o !! k = None) as ->
          by (apply map_lookup_filter_None; left; exact Hv).
        repeat match goal with
               | |- context [decide (k = ?key)] =>
                   destruct (decide (k = key)) as [->|_];
                   [exfalso; apply Hz; apply list_elem_of_In; simpl; tauto|]
               end.
        reflexivity.
  - unfold clear_outcome. simpl. rewrite !fill_zero_lookup.
    assert (filter (fun kv : string * pyval => kv.1 ∈ kept_keys) o !! k = None) as ->.
    { apply map_lookup_filter_None. right. intros v _. exact Hk. }
    repeat match goal with
           | |- context [decide (k = ?key)] =>
               destruct (decide (k = key)) as [->|_];
               [exfalso; apply Hk; apply list_elem_of_In; simpl; tauto|]
           end.
    reflexivity.
Qed.

Lemma clear_outcome_idem (o : dict) :
  clear_outcome (clear_outcome o) = clear_outcome o.
Proof.
  apply map_eq. intros k. rewrite (clear_outcome_lookup (clear_outcome o)).
  rewrite (clear_outcome_lookup o).
  destruct (decide (k ∈ kept_keys)); [|reflexivity].
  destruct (o !! k); [reflexivity|].
  destruct (decide (k ∈ zeroed_keys)); reflexivity.
Qed.

(** X6. [__clear_outcomes] leaves in every outcome the nine keys it knows
    and no other: a key outside this list is deleted, a kept key keeps its
    value, each of [percentage_users], [odds], [odds_percentage] and
    [top_points] that is missing is set to [0], and any other missing key
    stays missing.  Running it a second time changes nothing. *)
Theorem clear_outcomes_invariant (outs : list dict) :
  length (clear_outcomes outs) = length outs /\
  (forall i o, outs !! i = Some o ->
     exists o', clear_outcomes outs !! i = Some o' /\
       (forall k, k ∉ kept_keys -> o' !! k = None) /\
       (forall k v, k ∈ kept_keys -> o !! k = Some v -> o' !! k = Some v) /\
       (forall k, k ∈ zeroed_keys -> o !! k = None -> o' !! k = Some (VInt 0)) /\
       (forall k, k ∉ zeroed_keys -> o !! k = None -> o' !! k = None)) /\
  clear_outcomes (clear_outcomes outs) = clear_outcomes outs.
Proof.
  unfold clear_outcomes. split; [apply length_fmap|]. split.
  - intros i o Hi. exists (clear_outcome o).
    rewrite list_lookup_fmap, Hi. split; [reflexivity|].
    repeat split.
    + intros k Hk. rewrite clear_outcome_lookup.
      destruct (decide (k ∈ kept_keys)); [contradiction|reflexivity].
    + intros k v Hk Hv. apply clear_outcome_kept; assumption.
    + intros k Hk Hv. apply clear_outcome_zeroed; assumption.
    + intros k Hk Hv. rewrite clear_outcome_lookup, Hv.
      destruct (decide (k ∈ kept_keys)); [|reflexivity].
      destruct (decide (k ∈ zeroed_keys)); [contradiction|reflexivity].
  - rewrite <- list_fmap_compose. apply list_fmap_ext.
    intros i o _. apply clear_outcome_idem.
Qed.

(** ** [update_outcomes]: what a call leaves in the outcomes *)

Ltac lookup_insert_simpl :=
  repeat first
    [ rewrite lookup_insert_eq
    | rewrite lookup_insert_ne by (discriminate || congruence) ].

Lemma derived_keys_cases k :
  k ∈ derived_keys -> k = PERCENTAGE_USERS \/ k = ODDS \/ k = ODDS_PERCENTAGE.
Proof.
  intros Hk. apply list_elem_of_In in Hk. simpl in Hk.
  intuition congruence.
Qed.

Lemma not_derived_keys k :
  k ∉ derived_keys ->
  k <> PERCENTAGE_USERS /\ k <> ODDS /\ k <> ODDS_PERCENTAGE.
Proof.
  intros Hk. repeat split; intros ->; apply Hk; apply list_elem_of_In;
    simpl; tauto.
Qed.

(** The second loop on one outcome reads the two raw totals of the outcome
    and nothing else, and writes the three derived fields and nothing
    else. *)
Lemma derive_ext fr U T (d1 d2 d1' : dict) :
  d2 !! TOTAL_USERS = d1 !! TOTAL_USERS ->
  d2 !! TOTAL_POINTS = d1 !! TOTAL_POINTS ->
  derive fr U T d1 = Ok d1' ->
  exists d2', derive fr U T d2 = Ok d2' /\
    (forall k, k ∈ derived_keys -> d2' !! k = d1' !! k) /\
    (forall k, k ∈ derived_keys -> is_Some (d1' !! k)) /\
    (forall k, k ∉ derived_keys -> d2' !! k = d2 !! k) /\
    (forall k, k ∉ derived_keys -> d1' !! k = d1 !! k).
Proof.
  intros H1 H2. unfold derive, getitem. rewrite H1.
  destruct (d1 !! TOTAL_USERS) as [u|]; [|discriminate]. cbn [mbind res_bind].
  destruct (py_mul (VInt 100) u) as [a|]; [|discriminate]. cbn [mbind res_bind].
  destruct (py_truediv a U) as [b|]; [|discriminate]. cbn [mbind res_bind].
  destruct (call_float_round fr b) as [x|]; [|discriminate]. cbn [mbind res_bind].
  lookup_insert_simpl. rewrite H2.
  destruct (d1 !! TOTAL_POINTS) as [p|]; [|discriminate]. cbn [mbind res_bind].
  destruct (py_truediv T p) as [c|]; [|discriminate]. cbn [mbind res_bind].
  destruct (call_float_round fr c) as [y|]; [|discriminate]. cbn [mbind res_bind].
  lookup_insert_simpl. cbn [mbind res_bind].
  destruct (py_truediv (VInt 100) y) as [e|]; [|discriminate]. cbn [mbind res_bind].
  destruct (call_float_round fr e) as [z|]; [|discriminate]. cbn [mbind res_bind].
  intros H. inversion H; subst d1'; clear H.
  eexists. split; [reflexivity|]. repeat split.
  - intros k Hk. destruct (derived_keys_cases k Hk) as [-> | [-> | ->]];
      lookup_insert_simpl; reflexivity.
  - intros k Hk. destruct (derived_keys_cases k Hk) as [-> | [-> | ->]];
      lookup_insert_simpl; eexists; reflexivity.
  - intros k Hk. destruct (not_derived_keys k Hk) as (? & ? & ?).
    lookup_insert_simpl. reflexivity.
  - intros k Hk. destruct (not_derived_keys k Hk) as (? & ? & ?).
    lookup_insert_simpl. reflexivity.
Qed.

(** The result of [update_outcomes] on two outcomes: each outcome is
    ingested, run through the second loop when the guard holds, and
    cleared. *)
Lemma update_outcomes_two_inv fr self o0 o1 s0 s1 rest self' :
  outcomes self = [o0; o1] ->
  update_outcomes fr self (s0 :: s1 :: rest) = Ok self' ->
  let U := VInt (snap_total_users s0 + snap_total_users s1) in
  let T := VInt (snap_total_points s0 + snap_total_points s1) in
  exists d0 d1,
    self' = mkBet [clear_outcome d0; clear_outcome d1] (decision self) U T
              (settings self) /\
    ((guard_holds s0 s1 = false /\ d0 = ingest s0 o0 /\ d1 = ingest s1 o1) \/
     (guard_holds s0 s1 = true /\
      derive fr U T (ingest s0 o0) = Ok d0 /\
      derive fr U T (ingest s1 o1) = Ok d1)).
Proof.
  intros Ho H. rewrite (update_outcomes_two fr self o0 o1 s0 s1 rest Ho) in H.
  cbv zeta in H |- *.
  destruct (guard_holds s0 s1).
  - rewrite derive_loop_two in H.
    destruct (derive fr _ _ (ingest s0 o0)) as [d0|]; [|discriminate].
    cbn [mbind res_bind] in H.
    destruct (derive fr _ _ (ingest s1 o1)) as [d1|]; [|discriminate].
    cbn [mbind res_bind clear_outcomes fmap list_fmap] in H.
    inversion H. exists d0, d1. split; [reflexivity|]. right. auto.
  - cbn [mbind res_bind clear_outcomes fmap list_fmap] in H.
    inversion H. eexists _, _. split; [reflexivity|]. left. auto.
Qed.

(** In both cases the keys other than the derived ones are those of the
    ingested outcome. *)
Lemma update_outcomes_two_raw fr self o0 o1 s0 s1 rest self' :
  outcomes self = [o0; o1] ->
  update_outcomes fr self (s0 :: s1 :: rest) = Ok self' ->
  exists d0 d1,
    self' = mkBet [clear_outcome d0; clear_outcome d1] (decision self)
              (VInt (snap_total_users s0 + snap_total_users s1))
              (VInt (snap_total_points s0 + snap_total_points s1))
              (settings self) /\
    (forall k, k ∉ derived_keys -> d0 !! k = ingest s0 o0 !! k) /\
    (forall k, k ∉ derived_keys -> d1 !! k = ingest s1 o1 !! k).
Proof.
  intros Ho H.
  destruct (update_outcomes_two_inv fr self o0 o1 s0 s1 rest self' Ho H)
    as (d0 & d1 & Hs & [(_ & -> & ->)|(_ & D0 & D1)]).
  - exists (ingest s0 o0), (ingest s1 o1). auto.
  - exists d0, d1. split; [exact Hs|].
    destruct (derive_ext fr _ _ _ _ _ eq_refl eq_refl D0) as (? & _ & _ & _ & _ & E0).
    destruct (derive_ext fr _ _ _ _ _ eq_refl eq_refl D1) as (? & _ & _ & _ & _ & E1).
    auto.
Qed.

Lemma ingest_identity snap o k :
  k ∈ ["title"; "color"; "id"] -> ingest snap o !! k = o !! k.
Proof.
  intros Hk. apply ingest_other; intros ->;
    apply list_elem_of_In in Hk; simpl in Hk;
    repeat (destruct Hk as [Hk|Hk]; [discriminate Hk|]); exact Hk.
Qed.

(** X7. A call of [update_outcomes] on two outcomes that returns leaves the
    totals of the snapshots in the bet: each outcome has the users and the
    points of its snapshot, the bet has their sums as [total_users] and
    [total_points], the title, the colour and the id of each outcome are
    as before, and the decision and the settings are not touched.
    Snapshots after the second are ignored. *)
Theorem update_outcomes_totals fr (self self' : Bet) (o0 o1 : dict)
    (s0 s1 : Snapshot) (rest : list Snapshot) :
  outcomes self = [o0; o1] ->
  update_outcomes fr self (s0 :: s1 :: rest) = Ok self' ->
  total_users self' = VInt (snap_total_users s0 + snap_total_users s1) /\
  total_points self' = VInt (snap_total_points s0 + snap_total_points s1) /\
  decision self' = decision self /\ settings self' = settings self /\
  update_outcomes fr self [s0; s1] = Ok self' /\
  exists o0' o1',
    outcomes self' = [o0'; o1'] /\
    o0' !! TOTAL_USERS = Some (VInt (snap_total_users s0)) /\
    o0' !! TOTAL_POINTS = Some (VInt (snap_total_points s0)) /\
    o1' !! TOTAL_USERS = Some (VInt (snap_total_users s1)) /\
    o1' !! TOTAL_POINTS = Some (VInt (snap_total_points s1)) /\
    (forall k, k ∈ ["title"; "color"; "id"] ->
       o0' !! k = o0 !! k /\ o1' !! k = o1 !! k).
Proof.
  intros Ho H.
  assert (update_outcomes fr self [s0; s1] = Ok self') as H2.
  { rewrite (update_outcomes_two fr self o0 o1 s0 s1 [] Ho).
    rewrite (update_outcomes_two fr self o0 o1 s0 s1 rest Ho) in H. exact H. }
  destruct (update_outcomes_two_raw fr self o0 o1 s0 s1 rest self' Ho H)
    as (d0 & d1 & -> & E0 & E1).
  cbn [total_users total_points decision settings outcomes].
  repeat (split; [first [reflexivity | exact H2]|]).
  exists (clear_outcome d0), (clear_outcome d1). split; [reflexivity|].
  assert (forall k, k ∈ derived_keys -> k ∈ [TOTAL_USERS; TOTAL_POINTS; "title"; "color"; "id"] -> False) as Hd.
  { intros k Hk Hk'. apply derived_keys_cases in Hk.
    apply list_elem_of_In in Hk'. simpl in Hk'.
    destruct Hk as [-> | [-> | ->]];
      repeat (destruct Hk' as [Hk'|Hk']; [discriminate Hk'|]); exact Hk'. }
  assert (forall (d o : dict) s k,
            (forall k, k ∉ derived_keys -> d !! k = ingest s o !! k) ->
            k ∈ [TOTAL_USERS; TOTAL_POINTS; "title"; "color"; "id"] ->
            clear_outcome d !! k = ingest s o !! k) as Hc.
  { intros d o s k E Hk.
    assert (k ∈ kept_keys) as Hkept
      by (apply list_elem_of_In; apply list_elem_of_In in Hk; simpl in *; tauto).
    assert (k ∉ zeroed_keys) as Hz.
    { intros Hz. apply list_elem_of_In in Hz. apply list_elem_of_In in Hk.
      simpl in Hz, Hk.
      repeat (destruct Hz as [<-|Hz];
              [repeat (destruct Hk as [Hk|Hk]; [discriminate Hk|]); exact Hk|]).
      exact Hz. }
    rewrite clear_outcome_lookup.
    destruct (decide (k ∈ kept_keys)); [|contradiction].
    rewrite (E k) by (intros Hk'; exact (Hd k Hk' Hk)).
    destruct (ingest s o !! k); [reflexivity|].
    destruct (decide (k ∈ zeroed_keys)); [contradiction|reflexivity]. }
  repeat split.
  - rewrite (Hc d0 o0 s0) by (try exact E0; apply list_elem_of_In; simpl; tauto).
    apply ingest_users.
  - rewrite (Hc d0 o0 s0) by (try exact E0; apply list_elem_of_In; simpl; tauto).
    apply ingest_points.
  - rewrite (Hc d1 o1 s1) by (try exact E1; apply list_elem_of_In; simpl; tauto).
    apply ingest_users.
  - rewrite (Hc d1 o1 s1) by (try exact E1; apply list_elem_of_In; simpl; tauto).
    apply ingest_points.
  - rewrite (Hc d0 o0 s0);
      [apply ingest_identity; assumption|exact E0|].
    apply list_elem_of_In. apply list_elem_of_In in H0. simpl in *. tauto.
  - rewrite (Hc d1 o1 s1);
      [apply ingest_identity; assumption|exact E1|].
    apply list_elem_of_In. apply list_elem_of_In in H0. simpl in *. tauto.
Qed.

(** ** [update_outcomes]: the largest stake *)

Lemma insert_desc_head p l h t :
  insert_desc p l = h :: t ->
  match l with
  | [] => h = p
  | x :: _ => (points x <= points p /\ h = p) \/ (points p < points x /\ h = x)
  end.
Proof.
  destruct l as [|x l']; simpl.
  - intros H. inversion H. reflexivity.
  - destruct (points x <=? points p) eqn:E; intros H; inversion H; subst.
    + left. split; [apply Z.leb_le, E|reflexivity].
    + right. split; [apply Z.leb_gt, E|reflexivity].
Qed.

(** The first element of the sorted list is a predictor of the list with
    the largest number of points. *)
Lemma sorted_desc_head l h t :
  sorted_desc l = h :: t ->
  In h l /\ forall p, In p l -> points p <= points h.
Proof.
  revert h t. induction l as [|x l IH]; intros h t H; [discriminate|].
  change (insert_desc x (sorted_desc l) = h :: t) in H.
  apply insert_desc_head in H.
  destruct (sorted_desc l) as [|y l'] eqn:E.
  - subst h. destruct l as [|z l2].
    + split; [left; reflexivity|]. intros p [->|[]]. lia.
    + exfalso. change (insert_desc z (sorted_desc l2) = []) in E.
      destruct (sorted_desc l2) as [|w l3]; simpl in E; [discriminate|].
      destruct (points w <=? points z); discriminate.
  - destruct (IH y l' eq_refl) as [Hin Hmax].
    destruct H as [[Hle ->]|[Hlt ->]].
    + split; [left; reflexivity|].
      intros p [->|Hp]; [lia|]. specialize (Hmax p Hp). lia.
    + split; [right; exact Hin|].
      intros p [->|Hp]; [lia|]. exact (Hmax p Hp).
Qed.

Lemma sorted_desc_nil l : sorted_desc l = [] -> l = [].
Proof.
  destruct l as [|x l]; [reflexivity|].
  change (insert_desc x (sorted_desc l) = [] -> x :: l = []).
  destruct (sorted_desc l) as [|w l3]; simpl; [discriminate|].
  destruct (points w <=? points x); discriminate.
Qed.

Lemma ingest_top_points snap o :
  (top_predictors snap = [] /\ ingest snap o !! TOP_POINTS = o !! TOP_POINTS) \/
  (exists p, In p (top_predictors snap) /\
             ingest snap o !! TOP_POINTS = Some (VInt (points p)) /\
             forall p', In p' (top_predictors snap) -> points p' <= points p).
Proof.
  unfold ingest. destruct (sorted_desc (top_predictors snap)) as [|h t] eqn:E.
  - left. split; [apply sorted_desc_nil, E|].
    lookup_insert_simpl. reflexivity.
  - right. exists h. destruct (sorted_desc_head _ _ _ E) as [Hin Hmax].
    split; [exact Hin|]. split; [apply lookup_insert_eq|exact Hmax].
Qed.

Lemma clear_outcome_top_points (d : dict) :
  clear_outcome d !! TOP_POINTS = Some (field_or_zero d TOP_POINTS).
Proof.
  rewrite clear_outcome_lookup. unfold field_or_zero.
  destruct (decide (TOP_POINTS ∈ kept_keys)) as [_|N];
    [|exfalso; apply N; apply list_elem_of_In; simpl; tauto].
  destruct (d !! TOP_POINTS); [reflexivity|].
  destruct (decide (TOP_POINTS ∈ zeroed_keys)) as [_|N];
    [reflexivity|exfalso; apply N; apply list_elem_of_In; simpl; tauto].
Qed.

Lemma top_points_not_derived : TOP_POINTS ∉ derived_keys.
Proof.
  intros H. apply derived_keys_cases in H.
  destruct H as [H | [H | H]]; discriminate H.
Qed.

(** X8. After [update_outcomes] the [top_points] of an outcome is the
    largest number of points placed by one of the top predictors of its
    snapshot, whatever their order; when the snapshot lists no predictor
    it is the value the outcome had before ([0] if it had none). *)
Theorem update_outcomes_top_points fr (self self' : Bet) (o0 o1 : dict)
    (s0 s1 : Snapshot) (rest : list Snapshot) :
  outcomes self = [o0; o1] ->
  update_outcomes fr self (s0 :: s1 :: rest) = Ok self' ->
  forall i o s, [o0; o1] !! i = Some o -> [s0; s1] !! i = Some s ->
  exists o', outcomes self' !! i = Some o' /\
    (top_predictors s = [] ->
     o' !! TOP_POINTS = Some (field_or_zero o TOP_POINTS)) /\
    (top_predictors s <> [] ->
     exists p, In p (top_predictors s) /\
       o' !! TOP_POINTS = Some (VInt (points p)) /\
       forall p', In p' (top_predictors s) -> points p' <= points p).
Proof.
  intros Ho H i o s Hi Hs.
  destruct (update_outcomes_two_raw fr self o0 o1 s0 s1 rest self' Ho H)
    as (d0 & d1 & -> & E0 & E1).
  cbn [outcomes].
  assert (exists d, [clear_outcome d0; clear_outcome d1] !! i = Some (clear_outcome d) /\
                    d !! TOP_POINTS = ingest s o !! TOP_POINTS) as (d & Hd & Ed).
  { destruct i as [|[|i]]; simpl in Hi, Hs; try discriminate;
      inversion Hi; inversion Hs; subst.
    - exists d0. split; [reflexivity|]. apply E0, top_points_not_derived.
    - exists d1. split; [reflexivity|]. apply E1, top_points_not_derived. }
  exists (clear_outcome d). split; [exact Hd|].
  rewrite clear_outcome_top_points. unfold field_or_zero. rewrite Ed.
  destruct (ingest_top_points s o) as [[Hnil Hsame]|(p & Hin & Hp & Hmax)].
  - split; [intros _; rewrite Hsame; reflexivity|]. intros N. contradiction.
  - split.
    + intros Hnil. rewrite Hnil in Hin. destruct Hin.
    + intros _. exists p. rewrite Hp. auto.
Qed.

Lemma update_outcomes_top_points_witness :
  outcomes filtered_bet =
    [clear_outcome (raw_outcome "o0" "yes" "BLUE" 0 0);
     clear_outcome (raw_outcome "o1" "no" "PINK" 0 0)] /\
  update_outcomes round_2dp filtered_bet example_snapshots = Ok updated_bet /\
  exists o', outcomes updated_bet !! 0%nat = Some o' /\
    exists p, In p [mkPredictor 300; mkPredictor 4000; mkPredictor 5] /\
      o' !! TOP_POINTS = Some (VInt (points p)) /\
      forall p', In p' [mkPredictor 300; mkPredictor 4000; mkPredictor 5] ->
                 points p' <= points p.
Proof.
  assert (update_outcomes round_2dp filtered_bet example_snapshots = Ok updated_bet)
    as Hu by (vm_compute; reflexivity).
  split; [reflexivity|]. split; [exact Hu|].
  destruct (update_outcomes_top_points round_2dp filtered_bet updated_bet
              (clear_outcome (raw_outcome "o0" "yes" "BLUE" 0 0))
              (clear_outcome (raw_outcome "o1" "no" "PINK" 0 0))
              (mkSnapshot 10 1000 [mkPredictor 300; mkPredictor 4000; mkPredictor 5])
              (mkSnapshot 90 9000 [mkPredictor 100; mkPredictor 2500]) []
              eq_refl Hu 0%nat _ _ eq_refl eq_refl) as (o' & Ho' & _ & Hne).
  exists o'. split; [exact Ho'|]. apply Hne. discriminate.
Defined.

Lemma update_outcomes_totals_witness :
  outcomes filtered_bet =
    [clear_outcome (raw_outcome "o0" "yes" "BLUE" 0 0);
     clear_outcome (raw_outcome "o1" "no" "PINK" 0 0)] /\
  update_outcomes round_2dp filtered_bet example_snapshots = Ok updated_bet /\
  total_users updated_bet = VInt 100 /\ total_points updated_bet = VInt 10000.
Proof.
  assert (update_outcomes round_2dp filtered_bet example_snapshots = Ok updated_bet)
    as Hu by (vm_compute; reflexivity).
  split; [reflexivity|]. split; [exact Hu|].
  destruct (update_outcomes_totals round_2dp filtered_bet updated_bet
              (clear_outcome (raw_outcome "o0" "yes" "BLUE" 0 0))
              (clear_outcome (raw_outcome "o1" "no" "PINK" 0 0))
              (mkSnapshot 10 1000 [mkPredictor 300; mkPredictor 4000; mkPredictor 5])
              (mkSnapshot 90 9000 [mkPredictor 100; mkPredictor 2500]) []
              eq_refl Hu) as (HU & HT & _).
  split; [exact HU|exact HT].
Defined.

(** ** [update_outcomes]: too few snapshots or outcomes *)

(** The first loop over the indices [a, a + n): it returns when there is a
    snapshot for each of them, and raises [IndexError] at the first index
    without one. *)
Lemma ingest_loop_seq snaps : forall n a outs,
  (a + n <= length outs)%nat -> (a <= length snaps)%nat ->
  if decide (a + n <= length snaps)%nat then
    exists outs', ingest_loop (seq a n) snaps outs = Ok outs' /\
      length outs' = length outs /\
      (forall i, (a <= i < a + n)%nat ->
         exists s o, snaps !! i = Some s /\ outs !! i = Some o /\
                     outs' !! i = Some (ingest s o)) /\
      (forall i, ~ (a <= i < a + n)%nat -> outs' !! i = outs !! i)
  else ingest_loop (seq a n) snaps outs = Raise IndexError.
Proof.
  induction n as [|n IH]; intros a outs Hlen Hsn.
  - destruct (decide _) as [_|N]; [|exfalso; lia].
    exists outs. split; [reflexivity|]. split; [reflexivity|].
    split; [intros i Hi; exfalso; lia|reflexivity].
  - destruct (snaps !! a) as [s|] eqn:Es.
    + assert (a < length snaps)%nat as Ha by (apply lookup_lt_is_Some; eauto).
      destruct (lookup_lt_is_Some_2 outs a ltac:(lia)) as [o Eo].
      assert (ingest_loop (seq a (S n)) snaps outs
              = ingest_loop (seq (S a) n) snaps (<[a := ingest s o]> outs)) as ->.
      { cbn [seq ingest_loop]. unfold list_getitem. rewrite Es, Eo. reflexivity. }
      specialize (IH (S a) (<[a := ingest s o]> outs)).
      rewrite length_insert in IH. specialize (IH ltac:(lia) ltac:(lia)).
      destruct (decide (S a + n <= length snaps)%nat) as [Hle|Hgt].
      * destruct (decide (a + S n <= length snaps)%nat) as [_|N]; [|lia].
        destruct IH as (outs' & Hrun & Hl & Hall & Hout).
        exists outs'. split; [exact Hrun|]. split; [exact Hl|]. split.
        -- intros i Hi. destruct (decide (i = a)) as [->|Hne].
           ++ exists s, o. split; [exact Es|]. split; [exact Eo|].
              rewrite Hout by lia. apply list_lookup_insert_eq. lia.
           ++ destruct (Hall i ltac:(lia)) as (s' & o' & Hs' & Ho' & Hi').
              rewrite list_lookup_insert_ne in Ho' by congruence.
              exists s', o'. auto.
        -- intros i Hi. rewrite Hout by lia.
           apply list_lookup_insert_ne. lia.
      * destruct (decide (a + S n <= length snaps)%nat) as [Hle|_]; [lia|].
        exact IH.
    + assert (length snaps <= a)%nat as Ha by (apply lookup_ge_None; exact Es).
      destruct (decide (a + S n <= length snaps)%nat) as [Hle|_]; [lia|].
      cbn [seq ingest_loop]. unfold list_getitem. rewrite Es. reflexivity.
Qed.

(** X9. [update_outcomes] raises [IndexError] when it is given fewer
    snapshots than the bet has outcomes, and when the bet has fewer than
    two outcomes. *)
Theorem update_outcomes_index_error fr (self : Bet) (snaps : list Snapshot) :
  (length snaps < length (outcomes self))%nat \/
    (length (outcomes self) < 2)%nat ->
  update_outcomes fr self snaps = Raise IndexError.
Proof.
  intros H. unfold update_outcomes.
  pose proof (ingest_loop_seq snaps (length (outcomes self)) 0 (outcomes self)
                ltac:(simpl; lia) ltac:(lia)) as L.
  destruct (decide (0 + length (outcomes self) <= length snaps)%nat) as [Hle|Hgt];
    [|rewrite L; reflexivity].
  destruct H as [H|H]; [simpl in Hle; lia|].
  destruct L as (outs' & -> & Hl & Hall & _). cbn [mbind res_bind].
  destruct (outcomes self) as [|o0 [|o1 l]] eqn:Eo; simpl in H; try lia.
  - destruct outs'; [reflexivity|discriminate Hl].
  - destruct outs' as [|x [|y l']]; try discriminate Hl.
    destruct (Hall 0%nat ltac:(simpl; lia)) as (s & o & _ & _ & Hx).
    simpl in Hx. inversion Hx; subst x.
    unfold list_getitem. cbn [lookup list_lookup mbind res_bind].
    rewrite (proj2 (getitem_Ok _ _ _) (ingest_users s o)). reflexivity.
Qed.

Lemma update_outcomes_index_error_witness :
  (length [mkSnapshot 10 1000 []] < length (outcomes filtered_bet))%nat /\
  update_outcomes round_2dp filtered_bet [mkSnapshot 10 1000 []] = Raise IndexError.
Proof.
  assert (length [mkSnapshot 10 1000 []] < length (outcomes filtered_bet))%nat
    as H by (vm_compute; lia).
  split; [exact H|].
  exact (update_outcomes_index_error round_2dp filtered_bet [mkSnapshot 10 1000 []]
           (or_introl H)).
Defined.

(** ** [update_outcomes]: repeated calls *)

Lemma clear_outcome_cleared (o : dict) k :
  clear_outcome o !! k = cleared k (o !! k).
Proof. apply clear_outcome_lookup. Qed.

Lemma ingest_ingested snap (o : dict) k :
  ingest snap o !! k = ingested snap k (o !! k).
Proof.
  unfold ingest, ingested.
  destruct (decide (k = TOTAL_USERS)) as [->|N1].
  { destruct (sorted_desc _); lookup_insert_simpl; reflexivity. }
  destruct (decide (k = TOTAL_POINTS)) as [->|N2].
  { destruct (sorted_desc _); lookup_insert_simpl; reflexivity. }
  destruct (decide (k = TOP_POINTS)) as [->|N3].
  { destruct (sorted_desc _); lookup_insert_simpl; reflexivity. }
  destruct (sorted_desc _); lookup_insert_simpl; reflexivity.
Qed.

Lemma clear_outcome_ext (d1 d2 : dict) :
  (forall k, cleared k (d1 !! k) = cleared k (d2 !! k)) ->
  clear_outcome d1 = clear_outcome d2.
Proof.
  intros H. apply map_eq. intros k. rewrite !clear_outcome_cleared. apply H.
Qed.

Ltac key_cases :=
  repeat match goal with
         | |- context [decide ?P] => destruct (decide P)
         | |- context [match ?x with [] => _ | _ :: _ => _ end] => destruct x
         | |- context [match ?x with Some _ => _ | None => _ end] =>
             is_var x; destruct x
         end;
  subst;
  try reflexivity; try congruence;
  try (exfalso;
       match goal with
       | H : ?k ∉ ?l |- _ => apply H; apply list_elem_of_In; simpl; tauto
       end).

Lemma cleared_ingested_again s k x :
  cleared k (ingested s k (cleared k (ingested s k x))) =
  cleared k (ingested s k x).
Proof. unfold cleared, ingested. key_cases. Qed.

Lemma cleared_ingested_last s s' k x :
  k ∉ derived_keys ->
  (k = TOP_POINTS -> top_predictors s' <> []) ->
  cleared k (ingested s' k (cleared k (ingested s k x))) =
  cleared k (ingested s' k x).
Proof.
  intros Hk Htop. unfold cleared, ingested.
  destruct (decide (k = TOP_POINTS)) as [->|N].
  - specialize (Htop eq_refl).
    destruct (sorted_desc (top_predictors s')) as [|p l] eqn:E;
      [apply sorted_desc_nil in E; contradiction|].
    key_cases.
  - key_cases.
Qed.

(** One outcome through a second call: [d] is the outcome of the first
    call before it is cleared, [d2] the one of the second call. *)
Lemma reupdated_outcome (s s' : Snapshot) (o d d2 dB : dict) :
  (forall k, k ∉ derived_keys -> d !! k = ingest s o !! k) ->
  (forall k, k ∉ derived_keys -> d2 !! k = ingest s' (clear_outcome d) !! k) ->
  (forall k, k ∉ derived_keys -> dB !! k = ingest s' o !! k) ->
  (forall k, k ∈ derived_keys -> cleared k (d2 !! k) = cleared k (dB !! k)) ->
  (forall k x, k ∉ derived_keys ->
     cleared k (ingested s' k (cleared k (ingested s k x))) =
     cleared k (ingested s' k x)) ->
  clear_outcome d2 = clear_outcome dB.
Proof.
  intros Hd Hd2 HdB Hder Hkey. apply clear_outcome_ext. intros k.
  destruct (decide (k ∈ derived_keys)) as [Hk|Hk]; [apply Hder, Hk|].
  rewrite (Hd2 k Hk), (HdB k Hk), !ingest_ingested, clear_outcome_cleared.
  rewrite (Hd k Hk), ingest_ingested. apply Hkey, Hk.
Qed.

(** The second loop gives the same derived fields on any two outcomes
    ingested from the same snapshot. *)
Lemma derive_reingest fr U T s (o o' d : dict) :
  derive fr U T (ingest s o) = Ok d ->
  exists d2, derive fr U T (ingest s o') = Ok d2 /\
    (forall k, k ∈ derived_keys -> d2 !! k = d !! k) /\
    (forall k, k ∉ derived_keys -> d2 !! k = ingest s o' !! k) /\
    (forall k, k ∉ derived_keys -> d !! k = ingest s o !! k).
Proof.
  intros D.
  destruct (derive_ext fr U T (ingest s o) (ingest s o') d)
    as (d2 & D2 & Hder & _ & Hraw2 & Hraw);
    [rewrite !ingest_users; reflexivity
    |rewrite !ingest_points; reflexivity|exact D|].
  exists d2. auto.
Qed.

(** X10. [update_outcomes] is idempotent: a second call with the same
    snapshots returns the state the first call returned, whether the guard
    of the derived fields holds or not. *)
Theorem update_outcomes_idempotent fr (self self1 : Bet) (o0 o1 : dict)
    (s0 s1 : Snapshot) (rest : list Snapshot) :
  outcomes self = [o0; o1] ->
  update_outcomes fr self (s0 :: s1 :: rest) = Ok self1 ->
  update_outcomes fr self1 (s0 :: s1 :: rest) = Ok self1.
Proof.
  intros Ho H.
  destruct (update_outcomes_two_inv fr self o0 o1 s0 s1 rest self1 Ho H)
    as (d0 & d1 & Hs & Hcase).
  cbv zeta in Hcase.
  assert (outcomes self1 = [clear_outcome d0; clear_outcome d1]) as Ho1
    by (rewrite Hs; reflexivity).
  rewrite (update_outcomes_two fr self1 (clear_outcome d0) (clear_outcome d1)
             s0 s1 rest Ho1).
  subst self1. cbv zeta. cbn [decision settings].
  destruct Hcase as [(G & -> & ->)|(G & D0 & D1)]; rewrite G.
  - cbn [mbind res_bind clear_outcomes fmap list_fmap].
    assert (forall s o, clear_outcome (ingest s (clear_outcome (ingest s o)))
                        = clear_outcome (ingest s o)) as E.
    { intros s o. apply clear_outcome_ext. intros k.
      rewrite !ingest_ingested, clear_outcome_cleared, ingest_ingested.
      apply cleared_ingested_again. }
    rewrite !E. reflexivity.
  - rewrite derive_loop_two.
    assert (forall s o d,
              derive fr (VInt (snap_total_users s0 + snap_total_users s1))
                (VInt (snap_total_points s0 + snap_total_points s1))
                (ingest s o) = Ok d ->
              exists d2,
                derive fr (VInt (snap_total_users s0 + snap_total_users s1))
                  (VInt (snap_total_points s0 + snap_total_points s1))
                  (ingest s (clear_outcome d)) = Ok d2 /\
                clear_outcome d2 = clear_outcome d) as E.
    { intros s o d D.
      destruct (derive_reingest fr _ _ s o (clear_outcome d) d D)
        as (d2 & D2 & Hder & Hraw2 & Hraw).
      exists d2. split; [exact D2|].
      apply (reupdated_outcome s s o d d2 d Hraw Hraw2 Hraw).
      - intros k Hk. rewrite (Hder k Hk). reflexivity.
      - intros k x _. apply cleared_ingested_again. }
    destruct (E s0 o0 d0 D0) as (d0' & -> & E0).
    destruct (E s1 o1 d1 D1) as (d1' & -> & E1).
    cbn [mbind res_bind clear_outcomes fmap list_fmap].
    rewrite E0, E1. reflexivity.
Qed.

(** X11. The latest snapshot wins: when the guard of the derived fields
    holds for the snapshots of a call and each of them lists a predictor,
    the state the call returns is the same whether or not another call of
    [update_outcomes] came before it. *)
Theorem update_outcomes_last_wins fr (self self1 selfB : Bet) (o0 o1 : dict)
    (s0 s1 : Snapshot) (rest : list Snapshot)
    (s0' s1' : Snapshot) (rest' : list Snapshot) :
  outcomes self = [o0; o1] ->
  guard_holds s0' s1' = true ->
  top_predictors s0' <> [] -> top_predictors s1' <> [] ->
  update_outcomes fr self (s0 :: s1 :: rest) = Ok self1 ->
  update_outcomes fr self (s0' :: s1' :: rest') = Ok selfB ->
  update_outcomes fr self1 (s0' :: s1' :: rest') = Ok selfB.
Proof.
  intros Ho G T0 T1 H1 HB.
  destruct (update_outcomes_two_raw fr self o0 o1 s0 s1 rest self1 Ho H1)
    as (d0 & d1 & Hs & R0 & R1).
  destruct (update_outcomes_two_inv fr self o0 o1 s0' s1' rest' selfB Ho HB)
    as (b0 & b1 & -> & Hcase).
  cbv zeta in Hcase.
  destruct Hcase as [(G' & _)|(_ & D0 & D1)]; [congruence|].
  assert (outcomes self1 = [clear_outcome d0; clear_outcome d1]) as Ho1
    by (rewrite Hs; reflexivity).
  rewrite (update_outcomes_two fr self1 (clear_outcome d0) (clear_outcome d1)
             s0' s1' rest' Ho1).
  subst self1. cbv zeta. cbn [decision settings]. rewrite G, derive_loop_two.
  assert (forall s s' o d b,
            top_predictors s' <> [] ->
            (forall k, k ∉ derived_keys -> d !! k = ingest s o !! k) ->
            derive fr (VInt (snap_total_users s0' + snap_total_users s1'))
              (VInt (snap_total_points s0' + snap_total_points s1'))
              (ingest s' o) = Ok b ->
            exists d2,
              derive fr (VInt (snap_total_users s0' + snap_total_users s1'))
                (VInt (snap_total_points s0' + snap_total_points s1'))
                (ingest s' (clear_outcome d)) = Ok d2 /\
              clear_outcome d2 = clear_outcome b) as E.
  { intros s s' o d b Ht R D.
    destruct (derive_reingest fr _ _ s' o (clear_outcome d) b D)
      as (d2 & D2 & Hder & Hraw2 & HrawB).
    exists d2. split; [exact D2|].
    apply (reupdated_outcome s s' o d d2 b R Hraw2 HrawB).
    - intros k Hk. rewrite (Hder k Hk). reflexivity.
    - intros k x Hk. apply cleared_ingested_last; [exact Hk|intros _; exact Ht]. }
  destruct (E s0 s0' o0 d0 b0 T0 R0 D0) as (d0' & -> & E0).
  destruct (E s1 s1' o1 d1 b1 T1 R1 D1) as (d1' & -> & E1).
  cbn [mbind res_bind clear_outcomes fmap list_fmap].
  rewrite E0, E1. reflexivity.
Qed.

Lemma update_outcomes_idempotent_witness :
  outcomes filtered_bet =
    [clear_outcome (raw_outcome "o0" "yes" "BLUE" 0 0);
     clear_outcome (raw_outcome "o1" "no" "PINK" 0 0)] /\
  update_outcomes round_2dp filtered_bet example_snapshots = Ok updated_bet /\
  update_outcomes round_2dp updated_bet example_snapshots = Ok updated_bet.
Proof.
  assert (update_outcomes round_2dp filtered_bet example_snapshots = Ok updated_bet)
    as Hu by (vm_compute; reflexivity).
  split; [reflexivity|]. split; [exact Hu|].
  exact (update_outcomes_idempotent round_2dp filtered_bet updated_bet
           (clear_outcome (raw_outcome "o0" "yes" "BLUE" 0 0))
           (clear_outcome (raw_outcome "o1" "no" "PINK" 0 0))
           (mkSnapshot 10 1000 [mkPredictor 300; mkPredictor 4000; mkPredictor 5])
           (mkSnapshot 90 9000 [mkPredictor 100; mkPredictor 2500]) []
           eq_refl Hu).
Defined.

Lemma update_outcomes_last_wins_witness :
  update_outcomes round_2dp filtered_bet early_snapshots = Ok early_bet /\
  update_outcomes round_2dp filtered_bet example_snapshots = Ok updated_bet /\
  update_outcomes round_2dp early_bet example_snapshots = Ok updated_bet.
Proof.
  assert (update_outcomes round_2dp filtered_bet early_snapshots = Ok early_bet)
    as H1 by (vm_compute; reflexivity).
  assert (update_outcomes round_2dp filtered_bet example_snapshots = Ok updated_bet)
    as HB by (vm_compute; reflexivity).
  split; [exact H1|]. split; [exact HB|].
  refine (update_outcomes_last_wins round_2dp filtered_bet early_bet updated_bet
            (clear_outcome (raw_outcome "o0" "yes" "BLUE" 0 0))
            (clear_outcome (raw_outcome "o1" "no" "PINK" 0 0))
            (mkSnapshot 3 700 [mkPredictor 9000]) (mkSnapshot 1 50 []) []
            (mkSnapshot 10 1000 [mkPredictor 300; mkPredictor 4000; mkPredictor 5])
            (mkSnapshot 90 9000 [mkPredictor 100; mkPredictor 2500]) []
            eq_refl eq_refl _ _ H1 HB); discriminate.
Defined.

(** ** [update_outcomes] on a third outcome *)

Lemma guard_first_two U d0 d1 (l : list dict) p0 p1 :
  d0 !! TOTAL_POINTS = Some (VInt p0) -> d1 !! TOTAL_POINTS = Some (VInt p1) ->
  guard (VInt U) (d0 :: d1 :: l) = Ok ((0 <? U) && (0 <? p0) && (0 <? p1)).
Proof.
  intros H0 H1. unfold guard. rewrite py_gt_int. cbn [mbind res_bind].
  destruct (0 <? U); [|reflexivity].
  cbn [list_getitem lookup list_lookup mbind res_bind].
  rewrite (proj2 (getitem_Ok _ _ _) H0).
  cbn [mbind res_bind]. rewrite py_gt_int. cbn [mbind res_bind].
  destruct (0 <? p0); [|reflexivity].
  cbn [list_getitem lookup list_lookup mbind res_bind].
  rewrite (proj2 (getitem_Ok _ _ _) H1).
  cbn [mbind res_bind]. rewrite py_gt_int. reflexivity.
Qed.

Section ThirdOutcome.

Variable float_round : Q -> Q.
Variable tol : Q.
Hypothesis float_round_tol :
  forall x, (Qabs (float_round (b64 x) - b64 x) <= tol)%Q.
Hypothesis tol_small : (tol <= 1 # 2)%Q.

(** X12. The guard of the derived fields looks at the first two outcomes
    only, and the second loop runs over all of them: on a bet with three
    outcomes, snapshots whose first two sides have points and whose third
    side has none make [update_outcomes] raise [ZeroDivisionError] (the
    rounding helper being within [tol <= 1/2] of its argument). *)
Theorem update_outcomes_third_outcome_divides_by_zero
    (self : Bet) (o0 o1 o2 : dict) (s0 s1 s2 : Snapshot) :
  outcomes self = [o0; o1; o2] ->
  guard_holds s0 s1 = true ->
  0 <= snap_total_users s0 -> 0 <= snap_total_users s1 ->
  snap_total_points s0 + snap_total_points s1 <= 2 ^ 1000 ->
  Z.abs (snap_total_users s2) <= 2 ^ 1000 ->
  snap_total_points s2 = 0 ->
  update_outcomes float_round self [s0; s1; s2] = Raise ZeroDivisionError.
Proof.
  intros Ho G Hu0 Hu1 HT Hu2 Hp2.
  unfold guard_holds in G.
  apply andb_prop in G as [G Gp1]. apply andb_prop in G as [GU Gp0].
  pose proof GU as HU. pose proof Gp0 as Hp0. pose proof Gp1 as Hp1.
  apply Z.ltb_lt in HU, Hp0, Hp1.
  unfold update_outcomes. rewrite Ho.
  cbn [length seq ingest_loop list_getitem lookup list_lookup mbind res_bind
       list_insert insert].
  rewrite (proj2 (getitem_Ok _ _ _) (ingest_users s0 o0)),
          (proj2 (getitem_Ok _ _ _) (ingest_users s1 o1)).
  cbn [mbind res_bind py_add].
  rewrite (proj2 (getitem_Ok _ _ _) (ingest_points s0 o0)),
          (proj2 (getitem_Ok _ _ _) (ingest_points s1 o1)).
  cbn [mbind res_bind py_add].
  rewrite (guard_first_two _ _ _ _ _ _ (ingest_points s0 o0) (ingest_points s1 o1)).
  rewrite GU, Gp0, Gp1. cbn [andb mbind res_bind].
  set (U := snap_total_users s0 + snap_total_users s1) in *.
  set (T := snap_total_points s0 + snap_total_points s1) in *.
  cbn [derive_loop list_getitem lookup list_lookup mbind res_bind].
  rewrite (derive_Ok float_round tol float_round_tol tol_small s0 o0 U T)
    by (unfold U, T; lia).
  cbn [mbind res_bind list_insert insert list_getitem lookup list_lookup].
  rewrite (derive_Ok float_round tol float_round_tol tol_small s1 o1 U T)
    by (unfold U, T; lia).
  cbn [mbind res_bind list_insert insert list_getitem lookup list_lookup].
  rewrite derive_ingest.
  rewrite (py_truediv_int (100 * snap_total_users s2) U); [|lia|].
  2:{ assert (0 < inject_Z U)%Q as HUq
        by (change 0%Q with (inject_Z 0); rewrite <- Zlt_Qlt; exact HU).
      pose proof (pow2_gt0 1000 ltac:(lia)) as Hpos.
      assert (2 ^ 1007 = 128 * 2 ^ 1000)%Z as E1007
        by (change 1007 with (7 + 1000); rewrite pow2_add by lia; reflexivity).
      apply (Qle_trans _ (2 ^ 1007)%Q); [|apply Qpow2_le; lia].
      rewrite <- Qpow2_inject by lia.
      apply Qabs_Qle_condition. split.
      - apply Qle_shift_div_l; [exact HUq|].
        rewrite <- inject_Z_opp, <- inject_Z_mult, <- Zle_Qle. rewrite E1007. nia.
      - apply Qle_shift_div_r; [exact HUq|].
        rewrite <- inject_Z_mult, <- Zle_Qle. rewrite E1007. nia. }
  cbn [mbind res_bind call_float_round py_float].
  rewrite Hp2. reflexivity.
Qed.

End ThirdOutcome.

Lemma update_outcomes_third_outcome_divides_by_zero_witness :
  update_outcomes round_2dp three_way_bet
    [mkSnapshot 10 1000 []; mkSnapshot 90 9000 []; mkSnapshot 0 0 []]
  = Raise ZeroDivisionError.
Proof.
  apply (update_outcomes_third_outcome_divides_by_zero round_2dp (1 # 200)
           (fun x => round_2dp_tol (b64 x)) ltac:(discriminate)
           three_way_bet
           (clear_outcome (raw_outcome "o0" "one" "BLUE" 0 0))
           (clear_outcome (raw_outcome "o1" "two" "PINK" 0 0))
           (clear_outcome (raw_outcome "o2" "three" "GREEN" 0 0))
           (mkSnapshot 10 1000 []) (mkSnapshot 90 9000 []) (mkSnapshot 0 0 []));
    try reflexivity; cbn [snap_total_users snap_total_points]; lia.
Defined.

(** ** Rounding to binary64: upper bounds *)

Lemma rne_div_upper a b c : 0 < b -> a <= c * b -> rne_div a b <= c.
Proof.
  intros Hb Hc. unfold rne_div.
  pose proof (Z.div_mod a b ltac:(lia)) as Hdm.
  pose proof (Z.mod_pos_bound a b Hb) as Hm.
  assert (a / b <= c) by (apply Z.div_le_upper_bound; lia).
  destruct (Z.compare_spec (2 * (a mod b)) b) as [E|E|E];
    [destruct (Z.even (a / b))|..]; nia.
Qed.

Lemma rne_div_opp a b : 0 < b -> rne_div (- a) b = - rne_div a b.
Proof.
  intros Hb. unfold rne_div.
  destruct (Z.eq_dec (a mod b) 0) as [Hz|Hnz].
  - rewrite (Z.div_opp_l_z a b) by lia. rewrite (Z.mod_opp_l_z a b) by lia.
    rewrite Hz.
    destruct (Z.compare_spec (2 * 0) b); lia.
  - rewrite (Z.div_opp_l_nz a b) by lia. rewrite (Z.mod_opp_l_nz a b) by lia.
    pose proof (Z.mod_pos_bound a b Hb) as Hm.
    assert (Z.even (- (a / b) - 1) = negb (Z.even (a / b))) as Hev.
    { rewrite Z.even_sub, Z.even_opp. simpl (Z.even 1).
      destruct (Z.even (a / b)); reflexivity. }
    destruct (Z.compare_spec (2 * (b - a mod b)) b) as [E|E|E];
      destruct (Z.compare_spec (2 * (a mod b)) b) as [F|F|F]; try lia.
    rewrite Hev. destruct (Z.even (a / b)); simpl; lia.
Qed.

Local Open Scope Q_scope.

Lemma b64_opp q : b64 (- q) == - b64 q.
Proof.
  destruct q as [n d]. unfold b64. cbn [Qopp Qnum Qden].
  destruct (Z.eqb_spec n 0) as [->|Hn].
  { simpl. reflexivity. }
  destruct (Z.eqb_spec (- n) 0) as [E|_]; [lia|].
  assert (b64_exp (- n # d) = b64_exp (n # d)) as Ee
    by (unfold b64_exp; cbn [Qnum Qden]; rewrite Z.abs_opp; reflexivity).
  assert (b64_mant (- n # d) = (- b64_mant (n # d))%Z) as Em.
  { unfold b64_mant. rewrite Ee. cbn [Qnum Qden].
    rewrite Z.mul_opp_l. apply rne_div_opp.
    pose proof (pow2_gt0 (Z.max 0 (b64_exp (n # d))) ltac:(lia)). lia. }
  change (- (n # d)) with (- n # d).
  rewrite Ee, Em, !Qred_correct, !scale2_eq, inject_Z_opp. ring.
Qed.

Lemma b64_nonpos q : q <= 0 -> b64 q <= 0.
Proof.
  intros Hq.
  assert (- - q = q) as Eq
    by (destruct q as [n d]; unfold Qopp; cbn [Qnum Qden];
        rewrite Z.opp_involutive; reflexivity).
  assert (b64 q == - b64 (- q)) as ->
    by (rewrite <- (b64_opp (- q)), Eq; reflexivity).
  assert (0 <= b64 (- q)) by (apply b64_nonneg; lra).
  lra.
Qed.

Lemma b64_le_int c q :
  (0 <= c <= 2 ^ 52)%Z -> 0 <= q -> q <= inject_Z c -> b64 q <= inject_Z c.
Proof.
  intros Hc Hq0 Hq.
  destruct (Qeq_dec q 0) as [Ez|Hz].
  { rewrite (b64_zero q Ez). change 0 with (inject_Z 0). rewrite <- Zle_Qle. lia. }
  rewrite (b64_eq q Hz).
  assert (b64_exp q <= 0)%Z as Hk.
  { assert (b64_exp q <= 52 - 52)%Z; [|lia].
    apply b64_exp_le; [lia|]. rewrite Qabs_pos by exact Hq0.
    eapply Qle_trans; [exact Hq|]. rewrite <- Qpow2_inject by lia.
    rewrite <- Zle_Qle. lia. }
  unfold b64_mant. set (k := b64_exp q) in *.
  destruct q as [n d]. cbn [Qnum Qden].
  unfold Qle in Hq. simpl in Hq.
  rewrite (Z.max_r 0 (- k)), (Z.max_l 0 k) by lia.
  pose proof (pow2_gt0 (- k) ltac:(lia)) as Hp.
  assert (rne_div (n * 2 ^ (- k)) (Z.pos d * 2 ^ 0) <= c * 2 ^ (- k))%Z as Hm.
  { apply rne_div_upper; [simpl; lia|]. simpl (2 ^ 0)%Z. nia. }
  apply (Qle_trans _ (inject_Z (c * 2 ^ (- k)) * 2 ^ k)).
  - apply Qmult_le_r; [apply Qpow2_pos|]. rewrite <- Zle_Qle. exact Hm.
  - rewrite inject_Z_mult, Qpow2_inject by lia.
    rewrite <- Qmult_assoc, <- Qpow2_add.
    replace (- k + k)%Z with 0%Z by lia. rewrite Qmult_1_r. apply Qle_refl.
Qed.

(** Rounding never crosses an integer of magnitude at most [2^52]. *)
Lemma b64_upper_int t q :
  (Z.abs t <= 2 ^ 52)%Z -> q <= inject_Z t -> b64 q <= inject_Z t.
Proof.
  intros Ht Hq. destruct (Z.le_gt_cases 0 t) as [Hpos|Hneg].
  - destruct (Qlt_le_dec q 0) as [Hq0|Hq0].
    + apply (Qle_trans _ 0); [apply b64_nonpos; lra|].
      change 0 with (inject_Z 0). rewrite <- Zle_Qle. exact Hpos.
    + apply b64_le_int; [lia|exact Hq0|exact Hq].
  - assert (inject_Z (- t) <= b64 (- q)) as H.
    { apply b64_ge_int.
      - split; [lia|]. transitivity (2 ^ 52)%Z; [lia|].
        apply Z.pow_le_mono_r; lia.
      - rewrite inject_Z_opp. lra. }
    rewrite b64_opp, inject_Z_opp in H. lra.
Qed.

(** [int(x)] of a float below an integer is at most that integer. *)
Lemma trunc_le q t :
  q <= inject_Z t -> (Z.quot (Qnum q) (Zpos (Qden q)) <= t)%Z.
Proof.
  destruct q as [n d]. unfold Qle. simpl. intros H.
  destruct (Z.le_gt_cases 0 n) as [Hn|Hn].
  - rewrite Z.quot_div_nonneg by lia.
    apply Z.div_le_upper_bound; [lia|]. rewrite Z.mul_comm. lia.
  - pose proof (Z.quot_rem' n (Z.pos d)) as E.
    pose proof (Z.rem_bound_pos_neg n (Z.pos d) ltac:(lia) ltac:(lia)) as B.
    nia.
Qed.

Local Close Scope Q_scope.

(** ** [calculate]: the decision and the amount *)

Section Amount.

Variable char_decision_as_index : pyval -> res nat.

Lemma decision_keys (a b c : pyval) k :
  is_Some ((<["choice" := a]> (<["amount" := b]> (<["id" := c]> ∅)) : dict) !! k)
  <-> k = "choice" \/ k = "amount" \/ k = "id".
Proof.
  destruct (decide (k = "choice")) as [->|N1];
    [lookup_insert_simpl; split; [tauto|intros _; eexists; reflexivity]|].
  destruct (decide (k = "amount")) as [->|N2];
    [lookup_insert_simpl; split; [tauto|intros _; eexists; reflexivity]|].
  destruct (decide (k = "id")) as [->|N3];
    [lookup_insert_simpl; split; [tauto|intros _; eexists; reflexivity]|].
  lookup_insert_simpl. rewrite lookup_empty. split.
  - intros [x Hx]. discriminate Hx.
  - intros [H|[H|H]]; congruence.
Qed.

(** X13. [calculate] recomputes the decision from nothing: the decision it
    returns has exactly the keys ["choice"], ["amount"] and ["id"] and does
    not depend on the decision the bet had before, so that a second call
    with the same balance and the same draw returns the same state; the
    outcomes, the totals and the settings are not touched. *)
Theorem calculate_recomputes_decision
    (self self' : Bet) (balance : Z) (r : Q) :
  calculate char_decision_as_index self balance r = Ok self' ->
  outcomes self' = outcomes self /\
  total_users self' = total_users self /\
  total_points self' = total_points self /\
  settings self' = settings self /\
  (forall k, is_Some (decision self' !! k) <->
             k = "choice" \/ k = "amount" \/ k = "id") /\
  (forall d, calculate char_decision_as_index (with_decision self d) balance r
             = Ok self') /\
  calculate char_decision_as_index self' balance r = Ok self'.
Proof.
  intros H.
  assert (forall d, calculate char_decision_as_index (with_decision self d)
                      balance r = Ok self') as Hd by (intros d; exact H).
  assert (forall k, is_Some (decision self' !! k) <->
                    k = "choice" \/ k = "amount" \/ k = "id") as Hk.
  { unfold calculate in H. inv_binds. subst self'. cbn [decision].
    destruct a; inv_binds; subst; apply decision_keys. }
  assert (self' = with_decision self (decision self')) as E.
  { unfold calculate in H. inv_binds. subst self'. reflexivity. }
  repeat split; try (rewrite E; reflexivity); try apply Hk; try exact Hd.
  rewrite E at 1. apply Hd.
Qed.

Lemma stealth_upper self (o : dict) st t r v n :
  stealth_mode (settings self) <> Some true \/
    ((0 <= r)%Q /\ o !! TOP_POINTS = Some (VInt t) /\ Z.abs t <= 2 ^ 52) ->
  stealth self o (VInt st) r = Ok v ->
  py_int v = Ok n ->
  n <= st.
Proof.
  intros Hcase. unfold stealth.
  destruct (stealth_mode (settings self)) as [[]|];
    try (intros [= <-] [= <-]; lia).
  destruct Hcase as [Hne|(Hr & Ht & Hb)]; [congruence|].
  rewrite (proj2 (getitem_Ok _ _ _) Ht). cbn [mbind res_bind].
  rewrite py_ge_int. cbn [mbind res_bind].
  destruct (Z.leb_spec t st) as [Hle|Hgt]; [|intros [= <-] [= <-]; lia].
  unfold py_sub, float_op. cbn [py_float]. intros H. inv_binds.
  repeat match goal with E : b64_res _ = Ok _ |- _ => apply b64_res_Ok in E end.
  subst. cbn [py_int]. intros [= <-].
  transitivity t; [|exact Hle].
  apply trunc_le, b64_upper_int; [exact Hb|].
  pose proof (b64_upper_int t (inject_Z t) Hb (Qle_refl _)). lra.
Qed.

(** X14. The amount never exceeds the cap nor the share of the balance: for
    a balance between 0 and [2^44], an integer percentage between 0 and
    100 and an integer cap that is not negative, the amount of the
    decision is at most [max_points] and at most
    [floor(balance * percentage / 100)], hence at most the balance.  With
    stealth mode on this needs a draw that is not negative and integer
    [top_points] of magnitude at most [2^52]. *)
Theorem amount_within_limits
    (self : Bet) (balance p m : Z) (r : Q) (self' : Bet) :
  0 <= balance <= 2 ^ 44 ->
  percentage (settings self) = VInt p -> 0 <= p <= 100 ->
  max_points (settings self) = VInt m -> 0 <= m ->
  stealth_mode (settings self) <> Some true \/
    ((0 <= r)%Q /\
     forall o, In o (outcomes self) ->
       exists t, o !! TOP_POINTS = Some (VInt t) /\ Z.abs t <= 2 ^ 52) ->
  calculate char_decision_as_index self balance r = Ok self' ->
  exists n, decision self' !! "amount" = Some (VInt n) /\
    n <= m /\ n <= balance * p / 100 /\ n <= balance.
Proof.
  intros Hb Hp Hp0 Hm Hm0 Hcase Hc.
  assert (2 ^ 44 <= 2 ^ 500) as B44 by (apply Z.pow_le_mono_r; lia).
  assert (0 <= balance * p / 100) as Hshare by (apply Z.div_pos; nia).
  assert (balance * p / 100 <= balance) as Hbal
    by (apply Z.div_le_upper_bound; nia).
  assert (stake self balance = Ok (VInt (Z.min (b64_stake balance p) m)))
    as Hstake by (apply stake_int; try assumption; lia).
  assert (b64_stake balance p <= balance * p / 100) as Hfloor
    by (apply b64_stake_floor; nia).
  assert (forall i o st v n,
            list_getitem (outcomes self) i = Ok o ->
            stealth self o (VInt st) r = Ok v -> py_int v = Ok n -> n <= st)
    as Hstealth.
  { intros i o st v n Ho Hs Hi.
    destruct Hcase as [Hne|[Hr Hall]].
    - apply (stealth_upper self o st 0 r v n); [left; exact Hne|exact Hs|exact Hi].
    - apply list_getitem_Ok in Ho.
      destruct (Hall o) as (t & Ht & Htb);
        [apply list_elem_of_In; eapply list_elem_of_lookup_2; exact Ho|].
      apply (stealth_upper self o st t r v n); [right; auto|exact Hs|exact Hi]. }
  unfold calculate in Hc. inv_binds. subst self'. cbn [decision].
  destruct a; inv_binds; subst; lookup_insert_simpl;
    try (exists 0; split; [reflexivity|lia]);
    match goal with
    | E : stake _ _ = Ok ?x |- _ =>
        is_var x; rewrite Hstake in E; inversion E; subst; clear E
    end;
    (eexists; split; [reflexivity|]);
    match goal with
    | Hl : list_getitem _ _ = Ok ?o, Hs : stealth _ ?o _ _ = Ok ?v,
      Hi : py_int ?v = Ok _ |- _ =>
        pose proof (Hstealth _ _ _ _ _ Hl Hs Hi)
    end; lia.
Qed.

Lemma stealth_below self (o : dict) st t r v n :
  stealth_mode (settings self) = Some true -> (1 <= r)%Q ->
  o !! TOP_POINTS = Some (VInt t) -> Z.abs t < 2 ^ 52 ->
  stealth self o (VInt st) r = Ok v ->
  py_int v = Ok n ->
  n < t.
Proof.
  intros Hsm Hr Ht Hb. unfold stealth. rewrite Hsm.
  rewrite (proj2 (getitem_Ok _ _ _) Ht). cbn [mbind res_bind].
  rewrite py_ge_int. cbn [mbind res_bind].
  destruct (Z.leb_spec t st) as [Hle|Hgt]; [|intros [= <-] [= <-]; lia].
  unfold py_sub, float_op. cbn [py_float]. intros H. inv_binds.
  repeat match goal with E : b64_res _ = Ok _ |- _ => apply b64_res_Ok in E end.
  subst. cbn [py_int]. intros [= <-].
  match goal with
  | |- Z.quot (Qnum ?x) _ < t =>
      assert (Z.quot (Qnum x) (Z.pos (Qden x)) <= t - 1); [|lia]
  end.
  apply trunc_le, b64_upper_int; [lia|].
  pose proof (b64_upper_int t (inject_Z t) ltac:(lia) (Qle_refl _)).
  unfold Z.sub. rewrite inject_Z_plus, inject_Z_opp.
  change (inject_Z 1) with 1%Q. lra.
Qed.

(** X15. Stealth mode keeps the amount under the largest stake: with
    stealth mode on, a draw of at least 1 and integer [top_points] (of
    magnitude below [2^52]), whenever [calculate] makes a choice the
    amount of the decision is strictly less than the [top_points] of the
    outcome it chose, the outcome whose id the decision carries. *)
Theorem stealth_amount_below_top_points
    (self : Bet) (balance p m : Z) (r : Q) (self' : Bet) :
  stealth_mode (settings self) = Some true -> (1 <= r)%Q ->
  percentage (settings self) = VInt p ->
  max_points (settings self) = VInt m ->
  Z.abs balance <= 2 ^ 500 -> Z.abs p <= 2 ^ 500 ->
  (forall o, In o (outcomes self) ->
     exists t, o !! TOP_POINTS = Some (VInt t) /\ Z.abs t < 2 ^ 52) ->
  calculate char_decision_as_index self balance r = Ok self' ->
  decision self' !! "choice" <> Some VNone ->
  exists ch i o t n,
    decision self' !! "choice" = Some ch /\
    char_decision_as_index ch = Ok i /\
    outcomes self !! i = Some o /\
    decision self' !! "id" = o !! "id" /\
    o !! TOP_POINTS = Some (VInt t) /\
    decision self' !! "amount" = Some (VInt n) /\ n < t.
Proof.
  intros Hsm Hr Hp Hm Hb Hpb Hall Hc Hch.
  pose proof (stake_int self balance p m Hp Hm Hb Hpb) as Hstake.
  unfold calculate in Hc. inv_binds. subst self'. cbn [decision] in *.
  destruct a; inv_binds; subst; lookup_insert_simpl;
    try (exfalso; apply Hch; lookup_insert_simpl; reflexivity);
    match goal with
    | E : stake _ _ = Ok ?x |- _ =>
        is_var x; rewrite Hstake in E; inversion E; subst; clear E
    end;
    match goal with
    | Hi : char_decision_as_index ?ch = Ok ?i,
      Hl : list_getitem _ ?i = Ok ?o, Hl' : list_getitem _ ?i = Ok ?o',
      Hid : getitem ?o "id" = Ok ?id,
      Hs : stealth _ ?o' _ _ = Ok ?v, Hn : py_int ?v = Ok ?n |- _ =>
        assert (o' = o) as -> by congruence;
        apply list_getitem_Ok in Hl; apply getitem_Ok in Hid;
        destruct (Hall o) as (t & Ht & Htb);
        [apply list_elem_of_In; eapply list_elem_of_lookup_2; exact Hl|];
        exists ch, i, o, t, n;
        repeat (split; [first [reflexivity | assumption | symmetry; assumption]|]);
        apply (stealth_below self o _ t r v n Hsm Hr Ht Htb Hs Hn)
    end.
Qed.

End Amount.

Lemma calculate_recomputes_decision_witness :
  calculate index_of_choice updated_bet 100000 1 = Ok decided_bet /\
  calculate index_of_choice decided_bet 100000 1 = Ok decided_bet.
Proof.
  assert (calculate index_of_choice updated_bet 100000 1 = Ok decided_bet)
    as H by (vm_compute; reflexivity).
  split; [exact H|].
  exact (proj2 (proj2 (proj2 (proj2 (proj2 (proj2
           (calculate_recomputes_decision index_of_choice updated_bet decided_bet 100000 1 H))))))).
Defined.


Lemma amount_within_limits_witness :
  calculate index_of_choice updated_bet 100000 1 = Ok decided_bet /\
  exists n, decision decided_bet !! "amount" = Some (VInt n) /\
    n <= 50000 /\ n <= 100000 * 5 / 100 /\ n <= 100000.
Proof.
  assert (calculate index_of_choice updated_bet 100000 1 = Ok decided_bet)
    as H by (vm_compute; reflexivity).
  split; [exact H|].
  apply (amount_within_limits index_of_choice updated_bet 100000 5 50000 1
           decided_bet).
  - vm_compute. split; discriminate.
  - reflexivity.
  - lia.
  - reflexivity.
  - lia.
  - left. vm_compute. discriminate.
  - exact H.
Defined.

Lemma stealth_amount_below_top_points_witness :
  calculate index_of_choice stealth_bet 100000 (3 # 2) = Ok decided_stealth_bet /\
  exists ch i o t n,
    decision decided_stealth_bet !! "choice" = Some ch /\
    index_of_choice ch = Ok i /\
    outcomes stealth_bet !! i = Some o /\
    decision decided_stealth_bet !! "id" = o !! "id" /\
    o !! TOP_POINTS = Some (VInt t) /\
    decision decided_stealth_bet !! "amount" = Some (VInt n) /\ n < t.
Proof.
  assert (calculate index_of_choice stealth_bet 100000 (3 # 2)
          = Ok decided_stealth_bet) as H by (vm_compute; reflexivity).
  split; [exact H|].
  apply (stealth_amount_below_top_points index_of_choice stealth_bet
           100000 5 50000 (3 # 2) decided_stealth_bet).
  - reflexivity.
  - vm_compute. discriminate.
  - reflexivity.
  - reflexivity.
  - vm_compute. discriminate.
  - vm_compute. discriminate.
  - intros o Hin.
    destruct Hin as [<-|[<-|[]]].
    + exists 4000. split; [vm_compute; reflexivity|vm_compute; reflexivity].
    + exists 2500. split; [vm_compute; reflexivity|vm_compute; reflexivity].
  - exact H.
  - vm_compute. discriminate.
Defined.

(** ** [skip] after [calculate] *)

Section AfterCalculate.

Variable char_decision_as_index : pyval -> res nat.

(** X16. After a [calculate] that made a choice, [skip] returns: with a
    filter on a metric other than the two totals, a condition and a
    numeric threshold, on outcomes that have the field of the metric as a
    number, [skip] returns the field of the outcome that [calculate]
    chose (the one whose id the decision carries), with the verdict
    [False] exactly when the condition holds between this value and the
    threshold. *)
Theorem skip_after_calculate
    (self self' : Bet) (s : Strategy) (fc : FilterCondition) (key : string)
    (cnd : Condition) (v : Q) (balance : Z) (r : Q) :
  strategy (settings self) = Some s ->
  filter_condition (settings self) = Some fc ->
  by_ fc = VStr key -> key <> TOTAL_USERS -> key <> TOTAL_POINTS ->
  where_ fc = Some cnd -> num_val (value fc) = Some v ->
  (forall o, In o (outcomes self) ->
     exists x q, o !! resolved_key key = Some x /\ num_val x = Some q) ->
  calculate char_decision_as_index self balance r = Ok self' ->
  exists ch i o x q verdict,
    decision self' !! "choice" = Some (VStr ch) /\
    char_decision_as_index (VStr ch) = Ok i /\
    outcomes self' !! i = Some o /\
    decision self' !! "id" = o !! "id" /\
    o !! resolved_key key = Some x /\ num_val x = Some q /\
    skip char_decision_as_index self' = Ok (verdict, x) /\
    (verdict = false <-> holds cnd q v).
Proof.
  intros Hs Hfc Hby Hk1 Hk2 Hw Hv Hall Hc.
  unfold calculate in Hc. inv_binds. subst self'.
  destruct (choose_inv _ _ _ Hs Ha) as (k & _ & _ & _ & _ & _ & Hrc).
  destruct (return_choice_inv _ _ _ Hrc) as (ro0 & ro1 & rx0 & rx1 & g & _ & _ & _ & _ & _ & ->).
  set (ch := if g then "A" else "B") in *.
  repeat match goal with
         | H : context [match VStr ch with _ => _ end] |- _ => cbv iota in H
         end.
  inv_binds. subst.
  match goal with
  | Hl : list_getitem _ ?i = Ok ?o, Hl' : list_getitem _ ?i = Ok ?o',
    Hid : getitem ?o "id" = Ok ?id, Hs : stealth _ ?o' _ _ = Ok _ |- _ =>
      assert (o' = o) as -> by congruence; clear Hl';
      apply getitem_Ok in Hid;
      pose proof Hl as Hlk; apply list_getitem_Ok in Hlk;
      destruct (Hall o) as (xv & qv & Hx & Hq);
      [apply list_elem_of_In; eapply list_elem_of_lookup_2; exact Hlk|];
      destruct (satisfies_num cnd xv (value fc) qv v Hq Hv) as (h & Hh & Hiff);
      exists ch, i, o, xv, qv, (negb h)
  end.
  cbn [decision outcomes]. lookup_insert_simpl.
  repeat (split; [first [reflexivity | assumption | symmetry; assumption]|]).
  split.
  - unfold skip. cbn [settings decision outcomes]. rewrite Hfc, Hby, Hw.
    assert (is_total_key (VStr key) = false) as ->.
    { destruct (is_total_key (VStr key)) eqn:E; [|reflexivity].
      apply is_total_key_str in E. tauto. }
    rewrite fixed_key_resolved.
    unfold getitem at 1. lookup_insert_simpl. cbn [mbind res_bind].
    match goal with Hi : char_decision_as_index _ = Ok _ |- _ => rewrite Hi end.
    cbn [mbind res_bind].
    match goal with Hl : list_getitem _ _ = Ok _ |- _ => rewrite Hl end.
    cbn [mbind res_bind getitem_val].
    rewrite (proj2 (getitem_Ok _ _ _) Hx). cbn [mbind res_bind].
    rewrite Hh. reflexivity.
  - rewrite <- Hiff. destruct h; simpl; split; congruence.
Qed.

End AfterCalculate.

Lemma skip_after_calculate_witness :
  calculate index_of_choice updated_bet 100000 1 = Ok decided_bet /\
  exists verdict x, skip index_of_choice decided_bet = Ok (verdict, x).
Proof.
  assert (calculate index_of_choice updated_bet 100000 1 = Ok decided_bet)
    as H by (vm_compute; reflexivity).
  assert (strategy (settings updated_bet) = Some MOST_VOTED)
    as Hs by (vm_compute; reflexivity).
  assert (filter_condition (settings updated_bet)
          = Some (mkFilterCondition (VStr ODDS) (Some GT) (VFloat (3 # 2))))
    as Hfc by (vm_compute; reflexivity).
  assert (forall o, In o (outcomes updated_bet) ->
            exists x q, o !! resolved_key ODDS = Some x /\ num_val x = Some q)
    as Hall.
  { intros o Hin. destruct Hin as [<-|[<-|[]]].
    - exists (VFloat (1000 # 100)), (1000 # 100)%Q. split; vm_compute; reflexivity.
    - exists (VFloat (111 # 100)), (111 # 100)%Q. split; vm_compute; reflexivity. }
  assert (ODDS <> TOTAL_USERS) as N1 by discriminate.
  assert (ODDS <> TOTAL_POINTS) as N2 by discriminate.
  split; [exact H|].
  destruct (skip_after_calculate index_of_choice updated_bet decided_bet
              MOST_VOTED (mkFilterCondition (VStr ODDS) (Some GT) (VFloat (3 # 2)))
              ODDS GT (3 # 2) 100000 1 Hs Hfc eq_refl N1 N2 eq_refl eq_refl
              Hall H)
    as (ch & i & o & x & q & verdict & _ & _ & _ & _ & _ & _ & Hskip & _).
  exists verdict, x. exact Hskip.
Defined.

(** ** From the constructor to a decision *)

Lemma raw_outcome_id id title color users pts :
  clear_outcome (raw_outcome id title color users pts) !! "id" = Some (VStr id).
Proof.
  apply clear_outcome_kept; [apply list_elem_of_In; simpl; tauto|].
  unfold raw_outcome. apply lookup_insert_eq.
Qed.

Lemma id_not_derived : "id" ∉ derived_keys.
Proof.
  intros H. apply derived_keys_cases in H.
  destruct H as [H | [H | H]]; discriminate H.
Qed.

Section Pipeline.

Variable float_round : Q -> Q.
Variable tol : Q.
Hypothesis float_round_tol :
  forall x, (Qabs (float_round (b64 x) - b64 x) <= tol)%Q.
Hypothesis tol_small : (tol <= 1 # 2)%Q.

Variable char_decision_as_index : pyval -> res nat.
Hypothesis index_A : char_decision_as_index (VStr "A") = Ok 0%nat.
Hypothesis index_B : char_decision_as_index (VStr "B") = Ok 1%nat.

(** X18. A bet built from two raw outcomes, updated with two snapshots and
    asked for a decision always gives one: for settings with a strategy,
    an integer percentage, an integer cap and a numeric gap, and numbers
    far inside the binary64 range, [update_outcomes] and then [calculate]
    return, the choice is ["A"] or ["B"], and the id of the decision is
    the id of the first outcome for ["A"] and of the second for ["B"]. *)
Theorem decision_after_update
    (id0 title0 color0 id1 title1 color1 : string) (users0 pts0 users1 pts1 : Z)
    (st : BetSettings) (s : Strategy) (p m : Z) (g : Q)
    (s0 s1 : Snapshot) (balance : Z) (r : Q) :
  strategy st = Some s ->
  percentage st = VInt p -> max_points st = VInt m ->
  num_val (percentage_gap st) = Some g ->
  0 <= snap_total_users s0 -> 0 <= snap_total_users s1 ->
  snap_total_points s0 + snap_total_points s1 <= 2 ^ 400 ->
  (forall x, In x (top_predictors s0 ++ top_predictors s1) ->
             Z.abs (points x) <= 2 ^ 500) ->
  Z.abs balance <= 2 ^ 500 -> Z.abs p <= 2 ^ 500 -> (Qabs r <= 2 ^ 500)%Q ->
  exists self1 self2 c,
    update_outcomes float_round
      (Bet_new [raw_outcome id0 title0 color0 users0 pts0;
                raw_outcome id1 title1 color1 users1 pts1] st) [s0; s1]
      = Ok self1 /\
    calculate char_decision_as_index self1 balance r = Ok self2 /\
    decision self2 !! "choice" = Some (VStr c) /\
    ((c = "A" /\ decision self2 !! "id" = Some (VStr id0)) \/
     (c = "B" /\ decision self2 !! "id" = Some (VStr id1))).
Proof.
  intros Hs Hp Hm Hg Hu0 Hu1 HT Hpred Hb Hpb Hr.
  set (o0 := clear_outcome (raw_outcome id0 title0 color0 users0 pts0)).
  set (o1 := clear_outcome (raw_outcome id1 title1 color1 users1 pts1)).
  set (self := Bet_new [raw_outcome id0 title0 color0 users0 pts0;
                        raw_outcome id1 title1 color1 users1 pts1] st).
  assert (outcomes self = [o0; o1]) as Ho by reflexivity.
  destruct (update_outcomes_well_formed float_round tol float_round_tol tol_small
              self o0 o1 s0 s1 Ho
              (raw_outcome_well_formed _ _ _ _ _) (raw_outcome_well_formed _ _ _ _ _)
              Hu0 Hu1 HT Hpred) as (o0' & o1' & Hup & W0 & W1).
  destruct (update_outcomes_two_raw float_round self o0 o1 s0 s1 [] _ Ho Hup)
    as (d0 & d1 & E & R0 & R1).
  inversion E; subst o0' o1'; clear E.
  assert (clear_outcome d0 !! "id" = Some (VStr id0)) as Hid0.
  { rewrite clear_outcome_cleared, (R0 "id" id_not_derived), ingest_ingested.
    unfold o0. rewrite raw_outcome_id. reflexivity. }
  assert (clear_outcome d1 !! "id" = Some (VStr id1)) as Hid1.
  { rewrite clear_outcome_cleared, (R1 "id" id_not_derived), ingest_ingested.
    unfold o1. rewrite raw_outcome_id. reflexivity. }
  set (self1 := mkBet [clear_outcome d0; clear_outcome d1] (decision self)
                  (VInt (snap_total_users s0 + snap_total_users s1))
                  (VInt (snap_total_points s0 + snap_total_points s1))
                  (settings self)) in *.
  destruct (calculate_returns char_decision_as_index index_A index_B
              self1 s (clear_outcome d0) (clear_outcome d1) p m g balance r
              Hs Hp Hm Hg Hb Hpb Hr eq_refl W0 W1)
    as (self2 & c & Hc & Hch & Hcase).
  exists self1, self2, c. split; [exact Hup|]. split; [exact Hc|].
  split; [exact Hch|].
  unfold calculate in Hc. inv_binds. subst self2. cbn [decision] in *.
  destruct a; inv_binds; subst;
    revert Hch; lookup_insert_simpl; intros Hch; inversion Hch; subst.
  subst self1. cbn [outcomes] in *.
  match goal with
  | Hi : char_decision_as_index _ = Ok ?i,
    Hl : list_getitem _ ?i = Ok ?o, Hgi : getitem ?o "id" = Ok _ |- _ =>
      apply getitem_Ok in Hgi; apply list_getitem_Ok in Hl;
      destruct Hcase as [-> | ->];
      [rewrite index_A in Hi|rewrite index_B in Hi];
      inversion Hi; subst; cbn [lookup list_lookup] in Hl;
      inversion Hl; subst; [left|right]; (split; [reflexivity|congruence])
  end.
Qed.

End Pipeline.

Lemma decision_after_update_witness :
  exists self1 self2 c,
    update_outcomes round_2dp
      (Bet_new [raw_outcome "o0" "yes" "BLUE" 0 0;
                raw_outcome "o1" "no" "PINK" 0 0]
         (plain_settings MOST_VOTED 5 20 50000 false))
      [mkSnapshot 10 1000 [mkPredictor 300]; mkSnapshot 90 9000 []]
      = Ok self1 /\
    calculate index_of_choice self1 100000 1 = Ok self2 /\
    decision self2 !! "choice" = Some (VStr c) /\
    ((c = "A" /\ decision self2 !! "id" = Some (VStr "o0")) \/
     (c = "B" /\ decision self2 !! "id" = Some (VStr "o1"))).
Proof.
  assert (forall x, In x (top_predictors (mkSnapshot 10 1000 [mkPredictor 300])
                          ++ top_predictors (mkSnapshot 90 9000 [])) ->
                    Z.abs (points x) <= 2 ^ 500) as Hpred.
  { intros x Hin. destruct Hin as [<-|[]]. vm_compute. discriminate. }
  apply (decision_after_update round_2dp (1 # 200)
           (fun x => round_2dp_tol (b64 x)) ltac:(discriminate)
           index_of_choice index_of_choice_A index_of_choice_B
           "o0" "yes" "BLUE" "o1" "no" "PINK" 0 0 0 0
           (plain_settings MOST_VOTED 5 20 50000 false) MOST_VOTED 5 50000 20%Q
           (mkSnapshot 10 1000 [mkPredictor 300]) (mkSnapshot 90 9000 [])
           100000 1);
    try reflexivity; try exact Hpred; vm_compute; discriminate.
Defined.

(** ** [calculate] on fewer than two outcomes *)

(** X17. A bet needs two outcomes: with a strategy set, [calculate] on a
    bet with fewer than two outcomes never returns a decision; it raises
    [IndexError], or [KeyError] when the only outcome lacks the field that
    the strategy reads first. *)
Theorem calculate_needs_two_outcomes
    (c : pyval -> res nat) (self : Bet) (s : Strategy) (balance : Z) (r : Q) :
  strategy (settings self) = Some s ->
  (length (outcomes self) < 2)%nat ->
  calculate c self balance r = Raise IndexError \/
  calculate c self balance r = Raise KeyError.
Proof.
  intros Hs Hlen.
  assert (forall key, return_choice self key = Raise IndexError \/
                      return_choice self key = Raise KeyError) as Hrc.
  { intros key. unfold return_choice.
    destruct (outcomes self) as [|o0 [|o1 l]]; simpl in Hlen; try lia.
    - left. reflexivity.
    - cbn [list_getitem lookup list_lookup mbind res_bind].
      unfold getitem. destruct (o0 !! key); [left|right]; reflexivity. }
  assert (choose self = Raise IndexError \/ choose self = Raise KeyError) as Hc.
  { unfold choose. rewrite Hs. destruct s; try apply Hrc.
    destruct (outcomes self) as [|o0 [|o1 l]]; simpl in Hlen; try lia.
    - left. reflexivity.
    - cbn [list_getitem lookup list_lookup mbind res_bind].
      unfold getitem. destruct (o0 !! PERCENTAGE_USERS); [left|right]; reflexivity. }
  unfold calculate. destruct Hc as [-> | ->]; [left|right]; reflexivity.
Qed.

Lemma calculate_needs_two_outcomes_witness :
  calculate index_of_choice
    (Bet_new [raw_outcome "o0" "yes" "BLUE" 0 0]
       (plain_settings SMART 5 20 50000 false)) 100000 1
  = Raise IndexError \/
  calculate index_of_choice
    (Bet_new [raw_outcome "o0" "yes" "BLUE" 0 0]
       (plain_settings SMART 5 20 50000 false)) 100000 1
  = Raise KeyError.
Proof.
  apply (calculate_needs_two_outcomes index_of_choice
           (Bet_new [raw_outcome "o0" "yes" "BLUE" 0 0]
              (plain_settings SMART 5 20 50000 false)) SMART 100000 1).
  - reflexivity.
  - vm_compute. lia.
Defined.
